(** * Verification of the nba-pipeline lineup/possession reconstruction engine

    Shallow embedding of the Python transformers of the repository:
    - [lineups/transformers/lineup_states.py]      (lineup timeline builder)
    - [lineups/transformers/possessions.py]        (possession segmentation)
    - [lineups/transformers/lineup_possessions.py] (interval attribution join)
    - [lineups/transformers/lineup_ratings.py]     (rating aggregator)
    - [players/transformers/court_time.py]         (hybrid court-time tracker)
    - [players/transformers/rim_defense.py]        (rim-defense on/off split)

    Pandas data frames are modelled as lists of records in row order,
    Python dicts as association lists in insertion order, NaN as [None],
    and raised exceptions as the [None] of an option result.  Player, team
    and clock values are integers ([Z]); rim percentages and ratings are
    rationals ([Q]), the exact values the floating-point columns
    approximate. *)

From Stdlib Require Import ZArith List String Bool QArith Sorting.Sorted Sorting.Permutation Lia Lqa.
Import ListNotations.
Open Scope Z_scope.

(* ------------------------------------------------------------------ *)
(** ** Generic helpers: stable sort, last element, association lists *)

Section StableSort.
Context {A : Type} (leb : A -> A -> bool).

(** Insert [x] after every element that is not greater than it, so that
    equal keys keep their original order (pandas' stable sort). *)
Fixpoint insert_after (x : A) (l : list A) : list A :=
  match l with
  | [] => [x]
  | y :: t => if leb y x then y :: insert_after x t else x :: y :: t
  end.

Definition stable_sort (l : list A) : list A :=
  fold_left (fun acc x => insert_after x acc) l [].
End StableSort.

(** [df.iloc[-1]] on a possibly empty frame. *)
Fixpoint last_opt {A : Type} (l : list A) : option A :=
  match l with
  | [] => None
  | [x] => Some x
  | _ :: t => last_opt t
  end.

(** Membership test for a Python [set] / [list] of integers. *)
Definition memZ (x : Z) (l : list Z) : bool := existsb (Z.eqb x) l.

(* ------------------------------------------------------------------ *)
(** ** Lineup states ([lineup_states.py]) and the attribution join
       ([lineup_possessions.py]) *)

(** One row of the lineup-states table. *)
Record LineupState := {
  ls_period : Z;
  ls_game_clock_seconds : Z;   (* time remaining in the period *)
  ls_team : string;
  ls_team_id : Z;
  ls_players : list Z
}.

(** [find_lineup_at_time] (lineup_possessions.py, lines 62-86). *)
Definition find_lineup_at_time (lineups_df : list LineupState)
    (period time_seconds team_id : Z) : option LineupState :=
  let team_lineups :=
    filter (fun r => (ls_team_id r =? team_id) && (ls_period r =? period))
      lineups_df in
  match team_lineups with
  | [] => None
  | _ =>
      (* sort_values('game_clock_seconds', ascending=False) *)
      let sorted :=
        stable_sort (fun a b => ls_game_clock_seconds b <=? ls_game_clock_seconds a)
          team_lineups in
      let active_lineups :=
        filter (fun r => time_seconds <=? ls_game_clock_seconds r) sorted in
      match active_lineups with
      | [] => last_opt sorted
      | _ => last_opt active_lineups
      end
  end.

(* ------------------------------------------------------------------ *)
(** ** Possession segmentation ([lineups/transformers/possessions.py]) *)

(** One raw play-by-play row, as far as possession parsing reads it.
    [r_gameClock] is the display clock already converted to seconds
    remaining by [_game_clock_to_seconds]; [r_offTeamId = None] is NaN. *)
Record PbpRow := {
  r_period : Z;
  r_gameClock : Z;
  r_pbpOrder : Z;
  r_msgType : Z;
  r_playerId1 : option Z;
  r_offTeamId : option Z;
  r_pts : Z
}.

(** One row of [pbp_clean] after [_prepare_pbp_data]. *)
Record Event := {
  ev_period : Z;
  ev_game_clock_seconds : Z;
  ev_time_elapsed : Z;
  ev_pbpOrder : Z;
  ev_msgType : Z;
  ev_playerId1 : option Z;
  ev_offTeamId_clean : option Z;
  ev_pts : Z
}.

(** [pbp.groupby('period')['game_clock_seconds'].max()] at one period. *)
Definition max_period_time (pbp : list PbpRow) (p : Z) : option Z :=
  fold_right (fun r acc =>
      if r_period r =? p then
        match acc with
        | Some m => Some (Z.max (r_gameClock r) m)
        | None => Some (r_gameClock r)
        end
      else acc) None pbp.

(** Sort key [(period, time_elapsed, pbpOrder)], lexicographic. *)
Definition event_leb (a b : Event) : bool :=
  (ev_period a <? ev_period b) ||
  ((ev_period a =? ev_period b) &&
   ((ev_time_elapsed a <? ev_time_elapsed b) ||
    ((ev_time_elapsed a =? ev_time_elapsed b) && (ev_pbpOrder a <=? ev_pbpOrder b)))).

(** [_prepare_pbp_data] together with [_clean_team_ids]'s
    [offTeamId_clean = offTeamId.where(offTeamId > 0, NaN)]. *)
Definition prepare_pbp_data (pbp : list PbpRow) : list Event :=
  stable_sort event_leb
    (map (fun r => {|
        ev_period := r_period r;
        ev_game_clock_seconds := r_gameClock r;
        ev_time_elapsed :=
          match max_period_time pbp (r_period r) with
          | Some m => m | None => 0 end - r_gameClock r;
        ev_pbpOrder := r_pbpOrder r;
        ev_msgType := r_msgType r;
        ev_playerId1 := r_playerId1 r;
        ev_offTeamId_clean :=
          match r_offTeamId r with
          | Some t => if 0 <? t then Some t else None
          | None => None
          end;
        ev_pts := r_pts r |}) pbp).

Inductive EndType := made_shot | free_throw | turnover | defensive_rebound | period_end.

Definition EndType_eqb (a b : EndType) : bool :=
  match a, b with
  | made_shot, made_shot | free_throw, free_throw | turnover, turnover
  | defensive_rebound, defensive_rebound | period_end, period_end => true
  | _, _ => false
  end.

(** A possession-ending record ([_create_possession_ending]). *)
Record Ending := {
  en_period : Z;
  en_end_time_seconds : Z;
  en_time_elapsed : Z;
  en_end_type : EndType;
  en_ending_team : option Z;
  en_pbp_idx : nat
}.

Definition create_possession_ending (play : Event) (end_type : EndType) (idx : nat)
  : Ending :=
  {| en_period := ev_period play; en_end_time_seconds := ev_game_clock_seconds play;
     en_time_elapsed := ev_time_elapsed play; en_end_type := end_type;
     en_ending_team := ev_offTeamId_clean play; en_pbp_idx := idx |}.

(** pandas [==] on float ids: NaN equals nothing. *)
Definition same_player (a b : option Z) : bool :=
  match a, b with Some x, Some y => x =? y | _, _ => false end.

(** [pbp_df.iloc[idx+1:idx+3] if idx < len(pbp_df)-2 else pd.DataFrame()] *)
Definition next_plays (pbp_df : list Event) (idx : nat) : list Event :=
  if Z.of_nat idx <? Z.of_nat (List.length pbp_df) - 2
  then firstn 2 (skipn (S idx) pbp_df) else [].

(** [_is_and_one_freethrow] (lines 138-150). *)
Definition is_and_one_freethrow (play : Event) (pbp_df : list Event) (idx : nat) : bool :=
  existsb (fun next_play =>
      (ev_msgType next_play =? 3) &&
      same_player (ev_playerId1 next_play) (ev_playerId1 play) &&
      (Z.abs (ev_time_elapsed next_play - ev_time_elapsed play) <? 5))
    (next_plays pbp_df idx).

(** [_is_last_free_throw] (lines 153-164). *)
Definition is_last_free_throw (play : Event) (pbp_df : list Event) (idx : nat) : bool :=
  negb (existsb (fun next_play =>
      (ev_msgType next_play =? 3) &&
      same_player (ev_playerId1 next_play) (ev_playerId1 play) &&
      (Z.abs (ev_time_elapsed next_play - ev_time_elapsed play) <? 10))
    (next_plays pbp_df idx)).

(** [_is_defensive_rebound] (lines 167-182): scan back to the first missed
    shot; both outcomes of the scan, and the default, answer [True]. *)
Definition is_defensive_rebound (play : Event) (pbp_df : list Event) (idx : nat) : bool :=
  let prev_plays := rev (firstn (idx - (idx - 5)) (skipn (idx - 5) pbp_df)) in
  let fix scan (l : list Event) : bool :=
    match l with
    | [] => true
    | prev_play :: t =>
        if ev_msgType prev_play =? 2 then
          match ev_offTeamId_clean play, ev_offTeamId_clean prev_play with
          | Some a, Some b => if negb (a =? b) then true else true
          | _, _ => true
          end
        else scan t
    end in
  scan prev_plays.

(** [_identify_possession_endings] (lines 92-135). *)
Fixpoint identify_endings_from (pbp_df rows : list Event) (idx : nat) : list Ending :=
  match rows with
  | [] => []
  | play :: t =>
      let rest := identify_endings_from pbp_df t (S idx) in
      let m := ev_msgType play in
      if m =? 1 then
        if negb (is_and_one_freethrow play pbp_df idx)
        then create_possession_ending play made_shot idx :: rest else rest
      else if m =? 3 then
        if is_last_free_throw play pbp_df idx
        then create_possession_ending play free_throw idx :: rest else rest
      else if m =? 4 then
        if is_defensive_rebound play pbp_df idx
        then create_possession_ending play defensive_rebound idx :: rest else rest
      else if m =? 5 then create_possession_ending play turnover idx :: rest
      else if (m =? 12) || (m =? 13) then create_possession_ending play period_end idx :: rest
      else rest
  end.

Definition identify_possession_endings (pbp_df : list Event) : list Ending :=
  identify_endings_from pbp_df pbp_df 0.


(** One possession row.  [points_scored] and [duration_seconds] are filled
    by [calculate_possession_metrics]. *)
Record Possession := {
  possession_id : Z;
  po_period : Z;
  start_time_seconds : Z;
  end_time_seconds : Z;
  off_team : Z;
  def_team : Z;
  end_type : EndType;
  pbp_end_idx : nat;
  points_scored : Z;
  duration_seconds : Z
}.

(** [Series.unique()]: distinct values in order of first appearance. *)
Fixpoint unique_Z (l : list Z) : list Z :=
  match l with
  | [] => []
  | x :: t => x :: filter (fun y => negb (y =? x)) (unique_Z t)
  end.

(** [pbp_df[pbp_df['period'] == period]['game_clock_seconds'].max()] *)
Definition period_max_clock (pbp_df : list Event) (p : Z) : option Z :=
  fold_right (fun e acc =>
      if ev_period e =? p then
        match acc with
        | Some m => Some (Z.max (ev_game_clock_seconds e) m)
        | None => Some (ev_game_clock_seconds e)
        end
      else acc) None pbp_df.

(** The inner loop over one period's endings (lines 222-242). *)
Fixpoint period_possessions (period : Z) (endings : list Ending)
    (possession_id0 possession_start current_off_team other_team : Z)
  : list Possession :=
  match endings with
  | [] => []
  | ending :: rest =>
      {| possession_id := possession_id0; po_period := period;
         start_time_seconds := possession_start;
         end_time_seconds := en_end_time_seconds ending;
         off_team := current_off_team; def_team := other_team;
         end_type := en_end_type ending; pbp_end_idx := en_pbp_idx ending;
         points_scored := 0; duration_seconds := 0 |}
      :: (if EndType_eqb (en_end_type ending) defensive_rebound
             || EndType_eqb (en_end_type ending) turnover
          then period_possessions period rest (possession_id0 + 1)
                 (en_end_time_seconds ending) other_team current_off_team
          else period_possessions period rest (possession_id0 + 1)
                 (en_end_time_seconds ending) current_off_team other_team)
  end.

(** The body of the per-period loop (lines 206-242); [None] is a raised
    exception ([.iloc[0]] on an empty frame, [valid_teams[1]] out of range). *)
Definition period_block (pbp_df : list Event) (endings_df : list Ending)
    (period possession_id0 : Z) : option (list Possession) :=
  let period_endings :=
    stable_sort (fun a b => en_time_elapsed a <=? en_time_elapsed b)
      (filter (fun en => en_period en =? period) endings_df) in
  match period_max_clock pbp_df period with
  | None => None
  | Some period_start_time =>
      let period_pbp := filter (fun e => ev_period e =? period) pbp_df in
      match find (fun e => match ev_offTeamId_clean e with
                           | Some _ => true | None => false end) period_pbp with
      | None => None
      | Some first_team_event =>
          match ev_offTeamId_clean first_team_event with
          | None => None
          | Some current_off_team =>
              let valid_teams :=
                stable_sort Z.leb
                  (unique_Z (flat_map (fun e => match ev_offTeamId_clean e with
                                                | Some t => [t] | None => [] end)
                               pbp_df)) in
              let other :=
                match valid_teams with
                | v0 :: rest =>
                    if current_off_team =? v0
                    then match rest with v1 :: _ => Some v1 | [] => None end
                    else Some v0
                | [] => None
                end in
              match other with
              | None => None
              | Some other_team =>
                  Some (period_possessions period period_endings possession_id0
                          period_start_time current_off_team other_team)
              end
          end
      end
  end.

Fixpoint periods_possessions (pbp_df : list Event) (endings_df : list Ending)
    (periods : list Z) (possession_id0 : Z) : option (list Possession) :=
  match periods with
  | [] => Some []
  | period :: rest =>
      match period_block pbp_df endings_df period possession_id0 with
      | None => None
      | Some block =>
          match periods_possessions pbp_df endings_df rest
                  (possession_id0 + Z.of_nat (List.length block)) with
          | None => None
          | Some tail => Some (block ++ tail)
          end
      end
  end.

(** [_build_possession_timeline] (lines 197-244). *)
Definition build_possession_timeline (pbp_df : list Event) (endings_df : list Ending)
  : option (list Possession) :=
  match endings_df with
  | [] => Some []
  | _ => periods_possessions pbp_df endings_df
           (stable_sort Z.leb (unique_Z (map en_period endings_df))) 1
  end.

(** [_calculate_possession_metrics] (lines 247-278) for one row. *)
Definition possession_metrics (pbp_df : list Event) (poss : Possession) : Possession :=
  let pts :=
    fold_right Z.add 0
      (map ev_pts (filter (fun e =>
         (ev_period e =? po_period poss) &&
         (ev_game_clock_seconds e <=? start_time_seconds poss) &&
         (end_time_seconds poss <=? ev_game_clock_seconds e) &&
         same_player (ev_offTeamId_clean e) (Some (off_team poss)) &&
         (0 <? ev_pts e)) pbp_df)) in
  {| possession_id := possession_id poss; po_period := po_period poss;
     start_time_seconds := start_time_seconds poss;
     end_time_seconds := end_time_seconds poss;
     off_team := off_team poss; def_team := def_team poss;
     end_type := end_type poss; pbp_end_idx := pbp_end_idx poss;
     points_scored := pts;
     duration_seconds := Z.abs (start_time_seconds poss - end_time_seconds poss) |}.

(** [extract_possessions] (lines 13-45). *)
Definition extract_possessions (pbp_df : list PbpRow) : option (list Possession) :=
  let pbp_clean := prepare_pbp_data pbp_df in
  let possession_endings := identify_possession_endings pbp_clean in
  match build_possession_timeline pbp_clean possession_endings with
  | None => None
  | Some possessions => Some (map (possession_metrics pbp_clean) possessions)
  end.

(** Consecutive-pair property of a list. *)
Fixpoint chain {A : Type} (R : A -> A -> Prop) (l : list A) : Prop :=
  match l with
  | x :: ((y :: _) as t) => R x y /\ chain R t
  | _ => True
  end.

(** [a, a+1, ..., a+n-1] *)
Fixpoint zseq (a : Z) (n : nat) : list Z :=
  match n with
  | O => []
  | S n' => a :: zseq (a + 1) n'
  end.

(** End types after which [_build_possession_timeline] swaps the teams. *)
Definition flips_offense (t : EndType) : bool :=
  EndType_eqb t defensive_rebound || EndType_eqb t turnover.

(** Relation between a possession and the next one in the output, as the
    specification states it: in the same period the teams are swapped exactly after
    a turnover or a defensive rebound. *)
Definition next_possession_teams (x y : Possession) : Prop :=
  po_period x = po_period y ->
  if flips_offense (end_type x)
  then off_team y = def_team x /\ def_team y = off_team x
  else off_team y = off_team x /\ def_team y = def_team x.

(** Chronological order of consecutive possessions: a later period, or the
    same period and a start clock not larger (the clock counts down, so the
    elapsed time does not decrease). *)
Definition next_possession_later (x y : Possession) : Prop :=
  po_period x < po_period y \/
  (po_period x = po_period y /\ start_time_seconds y <= start_time_seconds x).



(* ------------------------------------------------------------------ *)
(** ** Box score, play rows, and the lineup timeline builder
       ([lineups/transformers/lineup_states.py]) *)

(** One box-score row; [b_startPos = None] is NaN. *)
Record BoxRow := {
  b_nbaId : Z;
  b_nbaTeamId : Z;
  b_team : string;
  b_startPos : option string;
  b_gs : Z
}.

(** One play-by-play row as the lineup trackers read it; [p_gameClock] is
    the display clock converted to seconds by [_game_clock_to_seconds]. *)
Record PlayRow := {
  p_period : Z;
  p_gameClock : Z;
  p_wallClockInt : Z;
  p_msgType : Z;
  p_team : string;
  p_playerId1 : option Z;
  p_playerId2 : option Z;
  p_playerId3 : option Z
}.

Fixpoint unique_str (l : list string) : list string :=
  match l with
  | [] => []
  | x :: t => x :: filter (fun y => negb (String.eqb y x)) (unique_str t)
  end.

Fixpoint lookup_str {A : Type} (k : string) (m : list (string * A)) : option A :=
  match m with
  | [] => None
  | (k', v) :: t => if String.eqb k k' then Some v else lookup_str k t
  end.

(** Python [d[k] = v] on an existing key: the key keeps its position. *)
Fixpoint update_str {A : Type} (k : string) (v : A) (m : list (string * A))
  : list (string * A) :=
  match m with
  | [] => [(k, v)]
  | (k', v') :: t => if String.eqb k k' then (k, v) :: t else (k', v') :: update_str k v t
  end.

(** [_extract_starting_lineups] (lines 46-67): team -> (players, team_id);
    [None] is the raised [ValueError]. *)
Definition extract_starting_lineups (box_score_df : list BoxRow)
  : option (list (string * (list Z * Z))) :=
  let starters := filter (fun r => match b_startPos r with
                                   | Some s => negb (String.eqb s "")
                                   | None => false end) box_score_df in
  fold_right (fun team acc =>
      let team_starters := filter (fun r => String.eqb (b_team r) team) starters in
      let player_ids := map b_nbaId team_starters in
      match team_starters with
      | [] => None
      | first :: _ =>
          if negb (Nat.eqb (List.length player_ids) 5) then None
          else match acc with
               | None => None
               | Some l => Some ((team, (unique_Z player_ids, b_nbaTeamId first)) :: l)
               end
      end) (Some []) (unique_str (map b_team starters)).

Record Substitution := {
  su_period : Z;
  su_game_clock_seconds : Z;
  su_team : string;
  su_player_in : Z;
  su_player_out : Z
}.

(** [_parse_substitutions] (lines 70-97): [playerId1] enters, [playerId2]
    leaves; sorted by period ascending, clock descending. *)
Definition parse_substitutions (pbp_df : list PlayRow) : list Substitution :=
  stable_sort (fun a b => (su_period a <? su_period b) ||
                          ((su_period a =? su_period b) &&
                           (su_game_clock_seconds b <=? su_game_clock_seconds a)))
    (flat_map (fun r =>
       if p_msgType r =? 8 then
         match p_playerId1 r, p_playerId2 r with
         | Some p1, Some p2 =>
             [{| su_period := p_period r; su_game_clock_seconds := p_gameClock r;
                 su_team := p_team r; su_player_in := p1; su_player_out := p2 |}]
         | _, _ => []
         end
       else []) pbp_df).

(** One substitution of the loop at lines 131-153: [None] is the [KeyError]
    of an unknown team; an invalid pair leaves everything unchanged. *)
Definition apply_substitution (team_ids : list (string * Z))
    (current_lineups : list (string * list Z)) (sub : Substitution)
  : option (list (string * list Z) * list LineupState) :=
  let team := su_team sub in
  match lookup_str team current_lineups with
  | None => None
  | Some players =>
      if negb (memZ (su_player_out sub) players) then Some (current_lineups, [])
      else if memZ (su_player_in sub) players then Some (current_lineups, [])
      else
        let players' := filter (fun p => negb (p =? su_player_out sub)) players
                        ++ [su_player_in sub] in
        match lookup_str team team_ids with
        | None => None
        | Some tid =>
            Some (update_str team players' current_lineups,
                  [{| ls_period := su_period sub;
                      ls_game_clock_seconds := su_game_clock_seconds sub;
                      ls_team := team; ls_team_id := tid;
                      ls_players := stable_sort Z.leb players' |}])
        end
  end.

Fixpoint run_substitutions (team_ids : list (string * Z))
    (current_lineups : list (string * list Z)) (subs : list Substitution)
  : option (list (string * list Z) * list LineupState) :=
  match subs with
  | [] => Some (current_lineups, [])
  | sub :: rest =>
      match apply_substitution team_ids current_lineups sub with
      | None => None
      | Some (cur1, rows1) =>
          match run_substitutions team_ids cur1 rest with
          | None => None
          | Some (cur2, rows2) => Some (cur2, rows1 ++ rows2)
          end
      end
  end.

(** [_build_lineup_timeline] (lines 100-155). *)
Definition build_lineup_timeline (starting_lineups : list (string * (list Z * Z)))
    (substitutions : list Substitution) (pbp_df : list PlayRow)
  : option (list (string * list Z) * list LineupState) :=
  let teams := map fst starting_lineups in
  let team_ids := map (fun '(t, (_, tid)) => (t, tid)) starting_lineups in
  let periods := stable_sort Z.leb (unique_Z (map p_period pbp_df)) in
  fold_left (fun acc period =>
      match acc with
      | None => None
      | Some (current_lineups, timeline) =>
          let start_rows :=
            flat_map (fun team =>
                match lookup_str team current_lineups, lookup_str team team_ids with
                | Some players, Some tid =>
                    [{| ls_period := period;
                        ls_game_clock_seconds := if period <=? 4 then 720 else 300;
                        ls_team := team; ls_team_id := tid;
                        ls_players := stable_sort Z.leb players |}]
                | _, _ => []
                end) teams in
          match run_substitutions team_ids current_lineups
                  (filter (fun s => su_period s =? period) substitutions) with
          | None => None
          | Some (cur', rows) => Some (cur', timeline ++ start_rows ++ rows)
          end
      end) periods
    (Some (map (fun '(t, (ps, _)) => (t, ps)) starting_lineups, [])).

(** [extract_lineup_states] (lines 12-43), returning the final on-court
    sets next to the timeline rows (before the final sort). *)
Definition extract_lineup_states (box_score_df : list BoxRow) (pbp_df : list PlayRow)
  : option (list (string * list Z) * list LineupState) :=
  match extract_starting_lineups box_score_df with
  | None => None
  | Some starting_lineups =>
      build_lineup_timeline starting_lineups (parse_substitutions pbp_df) pbp_df
  end.


(* ------------------------------------------------------------------ *)
(** ** The hybrid court-time tracker ([players/transformers/court_time.py]) *)

Fixpoint lookup_Z {A : Type} (k : Z) (m : list (Z * A)) : option A :=
  match m with
  | [] => None
  | (k', v) :: t => if k =? k' then Some v else lookup_Z k t
  end.

(** Python [d[k] = v]: an existing key keeps its position. *)
Fixpoint update_Z {A : Type} (k : Z) (v : A) (m : list (Z * A)) : list (Z * A) :=
  match m with
  | [] => [(k, v)]
  | (k', v') :: t => if k =? k' then (k, v) :: t else (k', v') :: update_Z k v t
  end.

Definition delete_Z {A : Type} (k : Z) (m : list (Z * A)) : list (Z * A) :=
  filter (fun kv => negb (fst kv =? k)) m.

(** [_get_starting_lineups] (lines 41-50): team id -> set of starters. *)
Definition get_starting_lineups (box_score_df : list BoxRow) : list (Z * list Z) :=
  let starters_df := filter (fun r => b_gs r =? 1) box_score_df in
  map (fun team_id =>
         (team_id, unique_Z (map b_nbaId (filter (fun r => b_nbaTeamId r =? team_id)
                                            starters_df))))
    (unique_Z (map b_nbaTeamId starters_df)).

(** [_get_team_mapping]: [dict(zip(nbaId, nbaTeamId))]. *)
Definition get_team_mapping (box_score_df : list BoxRow) : list (Z * Z) :=
  fold_left (fun m r => update_Z (b_nbaId r) (b_nbaTeamId r) m) box_score_df [].

(** [team_mapping.get(p)] used as a truth value. *)
Definition team_of (team_mapping : list (Z * Z)) (p : Z) : option Z :=
  match lookup_Z p team_mapping with
  | Some t => if t =? 0 then None else Some t
  | None => None
  end.

(** Status-change actions, in the order of their labels' string sort
    (["IN" < "OUT" < "START"]). *)
Inductive Action := IN | OUT | START.

Definition action_rank (a : Action) : Z :=
  match a with IN => 0 | OUT => 1 | START => 2 end.

Record StatusChange := {
  sc_period : Z;
  sc_wallClockInt : Z;
  sc_playerId : Z;
  sc_teamId : Z;
  sc_action : Action
}.

Record Activity := {
  ac_period : Z;
  ac_wallClockInt : Z;
  ac_playerId : Z
}.

(** [_get_player_activities] (lines 66-87). *)
Definition get_player_activities (pbp_df : list PlayRow) : list Activity :=
  stable_sort (fun a b => (ac_period a <? ac_period b) ||
                          ((ac_period a =? ac_period b) &&
                           (ac_wallClockInt a <=? ac_wallClockInt b)))
    (flat_map (fun r =>
       if (1 <=? p_msgType r) && (p_msgType r <=? 7) then
         flat_map (fun o => match o with
                            | Some pid => [{| ac_period := p_period r;
                                              ac_wallClockInt := p_wallClockInt r;
                                              ac_playerId := pid |}]
                            | None => [] end)
           [p_playerId1 r; p_playerId2 r; p_playerId3 r]
       else []) pbp_df).

(** [_get_substitution_events] (lines 58-63). *)
Definition get_substitution_events (pbp_df : list PlayRow) : list PlayRow :=
  stable_sort (fun a b => (p_period a <? p_period b) ||
                          ((p_period a =? p_period b) &&
                           (p_wallClockInt a <=? p_wallClockInt b)))
    (filter (fun r => p_msgType r =? 8) pbp_df).

(** [int(sub['playerId1'])], [int(sub['playerId2'])]: [None] is the
    [ValueError] of a NaN id.  [playerId1] leaves, [playerId2] enters. *)
Definition sub_players (sub : PlayRow) : option (Z * Z) :=
  match p_playerId1 sub, p_playerId2 sub with
  | Some p1, Some p2 => Some (p1, p2)
  | _, _ => None
  end.

Inductive HybridEvent :=
  | EvSubstitution (period wall player_out player_in : Z)
  | EvActivity (period wall player_id : Z).

Definition hybrid_event_key (e : HybridEvent) : Z * Z :=
  match e with EvSubstitution p w _ _ | EvActivity p w _ => (p, w) end.

Inductive PlayerStatus := StIN | StOUT.

(** [_infer_reentries_from_activity] (lines 163-240). *)
Definition infer_reentries_from_activity (activities : list Activity)
    (substitutions : list PlayRow) (team_mapping : list (Z * Z))
  : option (list StatusChange) :=
  let subs :=
    fold_right (fun sub acc =>
        match sub_players sub, acc with
        | Some (po, pi), Some l =>
            Some (EvSubstitution (p_period sub) (p_wallClockInt sub) po pi :: l)
        | _, _ => None
        end) (Some []) substitutions in
  match subs with
  | None => None
  | Some sub_events =>
      let all_events :=
        stable_sort (fun a b => let '(pa, wa) := hybrid_event_key a in
                                let '(pb, wb) := hybrid_event_key b in
                                (pa <? pb) || ((pa =? pb) && (wa <=? wb)))
          (sub_events ++ map (fun a => EvActivity (ac_period a) (ac_wallClockInt a)
                                         (ac_playerId a)) activities) in
      Some (snd (fold_left (fun '(status, inferred) ev =>
          match ev with
          | EvSubstitution _ _ po pi =>
              (update_Z pi StIN (update_Z po StOUT status), inferred)
          | EvActivity p w pid =>
              match lookup_Z pid status with
              | Some StOUT =>
                  match team_of team_mapping pid with
                  | Some tid =>
                      (update_Z pid StIN status,
                       inferred ++ [{| sc_period := p; sc_wallClockInt := w;
                                       sc_playerId := pid; sc_teamId := tid;
                                       sc_action := IN |}])
                  | None => (status, inferred)
                  end
              | _ => (status, inferred)
              end
          end) all_events ([], [])))
  end.


Record PlayerInterval := {
  pi_playerId : Z;
  pi_teamId : Z;
  pi_period_start : Z;
  pi_wallClock_start : Z;
  pi_period_end : Z;
  pi_wallClock_end : Z
}.

Definition max_opt (l : list Z) : option Z :=
  fold_right (fun x acc => match acc with Some m => Some (Z.max x m) | None => Some x end)
    None l.

Definition min_opt (l : list Z) : option Z :=
  fold_right (fun x acc => match acc with Some m => Some (Z.min x m) | None => Some x end)
    None l.

(** [_build_intervals_from_status_changes] (lines 243-291). *)
Definition build_intervals_from_status_changes (status_df : list StatusChange)
    (max_period game_end_wallClock : Z) : list PlayerInterval :=
  let '(entries, intervals) :=
    fold_left (fun '(player_entry_times, intervals) change =>
        let player_id := sc_playerId change in
        match sc_action change with
        | START | IN =>
            (update_Z player_id (sc_period change, sc_wallClockInt change, sc_teamId change)
               player_entry_times, intervals)
        | OUT =>
            match lookup_Z player_id player_entry_times with
            | Some (entry_period, entry_wallClock, team_id) =>
                (delete_Z player_id player_entry_times,
                 intervals ++ [{| pi_playerId := player_id; pi_teamId := team_id;
                                  pi_period_start := entry_period;
                                  pi_wallClock_start := entry_wallClock;
                                  pi_period_end := sc_period change;
                                  pi_wallClock_end := sc_wallClockInt change |}])
            | None => (player_entry_times, intervals)
            end
        end) status_df ([], []) in
  intervals ++
  map (fun '(player_id, (entry_period, entry_wallClock, team_id)) =>
         {| pi_playerId := player_id; pi_teamId := team_id;
            pi_period_start := entry_period; pi_wallClock_start := entry_wallClock;
            pi_period_end := max_period; pi_wallClock_end := game_end_wallClock |})
    entries.

(** The [START] changes of the starters (lines 107-117). *)
Definition starter_changes (starters : list (Z * list Z)) (game_start_wallClock : Z)
  : list StatusChange :=
  flat_map (fun '(team_id, players) =>
      map (fun player_id => {| sc_period := 1; sc_wallClockInt := game_start_wallClock;
                               sc_playerId := player_id; sc_teamId := team_id;
                               sc_action := START |}) players) starters.

(** The explicit substitution changes (lines 119-146). *)
Definition substitution_changes (substitutions : list PlayRow) (team_mapping : list (Z * Z))
  : option (list StatusChange) :=
  fold_right (fun sub acc =>
      match sub_players sub, acc with
      | Some (player_out, player_in), Some l =>
          let mk p a := match team_of team_mapping p with
                        | Some tid => [{| sc_period := p_period sub;
                                          sc_wallClockInt := p_wallClockInt sub;
                                          sc_playerId := p; sc_teamId := tid;
                                          sc_action := a |}]
                        | None => [] end in
          Some (mk player_out OUT ++ mk player_in IN ++ l)
      | _, _ => None
      end) (Some []) substitutions.

Definition status_leb (a b : StatusChange) : bool :=
  (sc_period a <? sc_period b) ||
  ((sc_period a =? sc_period b) &&
   ((sc_wallClockInt a <? sc_wallClockInt b) ||
    ((sc_wallClockInt a =? sc_wallClockInt b) &&
     (action_rank (sc_action a) <=? action_rank (sc_action b))))).

(** [track_lineup_states] with [_build_hybrid_intervals] (lines 11-38,
    90-160).  [None] is a raised exception: a NaN substitution id, or the
    [KeyError] of sorting the empty activity frame by missing columns. *)
Definition track_lineup_states (box_score_df : list BoxRow) (pbp_df : list PlayRow)
  : option (list PlayerInterval) :=
  let starters := get_starting_lineups box_score_df in
  let team_mapping := get_team_mapping box_score_df in
  let activities := get_player_activities pbp_df in
  let substitutions := get_substitution_events pbp_df in
  match activities with
  | [] => None
  | _ =>
      let max_period := match max_opt (map p_period pbp_df) with Some m => m | None => 0 end in
      let game_start_wallClock :=
        match min_opt (map p_wallClockInt (filter (fun r => p_period r =? 1) pbp_df)) with
        | Some m => m | None => 0 end in
      let game_end_wallClock :=
        match max_opt (map p_wallClockInt (filter (fun r => p_period r =? max_period) pbp_df)) with
        | Some m => m | None => 0 end in
      match substitution_changes substitutions team_mapping,
            infer_reentries_from_activity activities substitutions team_mapping with
      | Some sub_changes, Some inferred =>
          let status_df :=
            stable_sort status_leb
              (starter_changes starters game_start_wallClock ++ sub_changes ++ inferred) in
          let status_max_period :=
            match max_opt (map sc_period status_df) with Some m => m | None => 0 end in
          Some (build_intervals_from_status_changes status_df status_max_period
                  game_end_wallClock)
      | _, _ => None
      end
  end.


(* ------------------------------------------------------------------ *)
(** ** Rim defense ([players/transformers/rim_defense.py]) *)

(** One row of the enhanced play-by-play; a NaN team id is [None]. *)
Record RimShotRow := {
  rs_is_rim_shot : bool;
  rs_msgType : Z;
  rs_period : Z;
  rs_wallClockInt : Z;
  rs_offTeamId : option Z;
  rs_defTeamId : option Z
}.

(** [_get_player_team_mapping] (lines 37-43): the last interval wins. *)
Definition get_player_team_mapping (lineup_intervals : list PlayerInterval) : list (Z * Z) :=
  fold_left (fun m iv => update_Z (pi_playerId iv) (pi_teamId iv) m) lineup_intervals [].

(** The per-player counters of [player_stats]. *)
Record RimCounters := {
  on_makes : Z;
  on_attempts : Z;
  off_makes : Z;
  off_attempts : Z;
  rc_teamId : Z
}.

(** The counters of a player first seen (lines 90-95). *)
Definition new_counters (defensive_team : Z) : RimCounters :=
  {| on_makes := 0; on_attempts := 0; off_makes := 0; off_attempts := 0;
     rc_teamId := defensive_team |}.

(** The increments of lines 98-107. *)
Definition bump_counters (shot_made on_court : bool) (st : RimCounters) : RimCounters :=
  let mk := if shot_made then 1 else 0 in
  if on_court
  then {| on_makes := on_makes st + mk; on_attempts := on_attempts st + 1;
          off_makes := off_makes st; off_attempts := off_attempts st;
          rc_teamId := rc_teamId st |}
  else {| on_makes := on_makes st; on_attempts := on_attempts st;
          off_makes := off_makes st + mk; off_attempts := off_attempts st + 1;
          rc_teamId := rc_teamId st |}.

(** The body of the inner loop (lines 88-107) for one defending player. *)
Definition count_rim_shot (shot_made on_court : bool) (defensive_team : Z)
    (player_stats : list (Z * RimCounters)) (player_id : Z) : list (Z * RimCounters) :=
  let st := match lookup_Z player_id player_stats with
            | Some st => st
            | None => new_counters defensive_team
            end in
  update_Z player_id (bump_counters shot_made on_court st) player_stats.

(** One iteration of the shot loop (lines 56-107). *)
Definition rim_shot_step (lineup_intervals : list PlayerInterval)
    (player_teams : list (Z * Z)) (player_stats : list (Z * RimCounters))
    (shot : RimShotRow) : list (Z * RimCounters) :=
  match rs_offTeamId shot, rs_defTeamId shot with
  | Some _, Some defensive_team =>
      let shot_made := rs_msgType shot =? 1 in
      let players_on_court :=
        filter (fun iv => (pi_period_start iv <=? rs_period shot)
                          && (rs_period shot <=? pi_period_end iv)
                          && (pi_wallClock_start iv <=? rs_wallClockInt shot)
                          && (rs_wallClockInt shot <=? pi_wallClock_end iv))
          lineup_intervals in
      let defending_players :=
        map pi_playerId (filter (fun iv => pi_teamId iv =? defensive_team) players_on_court) in
      let defensive_team_players :=
        map fst (filter (fun pt => snd pt =? defensive_team) player_teams) in
      fold_left (fun st pid => count_rim_shot shot_made (memZ pid defending_players)
                                 defensive_team st pid)
        defensive_team_players player_stats
  | _, _ => player_stats
  end.

(** One output row; a null percentage is [None]. *)
Record RimRow := {
  rr_playerId : Z;
  rr_teamId : Z;
  rim_fgm_on : Z;
  rim_fga_on : Z;
  rim_fgm_off : Z;
  rim_fga_off : Z;
  rim_fg_pct_on : option Q;
  rim_fg_pct_off : option Q;
  rim_fg_pct_diff : option Q
}.

(** [makes / attempts.replace(0, 1)]. *)
Definition raw_pct (makes attempts : Z) : Q :=
  (inject_Z makes / inject_Z (if attempts =? 0 then 1 else attempts))%Q.

(** Lines 110-130: the differential is taken from the raw quotients before
    the percentages are nulled. *)
Definition rim_row (player_id : Z) (st : RimCounters) : RimRow :=
  let pct_on := raw_pct (on_makes st) (on_attempts st) in
  let pct_off := raw_pct (off_makes st) (off_attempts st) in
  {| rr_playerId := player_id; rr_teamId := rc_teamId st;
     rim_fgm_on := on_makes st; rim_fga_on := on_attempts st;
     rim_fgm_off := off_makes st; rim_fga_off := off_attempts st;
     rim_fg_pct_on := if 0 <? on_attempts st then Some pct_on else None;
     rim_fg_pct_off := if 0 <? off_attempts st then Some pct_off else None;
     rim_fg_pct_diff := Some (pct_on - pct_off)%Q |}.

(** [_calculate_rim_defense_stats] (lines 46-134); [None] is the [KeyError]
    of selecting a column of the empty result frame. *)
Definition calculate_rim_defense_stats (rim_shots : list RimShotRow)
    (lineup_intervals : list PlayerInterval) (player_teams : list (Z * Z))
  : option (list RimRow) :=
  match fold_left (rim_shot_step lineup_intervals player_teams) rim_shots [] with
  | [] => None
  | player_stats => Some (map (fun '(pid, st) => rim_row pid st) player_stats)
  end.

(** [track_rim_defense] (lines 11-34). *)
Definition track_rim_defense (enhanced_pbp_df : list RimShotRow)
    (lineup_intervals : list PlayerInterval) : option (list RimRow) :=
  calculate_rim_defense_stats (filter rs_is_rim_shot enhanced_pbp_df) lineup_intervals
    (get_player_team_mapping lineup_intervals).


(** The rim shots with both teams known that are taken against team [t],
    and those of them that are made. *)
Definition rim_against (t : Z) (s : RimShotRow) : bool :=
  match rs_offTeamId s, rs_defTeamId s with
  | Some _, Some d => d =? t
  | _, _ => false
  end.

Definition shots_against (t : Z) (shots : list RimShotRow) : Z :=
  Z.of_nat (List.length (filter (rim_against t) shots)).

Definition makes_against (t : Z) (shots : list RimShotRow) : Z :=
  Z.of_nat (List.length (filter (fun s => rim_against t s && (rs_msgType s =? 1)) shots)).

(** The invariant of the shot loop after the shots [done]. *)
Definition rim_inv (pt : list (Z * Z)) (done : list RimShotRow)
    (st : list (Z * RimCounters)) : Prop :=
  NoDup (map fst st) /\
  (forall p c, lookup_Z p st = Some c ->
     lookup_Z p pt = Some (rc_teamId c) /\
     on_attempts c + off_attempts c = shots_against (rc_teamId c) done /\
     on_makes c + off_makes c = makes_against (rc_teamId c) done) /\
  (forall p t, lookup_Z p pt = Some t -> 0 < shots_against t done -> lookup_Z p st <> None).

(* ------------------------------------------------------------------ *)
(** ** Lineup ratings ([lineups/transformers/lineup_ratings.py]) *)

(** One row of the possession-lineup table. *)
Record LineupPossRow := {
  lp_possession_id : Z;
  lp_points_scored : Z;
  lp_off_team : string;
  lp_def_team : string;
  lp_off_players : list Z;
  lp_def_players : list Z
}.

(** A unit: the team and the sorted tuple of its five players. *)
Definition LineupKey : Type := (string * list Z)%type.

Definition off_key (row : LineupPossRow) : LineupKey :=
  (lp_off_team row, stable_sort Z.leb (lp_off_players row)).

Definition def_key (row : LineupPossRow) : LineupKey :=
  (lp_def_team row, stable_sort Z.leb (lp_def_players row)).

Fixpoint zlist_eqb (a b : list Z) : bool :=
  match a, b with
  | [], [] => true
  | x :: a', y :: b' => (x =? y) && zlist_eqb a' b'
  | _, _ => false
  end.

Definition key_eqb (a b : LineupKey) : bool :=
  String.eqb (fst a) (fst b) && zlist_eqb (snd a) (snd b).

Fixpoint zlist_lex_leb (a b : list Z) : bool :=
  match a, b with
  | [], _ => true
  | _ :: _, [] => false
  | x :: a', y :: b' => (x <? y) || ((x =? y) && zlist_lex_leb a' b')
  end.

(** The order in which pandas lists group keys. *)
Definition key_leb (a b : LineupKey) : bool :=
  match String.compare (fst a) (fst b) with
  | Lt => true
  | Gt => false
  | Eq => zlist_lex_leb (snd a) (snd b)
  end.

Fixpoint unique_key (l : list LineupKey) : list LineupKey :=
  match l with
  | [] => []
  | x :: t => x :: filter (fun y => negb (key_eqb y x)) (unique_key t)
  end.

Fixpoint lookup_key {A : Type} (k : LineupKey) (m : list (LineupKey * A)) : option A :=
  match m with
  | [] => None
  | (k', v) :: t => if key_eqb k k' then Some v else lookup_key k t
  end.

Definition sum_points (rows : list LineupPossRow) : Z :=
  fold_right (fun r acc => lp_points_scored r + acc) 0 rows.

(** [groupby([team, lineup_players]).agg(count, sum)]: one entry per key,
    keys in sorted order, with the row count and the points sum. *)
Definition group_stats (keyf : LineupPossRow -> LineupKey) (rows : list LineupPossRow)
  : list (LineupKey * (Z * Z)) :=
  map (fun k => let grp := filter (fun r => key_eqb (keyf r) k) rows in
                (k, (Z.of_nat (List.length grp), sum_points grp)))
    (stable_sort key_leb (unique_key (map keyf rows))).

(** [calculate_offensive_stats] (lines 54-74). *)
Definition calculate_offensive_stats (rows : list LineupPossRow) :=
  group_stats off_key rows.

(** [calculate_defensive_stats] (lines 77-97). *)
Definition calculate_defensive_stats (rows : list LineupPossRow) :=
  group_stats def_key rows.

Record CombinedRow := {
  cb_key : LineupKey;
  off_poss : Z;
  off_points : Z;
  def_poss : Z;
  def_points_allowed : Z
}.

(** [combine_offensive_defensive_stats] (lines 100-116): outer merge on
    the key, a missing side filled with 0. *)
Definition combine_offensive_defensive_stats (off_stats def_stats : list (LineupKey * (Z * Z)))
  : list CombinedRow :=
  map (fun k =>
         let '(op, opts) := match lookup_key k off_stats with Some v => v | None => (0, 0) end in
         let '(dp, dpts) := match lookup_key k def_stats with Some v => v | None => (0, 0) end in
         {| cb_key := k; off_poss := op; off_points := opts;
            def_poss := dp; def_points_allowed := dpts |})
    (stable_sort key_leb (unique_key (map fst off_stats ++ map fst def_stats))).

Record RatingRow := {
  rt_team : string;
  rt_players : list Z;
  rt_off_poss : Z;
  rt_def_poss : Z;
  off_rating : Q;
  def_rating : Q;
  net_rating : Q
}.

(** [np.where(poss > 0, points / poss * 100, 0)], before rounding. *)
Definition raw_rating (points poss : Z) : Q :=
  if 0 <? poss then (inject_Z points / inject_Z poss * inject_Z 100)%Q else 0%Q.

(** [clean_final_output]'s order: team ascending, [off_poss] and
    [net_rating] descending. *)
Definition clean_leb (a b : RatingRow) : bool :=
  match String.compare (rt_team a) (rt_team b) with
  | Lt => true
  | Gt => false
  | Eq => (rt_off_poss b <? rt_off_poss a) ||
          ((rt_off_poss a =? rt_off_poss b) && Qle_bool (net_rating b) (net_rating a))
  end.

Section Ratings.

(** [Series.round(1)]. *)
Variable round1 : Q -> Q.

(** [calculate_final_ratings] (lines 119-146): the net rating is the
  rounded difference of the unrounded ratings. *)
Definition calculate_final_ratings (c : CombinedRow) : RatingRow :=
let off := raw_rating (off_points c) (off_poss c) in
let def := raw_rating (def_points_allowed c) (def_poss c) in
{| rt_team := fst (cb_key c); rt_players := snd (cb_key c);
   rt_off_poss := off_poss c; rt_def_poss := def_poss c;
   off_rating := round1 off; def_rating := round1 def;
   net_rating := round1 (off - def)%Q |}.

(** [calculate_lineup_ratings] (lines 12-51) with [clean_final_output]. *)
Definition calculate_lineup_ratings (lineup_possessions_df : list LineupPossRow)
: list RatingRow :=
match lineup_possessions_df with
| [] => []
| _ =>
    stable_sort clean_leb
      (map calculate_final_ratings
         (combine_offensive_defensive_stats
            (calculate_offensive_stats lineup_possessions_df)
            (calculate_defensive_stats lineup_possessions_df)))
end.

End Ratings.

(** The units a table shows on offense or on defense, and the count and
    points of a unit on one side. *)
Definition observed_units (rows : list LineupPossRow) : list LineupKey :=
  map off_key rows ++ map def_key rows.

Definition side_count (keyf : LineupPossRow -> LineupKey) (rows : list LineupPossRow)
    (k : LineupKey) : Z :=
  Z.of_nat (List.length (filter (fun r => key_eqb (keyf r) k) rows)).

Definition side_points (keyf : LineupPossRow -> LineupKey) (rows : list LineupPossRow)
    (k : LineupKey) : Z :=
  sum_points (filter (fun r => key_eqb (keyf r) k) rows).

Definition rating_key (r : RatingRow) : LineupKey := (rt_team r, rt_players r).

(* ------------------------------------------------------------------ *)
(** ** The possession-lineup join ([lineups/transformers/lineup_possessions.py]) *)

(** One output row of [match_lineups_to_possessions].  The two lineup-id
    columns (the text built by [_generate_lineup_id] from the team and the
    players) are not modelled: no function downstream reads them. *)
Record LineupPossession := {
  lpo_possession_id : Z;
  lpo_period : Z;
  lpo_start_time_seconds : Z;
  lpo_end_time_seconds : Z;
  lpo_duration_seconds : Z;
  lpo_points_scored : Z;
  lpo_end_type : EndType;
  lpo_off_team_id : Z;
  lpo_def_team_id : Z;
  lpo_off_team : string;
  lpo_def_team : string;
  lpo_off_players : list Z;   (* off_player_1 .. off_player_5 *)
  lpo_def_players : list Z    (* def_player_1 .. def_player_5 *)
}.

(** [create_possession_record] (lines 89-125). *)
Definition create_possession_record (possession : Possession)
    (off_lineup def_lineup : LineupState) : LineupPossession :=
  {| lpo_possession_id := possession_id possession;
     lpo_period := po_period possession;
     lpo_start_time_seconds := start_time_seconds possession;
     lpo_end_time_seconds := end_time_seconds possession;
     lpo_duration_seconds := duration_seconds possession;
     lpo_points_scored := points_scored possession;
     lpo_end_type := end_type possession;
     lpo_off_team_id := off_team possession;
     lpo_def_team_id := def_team possession;
     lpo_off_team := ls_team off_lineup;
     lpo_def_team := ls_team def_lineup;
     lpo_off_players := ls_players off_lineup;
     lpo_def_players := ls_players def_lineup |}.

(** [clean_output_data] (lines 128-162): the numeric conversions leave
    integer columns as they are; the rows are sorted by [possession_id]
    (the ids are distinct in the possessions table, so the order does not
    depend on the sorting algorithm). *)
Definition clean_output_data (df : list LineupPossession) : list LineupPossession :=
  stable_sort (fun a b => lpo_possession_id a <=? lpo_possession_id b) df.

(** [match_lineups_to_possessions] (lines 11-59); the empty outputs are
    [_create_empty_output]. *)
Definition match_lineups_to_possessions (lineup_states_df : list LineupState)
    (possessions_df : list Possession) : list LineupPossession :=
  match possessions_df, lineup_states_df with
  | [], _ => []
  | _, [] => []
  | _, _ =>
      let results :=
        flat_map (fun poss =>
            match find_lineup_at_time lineup_states_df (po_period poss)
                    (start_time_seconds poss) (off_team poss),
                  find_lineup_at_time lineup_states_df (po_period poss)
                    (start_time_seconds poss) (def_team poss) with
            | Some off_lineup, Some def_lineup =>
                [create_possession_record poss off_lineup def_lineup]
            | _, _ => []
            end) possessions_df in
      match results with
      | [] => []
      | _ => clean_output_data results
      end
  end.

(** The columns of a joined row that [calculate_lineup_ratings] reads. *)
Definition ratings_columns (r : LineupPossession) : LineupPossRow :=
  {| lp_possession_id := lpo_possession_id r;
     lp_points_scored := lpo_points_scored r;
     lp_off_team := lpo_off_team r;
     lp_def_team := lpo_def_team r;
     lp_off_players := lpo_off_players r;
     lp_def_players := lpo_def_players r |}.

(** Whether the lineup-states table has a row of [team_id] in [period]. *)
Definition has_lineup (lineup_states_df : list LineupState) (period team_id : Z) : bool :=
  existsb (fun r => (ls_team_id r =? team_id) && (ls_period r =? period)) lineup_states_df.

(** ** Summaries of the ratings table ([lineup_ratings.py], lines 194-227) *)

Definition str_leb (a b : string) : bool :=
  match String.compare a b with Gt => false | _ => true end.

Definition Qmax_bool (a b : Q) : Q := if Qle_bool a b then b else a.
Definition Qmin_bool (a b : Q) : Q := if Qle_bool a b then a else b.

(** [Series.mean()] *)
Definition series_mean (l : list Q) : Q :=
  (fold_right Qplus 0 l / inject_Z (Z.of_nat (List.length l)))%Q.

Record LineupSummary := {
  total_lineups : Z;
  summary_teams : list string;
  avg_off_rating : Q;
  avg_def_rating : Q;
  best_net_rating : Q;
  worst_net_rating : Q;
  total_possessions : Z;
  lineups_with_both_stats : Z
}.

(** [get_lineup_summary] (lines 194-211); [None] is the empty dict. *)
Definition get_lineup_summary (ratings_df : list RatingRow) : option LineupSummary :=
  match ratings_df with
  | [] => None
  | r0 :: rest =>
      Some {| total_lineups := Z.of_nat (List.length ratings_df);
              summary_teams := stable_sort str_leb (unique_str (map rt_team ratings_df));
              avg_off_rating := series_mean (map off_rating ratings_df);
              avg_def_rating := series_mean (map def_rating ratings_df);
              best_net_rating := fold_left Qmax_bool (map net_rating rest) (net_rating r0);
              worst_net_rating := fold_left Qmin_bool (map net_rating rest) (net_rating r0);
              total_possessions := fold_right Z.add 0 (map rt_off_poss ratings_df);
              lineups_with_both_stats :=
                Z.of_nat (List.length (filter (fun r => (0 <? rt_off_poss r) &&
                                                        (0 <? rt_def_poss r)) ratings_df)) |}
  end.

(** [filter_lineups] (lines 214-227). *)
Definition filter_lineups (ratings_df : list RatingRow) (min_possessions : Z) : list RatingRow :=
  match ratings_df with
  | [] => ratings_df
  | _ => filter (fun r => (min_possessions <=? rt_off_poss r) ||
                          (min_possessions <=? rt_def_poss r)) ratings_df
  end.


(* ------------------------------------------------------------------ *)
(** ** Possessions: the ending fields a possession row carries *)

Definition ending_key (en : Ending) : EndType * Z * nat :=
  (en_end_type en, en_end_time_seconds en, en_pbp_idx en).

Definition possession_end_key (p : Possession) : EndType * Z * nat :=
  (end_type p, end_time_seconds p, pbp_end_idx p).

(* ------------------------------------------------------------------ *)
(** ** Players pipeline: possessions per player
       (players/transformers/possessions.py) *)

(** One play-by-play row as [_identify_possessions] reads it.  The columns
    it copies into the possession's event list without reading them
    ([actionType], [playerId1], [playerId2]) are not modelled;
    [pe_flagrant] is the test ['FLAGRANT' in str(event.get('description',
    '')).upper()] of line 130. *)
Record PossEvent := {
  pe_period : Z;
  pe_wallClockInt : Z;
  pe_msgType : Z;
  pe_offTeamId : option Z;
  pe_defTeamId : option Z;
  pe_flagrant : bool
}.

(** The open [current_possession] dict (lines 68-75). *)
Record OpenPossession := {
  op_possession_id : Z;
  op_start_period : Z;
  op_start_wallClock : Z;
  op_offensive_team : option Z;
  op_defensive_team : option Z;
  op_events : list PossEvent
}.

(** A closed possession (lines 136-139 and 147-150). *)
Record PlayerPossession := {
  pp_possession_id : Z;
  pp_start_period : Z;
  pp_start_wallClock : Z;
  pp_offensive_team : option Z;
  pp_defensive_team : option Z;
  pp_events : list PossEvent;
  pp_end_period : Z;
  pp_end_wallClock : Z;
  pp_end_reason : string;
  pp_event_count : Z
}.

Definition open_possession (possession_id : Z) (event : PossEvent) : OpenPossession :=
  {| op_possession_id := possession_id; op_start_period := pe_period event;
     op_start_wallClock := pe_wallClockInt event;
     op_offensive_team := pe_offTeamId event; op_defensive_team := pe_defTeamId event;
     op_events := [] |}.

(** [current_possession['events'].append(...)] (line 78). *)
Definition add_event (c : OpenPossession) (event : PossEvent) : OpenPossession :=
  {| op_possession_id := op_possession_id c; op_start_period := op_start_period c;
     op_start_wallClock := op_start_wallClock c;
     op_offensive_team := op_offensive_team c; op_defensive_team := op_defensive_team c;
     op_events := op_events c ++ [event] |}.

Definition close_possession (c : OpenPossession) (event : PossEvent) (end_reason : string)
  : PlayerPossession :=
  {| pp_possession_id := op_possession_id c; pp_start_period := op_start_period c;
     pp_start_wallClock := op_start_wallClock c;
     pp_offensive_team := op_offensive_team c; pp_defensive_team := op_defensive_team c;
     pp_events := op_events c;
     pp_end_period := pe_period event; pp_end_wallClock := pe_wallClockInt event;
     pp_end_reason := end_reason;
     pp_event_count := Z.of_nat (List.length (op_events c)) |}.

(** Lines 89-132: [None] when the event does not end the possession.  The
    look-ahead after a made shot never sets [next_is_oreb], so a made shot
    always ends it. *)
Definition possession_end_reason (event : PossEvent) (next_event : option PossEvent)
  : option string :=
  let m := pe_msgType event in
  if m =? 1 then Some "made_shot"%string
  else if m =? 2 then
    match next_event with
    | Some n => if pe_msgType n =? 4 then Some "defensive_rebound"%string else None
    | None => None
    end
  else if m =? 5 then Some "turnover"%string
  else if m =? 13 then Some "end_period"%string
  else if m =? 6 then (if pe_flagrant event then Some "foul"%string else None)
  else None.

(** The loop of lines 64-142 over the sorted rows. *)
Fixpoint identify_possessions_from (rows : list PossEvent)
    (possessions : list PlayerPossession) (current_possession : option OpenPossession)
  : list PlayerPossession * option OpenPossession :=
  match rows with
  | [] => (possessions, current_possession)
  | event :: t =>
      let cur := match current_possession with
                 | Some c => c
                 | None => open_possession (Z.of_nat (List.length possessions) + 1) event
                 end in
      let cur := add_event cur event in
      match possession_end_reason event (hd_error t) with
      | Some end_reason =>
          identify_possessions_from t (possessions ++ [close_possession cur event end_reason])
            None
      | None => identify_possessions_from t possessions (Some cur)
      end
  end.

(** [pbp_df.sort_values(['period', 'wallClockInt'])] (a stable lexsort). *)
Definition sort_by_period_wallClock (pbp_df : list PossEvent) : list PossEvent :=
  stable_sort (fun a b => (pe_period a <? pe_period b) ||
                          ((pe_period a =? pe_period b) &&
                           (pe_wallClockInt a <=? pe_wallClockInt b))) pbp_df.

(** [_identify_possessions] (lines 43-155). *)
Definition identify_possessions (pbp_df : list PossEvent) : list PlayerPossession :=
  let pbp_sorted := sort_by_period_wallClock pbp_df in
  let '(possessions, current_possession) := identify_possessions_from pbp_sorted [] None in
  match current_possession with
  | Some c =>
      match last_opt pbp_sorted with
      | Some final_event => possessions ++ [close_possession c final_event "game_end"]
      | None => possessions
      end
  | None => possessions
  end.

(** One output row of [_count_player_possessions]. *)
Record PlayerPossCount := {
  pc_playerId : Z;
  pc_offensive_possessions : Z;
  pc_defensive_possessions : Z;
  pc_total_possessions : Z
}.

(** The intervals on court at the possession's [start_period] and at the
    midpoint [(start_wallClock + end_wallClock) / 2] (lines 176-185). *)
Definition players_on_court (possession : PlayerPossession)
    (lineup_intervals : list PlayerInterval) : list PlayerInterval :=
  let mid_period := pp_start_period possession in
  let mid_wallClock :=
    (inject_Z (pp_start_wallClock possession + pp_end_wallClock possession) / 2)%Q in
  filter (fun iv => (pi_period_start iv <=? mid_period) &&
                    (mid_period <=? pi_period_end iv) &&
                    Qle_bool (inject_Z (pi_wallClock_start iv)) mid_wallClock &&
                    Qle_bool mid_wallClock (inject_Z (pi_wallClock_end iv)))
    lineup_intervals.

(** The inner loop of lines 188-200 on the dict [player_possession_counts]
    (player id -> (offensive, defensive)). *)
Definition count_interval (offensive_team defensive_team : Z)
    (player_possession_counts : list (Z * (Z * Z))) (player_interval : PlayerInterval)
  : list (Z * (Z * Z)) :=
  let player_id := pi_playerId player_interval in
  let player_team := pi_teamId player_interval in
  let counts := match lookup_Z player_id player_possession_counts with
                | Some _ => player_possession_counts
                | None => update_Z player_id (0, 0) player_possession_counts
                end in
  let '(o, d) := match lookup_Z player_id counts with Some c => c | None => (0, 0) end in
  if player_team =? offensive_team then update_Z player_id (o + 1, d) counts
  else if player_team =? defensive_team then update_Z player_id (o, d + 1) counts
  else counts.

(** The outer loop of lines 167-200. *)
Definition count_possession (lineup_intervals : list PlayerInterval)
    (player_possession_counts : list (Z * (Z * Z))) (possession : PlayerPossession)
  : list (Z * (Z * Z)) :=
  match pp_offensive_team possession, pp_defensive_team possession with
  | Some offensive_team, Some defensive_team =>
      fold_left (count_interval offensive_team defensive_team)
        (players_on_court possession lineup_intervals) player_possession_counts
  | _, _ => player_possession_counts
  end.

(** [_count_player_possessions] (lines 158-216); [team_mapping] is not read. *)
Definition count_player_possessions (possessions_df : list PlayerPossession)
    (lineup_intervals : list PlayerInterval) (team_mapping : list (Z * Z))
  : list PlayerPossCount :=
  map (fun '(player_id, (o, d)) =>
         {| pc_playerId := player_id; pc_offensive_possessions := o;
            pc_defensive_possessions := d; pc_total_possessions := o + d |})
    (fold_left (count_possession lineup_intervals) possessions_df []).

(** [analyze_possessions] (lines 12-35); its [_get_team_mapping] is the
    same [dict(zip(nbaId, nbaTeamId))] as in court_time.py. *)
Definition analyze_possessions (box_score_df : list BoxRow) (pbp_df : list PossEvent)
    (lineup_intervals : list PlayerInterval) : list PlayerPossCount :=
  let team_mapping := get_team_mapping box_score_df in
  let possessions := identify_possessions pbp_df in
  count_player_possessions possessions lineup_intervals team_mapping.

(** The shape of a closed possession: its event count is the length of its
    event list, its start fields are those of its first event and its end
    fields those of its last event. *)
Definition closed_possession_ok (p : PlayerPossession) : Prop :=
  pp_event_count p = Z.of_nat (List.length (pp_events p)) /\
  exists first last,
    hd_error (pp_events p) = Some first /\ last_opt (pp_events p) = Some last /\
    pp_start_period p = pe_period first /\ pp_start_wallClock p = pe_wallClockInt first /\
    pp_offensive_team p = pe_offTeamId first /\ pp_defensive_team p = pe_defTeamId first /\
    pp_end_period p = pe_period last /\ pp_end_wallClock p = pe_wallClockInt last.

(** The (offensive team, defensive team, interval) triples that the loops
    of lines 167-200 visit, in visiting order: the intervals on court
    during each possession whose two team ids are known. *)
Definition on_court_pairs (possessions_df : list PlayerPossession)
    (lineup_intervals : list PlayerInterval) : list (Z * Z * PlayerInterval) :=
  flat_map (fun possession =>
      match pp_offensive_team possession, pp_defensive_team possession with
      | Some offensive_team, Some defensive_team =>
          map (fun iv => (offensive_team, defensive_team, iv))
            (players_on_court possession lineup_intervals)
      | _, _ => []
      end) possessions_df.

(* ------------------------------------------------------------------ *)
(** ** Concrete inputs *)

Definition pbp_row (period clock order msg : Z) (player team : option Z) (pts : Z)
  : PbpRow :=
  {| r_period := period; r_gameClock := clock; r_pbpOrder := order; r_msgType := msg;
     r_playerId1 := player; r_offTeamId := team; r_pts := pts |}.

(** A jump ball, a foul, then a made shot by player 101 and a free throw
    by the same player at the same clock (11:40, i.e. 700 s), the free
    throw being the last event of the stream. *)
Definition and_one_at_end_pbp : list PbpRow :=
  [ pbp_row 1 720 1 10 (Some 101) (Some 10) 0;
    pbp_row 1 710 2 6 (Some 201) (Some 20) 0;
    pbp_row 1 700 3 1 (Some 101) (Some 10) 2;
    pbp_row 1 700 4 3 (Some 101) (Some 10) 1 ].

(** The same stream followed by an end-of-period event. *)
Definition and_one_mid_pbp : list PbpRow :=
  and_one_at_end_pbp ++ [pbp_row 1 0 5 12 None None 0].

(** Two periods with a turnover, a missed shot and a rebound. *)
Definition two_period_pbp : list PbpRow :=
  [ pbp_row 1 720 1 10 (Some 101) (Some 10) 0;
    pbp_row 1 700 2 1 (Some 101) (Some 10) 2;
    pbp_row 1 690 3 5 (Some 201) (Some 20) 0;
    pbp_row 1 680 4 2 (Some 102) (Some 10) 0;
    pbp_row 1 675 5 4 (Some 202) (Some 20) 0;
    pbp_row 1 0 6 12 None None 0;
    pbp_row 2 720 7 1 (Some 203) (Some 20) 3;
    pbp_row 2 0 8 13 None None 0 ].


Definition box_row (pid team_id : Z) (team : string) (starter : bool) : BoxRow :=
  {| b_nbaId := pid; b_nbaTeamId := team_id; b_team := team;
     b_startPos := if starter then Some "G"%string else None;
     b_gs := if starter then 1 else 0 |}.

Definition HOU_id : Z := 1610612745.
Definition DAL_id : Z := 1610612742.

(** Five starters per team and one bench player for [HOU]. *)
Definition box_five : list BoxRow :=
  map (fun p => box_row p HOU_id "HOU" true) [101; 102; 103; 104; 105] ++
  [box_row 106 HOU_id "HOU" false] ++
  map (fun p => box_row p DAL_id "DAL" true) [201; 202; 203; 204; 205].

(** [HOU] marks only three starters. *)
Definition box_three : list BoxRow :=
  map (fun p => box_row p HOU_id "HOU" true) [101; 102; 103] ++
  map (fun p => box_row p HOU_id "HOU" false) [104; 105; 106] ++
  map (fun p => box_row p DAL_id "DAL" true) [201; 202; 203; 204; 205].

Definition play_row (period clock wall msg : Z) (team : string) (p1 p2 : option Z)
  : PlayRow :=
  {| p_period := period; p_gameClock := clock; p_wallClockInt := wall;
     p_msgType := msg; p_team := team; p_playerId1 := p1; p_playerId2 := p2;
     p_playerId3 := None |}.

(** A made shot, then a substitution with [playerId1 = 106] (the bench
    player) and [playerId2 = 105] (a starter), then another made shot. *)
Definition sub_pbp : list PlayRow :=
  [play_row 1 720 1000 1 "HOU" (Some 101) None;
   play_row 1 600 1100 8 "HOU" (Some 106) (Some 105);
   play_row 1 500 1200 1 "HOU" (Some 101) None].

(** Players of a team whose interval contains the wall-clock instant. *)
Definition on_court_at (intervals : list PlayerInterval) (team_id wall : Z) : list Z :=
  stable_sort Z.leb
    (map pi_playerId
       (filter (fun i => (pi_teamId i =? team_id) && (pi_wallClock_start i <=? wall)
                         && (wall <=? pi_wallClock_end i)) intervals)).


(** Two lineup states of team 1 in period 1, at 12:00 and 10:00. *)
Definition c2_lineups : list LineupState :=
  [ {| ls_period := 1; ls_game_clock_seconds := 720; ls_team := "HOU";
       ls_team_id := 1; ls_players := [101; 102; 103; 104; 105] |};
    {| ls_period := 1; ls_game_clock_seconds := 600; ls_team := "HOU";
       ls_team_id := 1; ls_players := [101; 102; 103; 104; 106] |} ].

(** One made rim shot by team 10 against team 20, while player 201 of team
    20 is on court. *)
Definition rim_pbp : list RimShotRow :=
  [ {| rs_is_rim_shot := true; rs_msgType := 1; rs_period := 1;
       rs_wallClockInt := 1000; rs_offTeamId := Some 10; rs_defTeamId := Some 20 |} ].

Definition rim_intervals : list PlayerInterval :=
  [ {| pi_playerId := 201; pi_teamId := 20; pi_period_start := 1;
       pi_wallClock_start := 0; pi_period_end := 1; pi_wallClock_end := 2000 |} ].

(** The same, with a second player of team 20 whose only interval ended
    before the shot. *)
Definition rim_intervals_two : list PlayerInterval :=
  rim_intervals ++
  [ {| pi_playerId := 202; pi_teamId := 20; pi_period_start := 1;
       pi_wallClock_start := 0; pi_period_end := 1; pi_wallClock_end := 500 |} ].

Definition ls_row (period clock : Z) (team : string) (team_id : Z) (players : list Z)
  : LineupState :=
  {| ls_period := period; ls_game_clock_seconds := clock; ls_team := team;
     ls_team_id := team_id; ls_players := players |}.

(** Lineup rows of teams 10 ([HOU]) and 20 ([DAL]) for the two periods of
    [two_period_pbp], with one [HOU] substitution at 11:30 of period 1. *)
Definition join_lineups : list LineupState :=
  [ ls_row 1 720 "HOU" 10 [101; 102; 103; 104; 105];
    ls_row 1 690 "HOU" 10 [101; 102; 103; 104; 106];
    ls_row 1 720 "DAL" 20 [201; 202; 203; 204; 205];
    ls_row 2 720 "HOU" 10 [101; 102; 103; 104; 106];
    ls_row 2 720 "DAL" 20 [201; 202; 203; 204; 205] ].


(** The possessions of [two_period_pbp]. *)
Definition join_possessions : list Possession :=
  match extract_possessions two_period_pbp with Some ps => ps | None => [] end.

(** The rows that [process_game_data] hands to [calculate_lineup_ratings]
    for [join_lineups] and [join_possessions]. *)
Definition join_rows : list LineupPossRow :=
  map ratings_columns (match_lineups_to_possessions join_lineups join_possessions).

(** [sub_pbp] followed by a made shot of player 106, whom the players
    pipeline reads as substituted out. *)
Definition reentry_pbp : list PlayRow :=
  sub_pbp ++ [play_row 1 400 1300 1 "HOU" (Some 106) None].

(** A placeholder event, used where a lookup on a concrete stream is known
    to succeed. *)
Definition pbp_event_default : Event :=
  {| ev_period := 0; ev_game_clock_seconds := 0; ev_time_elapsed := 0;
     ev_pbpOrder := 0; ev_msgType := 0; ev_playerId1 := None;
     ev_offTeamId_clean := None; ev_pts := 0 |}.

(* ================================================================== *)
(** * Theorems *)

(** ** Sorting lemmas *)

Section SortFacts.
Context {A : Type} (leb : A -> A -> bool).

Lemma In_insert_after (x y : A) (l : list A) :
  In y (insert_after leb x l) <-> x = y \/ In y l.
Proof.
  induction l as [|z t IH]; simpl.
  - tauto.
  - destruct (leb z x); simpl; rewrite ?IH; tauto.
Qed.

Lemma In_fold_insert (l acc : list A) (y : A) :
  In y (fold_left (fun acc x => insert_after leb x acc) l acc) <->
  In y acc \/ In y l.
Proof.
  revert acc; induction l as [|x t IH]; intros acc; simpl.
  - tauto.
  - rewrite IH, In_insert_after; tauto.
Qed.

Lemma In_stable_sort (l : list A) (y : A) :
  In y (stable_sort leb l) <-> In y l.
Proof. unfold stable_sort; rewrite In_fold_insert; simpl; tauto. Qed.

Hypothesis leb_total : forall a b, leb a b = false -> leb b a = true.

Lemma insert_after_sorted (x : A) (l : list A) :
  Sorted (fun a b => leb a b = true) l ->
  Sorted (fun a b => leb a b = true) (insert_after leb x l).
Proof.
  induction 1 as [|y t Hs IH Hhd]; simpl.
  - constructor; constructor.
  - destruct (leb y x) eqn:Eyx.
    + constructor; [exact IH|].
      destruct t as [|z t']; simpl.
      * constructor; exact Eyx.
      * inversion Hhd; subst.
        destruct (leb z x); constructor; assumption.
    + constructor; [constructor; assumption|].
      constructor; apply leb_total; exact Eyx.
Qed.

Lemma stable_sort_sorted (l : list A) :
  Sorted (fun a b => leb a b = true) (stable_sort leb l).
Proof.
  unfold stable_sort.
  assert (H : forall acc, Sorted (fun a b => leb a b = true) acc ->
    Sorted (fun a b => leb a b = true)
      (fold_left (fun acc x => insert_after leb x acc) l acc)).
  { induction l as [|x t IH]; intros acc Hacc; simpl; auto.
    apply IH, insert_after_sorted, Hacc. }
  apply H; constructor.
Qed.

Lemma stable_sort_nil (l : list A) : stable_sort leb l = [] -> l = [].
Proof.
  destruct l as [|x t]; auto; intros H.
  assert (Hx : In x (stable_sort leb (x :: t))) by (apply In_stable_sort; simpl; auto).
  rewrite H in Hx; destruct Hx.
Qed.
End SortFacts.

Lemma last_opt_In {A : Type} (l : list A) (x : A) :
  last_opt l = Some x -> In x l.
Proof.
  induction l as [|a t IH]; simpl; [discriminate|].
  destruct t as [|b t'].
  - intros H; inversion H; auto.
  - intros H; right; apply IH, H.
Qed.

Lemma last_opt_some {A : Type} (l : list A) :
  l <> [] -> exists x, last_opt l = Some x.
Proof.
  induction l as [|a t IH]; [congruence|]; intros _.
  destruct t as [|b t']; simpl; eauto.
  apply IH; discriminate.
Qed.

(** In a list sorted for a transitive relation, every element is related to
    the last one. *)
Lemma last_opt_sorted_max {A : Type} (R : A -> A -> Prop) (l : list A) (x : A) :
  (forall a b c, R a b -> R b c -> R a c) ->
  (forall a, R a a) ->
  Sorted R l -> last_opt l = Some x -> forall y, In y l -> R y x.
Proof.
  intros Htr Hrefl Hs; apply Sorted_StronglySorted in Hs; [|exact Htr].
  induction Hs as [|a t Hs IH Hall]; simpl; [discriminate|].
  intros Hl y Hy.
  destruct t as [|b t'].
  - inversion Hl; subst; destruct Hy as [<-|[]]; apply Hrefl.
  - destruct Hy as [<-|Hy].
    + assert (Hin : In x (b :: t')) by (apply last_opt_In; exact Hl).
      rewrite Forall_forall in Hall; apply Hall, Hin.
    + apply IH; assumption.
Qed.

(** ** C2: the attribution join never returns "not found" for a team and
       period that have lineup rows, and falls back to the latest lineup. *)

Lemma find_lineup_filter_nonempty (lineups_df : list LineupState) (period team_id : Z) :
  (exists r, In r lineups_df /\ ls_team_id r = team_id /\ ls_period r = period) ->
  filter (fun r => (ls_team_id r =? team_id) && (ls_period r =? period)) lineups_df <> [].
Proof.
  intros (r & Hin & Ht & Hp) Hnil.
  assert (Hr : In r (filter (fun r => (ls_team_id r =? team_id) && (ls_period r =? period))
                       lineups_df)).
  { apply filter_In; split; [exact Hin|]; rewrite Ht, Hp, !Z.eqb_refl; reflexivity. }
  rewrite Hnil in Hr; destruct Hr.
Qed.

(** C2.  If the lineup-states table has a row for [team_id] in [period],
    [find_lineup_at_time] returns one of that team's rows for that period
    (never the not-found [None]); and when the probe time precedes every
    recorded state of that team and period (its remaining clock is larger
    than theirs), the returned row is the chronologically last one, i.e.
    it has the smallest remaining clock. *)
Theorem find_lineup_at_time_resolves (lineups_df : list LineupState)
    (period time_seconds team_id : Z) :
  (exists r, In r lineups_df /\ ls_team_id r = team_id /\ ls_period r = period) ->
  exists found,
    find_lineup_at_time lineups_df period time_seconds team_id = Some found /\
    In found lineups_df /\ ls_team_id found = team_id /\ ls_period found = period /\
    ((forall r, In r lineups_df -> ls_team_id r = team_id -> ls_period r = period ->
        ls_game_clock_seconds r < time_seconds) ->
     forall r, In r lineups_df -> ls_team_id r = team_id -> ls_period r = period ->
        ls_game_clock_seconds found <= ls_game_clock_seconds r).
Proof.
  intros Hex.
  pose proof (find_lineup_filter_nonempty _ _ _ Hex) as Hne.
  unfold find_lineup_at_time.
  set (sel := fun r => (ls_team_id r =? team_id) && (ls_period r =? period)).
  fold sel in Hne.
  set (leb := fun a b : LineupState =>
                ls_game_clock_seconds b <=? ls_game_clock_seconds a).
  assert (Hsel : forall x, In x (filter sel lineups_df) ->
            In x lineups_df /\ ls_team_id x = team_id /\ ls_period x = period).
  { intros x Hx; apply filter_In in Hx as [Hx Hs]; unfold sel in Hs.
    apply andb_true_iff in Hs as [H1 H2]; apply Z.eqb_eq in H1, H2; auto. }
  assert (Hsorted_in : forall x, In x (stable_sort leb (filter sel lineups_df)) ->
            In x lineups_df /\ ls_team_id x = team_id /\ ls_period x = period).
  { intros x Hx; apply Hsel, (In_stable_sort leb); exact Hx. }
  assert (Hsorted_ne : stable_sort leb (filter sel lineups_df) <> []).
  { intros H; apply Hne, (stable_sort_nil leb), H. }
  destruct (filter sel lineups_df) as [|f0 frest] eqn:Ef; [congruence|].
  rewrite <- Ef in *.
  destruct (filter (fun r => time_seconds <=? ls_game_clock_seconds r)
              (stable_sort leb (filter sel lineups_df))) as [|a0 arest] eqn:Ea.
  - (* fallback: no lineup change at or after the probe time *)
    destruct (last_opt_some _ Hsorted_ne) as [found Hfound].
    exists found; rewrite Hfound.
    pose proof (last_opt_In _ _ Hfound) as Hin.
    destruct (Hsorted_in _ Hin) as (H1 & H2 & H3).
    repeat split; auto.
    intros _ r Hr Hrt Hrp.
    assert (Hrs : In r (stable_sort leb (filter sel lineups_df))).
    { apply (In_stable_sort leb), filter_In; split; [exact Hr|].
      unfold sel; rewrite Hrt, Hrp, !Z.eqb_refl; reflexivity. }
    apply Z.leb_le.
    refine (last_opt_sorted_max (fun a b => leb a b = true) _ found _ _ _ Hfound r Hrs).
    + unfold leb; intros a b c Hab Hbc; apply Z.leb_le in Hab, Hbc; apply Z.leb_le; lia.
    + unfold leb; intros a; apply Z.leb_refl.
    + apply stable_sort_sorted.
      unfold leb; intros a b Hab; apply Z.leb_gt in Hab; apply Z.leb_le; lia.
  - (* a lineup change at or after the probe time exists *)
    destruct (last_opt_some (a0 :: arest) ltac:(discriminate)) as [found Hfound].
    exists found; rewrite Hfound.
    pose proof (last_opt_In _ _ Hfound) as Hin; rewrite <- Ea in Hin.
    apply filter_In in Hin as [Hin Hge].
    destruct (Hsorted_in _ Hin) as (H1 & H2 & H3).
    repeat split; auto.
    intros Hlt; exfalso.
    destruct (Hsorted_in _ Hin) as (Hx1 & Hx2 & Hx3).
    specialize (Hlt found Hx1 Hx2 Hx3); apply Z.leb_le in Hge; lia.
Qed.

(** ** Permutation and ordering facts used by the possession proofs *)


Section SortPerm.
Context {A : Type} (leb : A -> A -> bool).

Lemma insert_after_perm (x : A) (l : list A) :
  Permutation (insert_after leb x l) (x :: l).
Proof.
  induction l as [|y t IH]; simpl; [reflexivity|].
  destruct (leb y x); [|reflexivity].
  rewrite IH; apply perm_swap.
Qed.

Lemma stable_sort_perm (l : list A) : Permutation (stable_sort leb l) l.
Proof.
  unfold stable_sort.
  assert (H : forall acc, Permutation
            (fold_left (fun acc x => insert_after leb x acc) l acc) (l ++ acc)).
  { induction l as [|x t IH]; intros acc; simpl; [reflexivity|].
    rewrite IH, insert_after_perm; symmetry; apply Permutation_middle. }
  rewrite H, app_nil_r; reflexivity.
Qed.
End SortPerm.

Lemma unique_Z_In (l : list Z) (y : Z) : In y (unique_Z l) <-> In y l.
Proof.
  induction l as [|x t IH]; simpl; [tauto|].
  rewrite filter_In, <- IH, negb_true_iff, Z.eqb_neq.
  destruct (Z.eq_dec x y); [subst; tauto|].
  split; [intros [H|[H _]]; auto|intros [H|H]; auto].
Qed.

Lemma unique_Z_NoDup (l : list Z) : NoDup (unique_Z l).
Proof.
  induction l as [|x t IH]; simpl; constructor.
  - rewrite filter_In, negb_true_iff, Z.eqb_neq; intros [_ H]; apply H; reflexivity.
  - apply NoDup_filter, IH.
Qed.

Lemma Zleb_total (a b : Z) : Z.leb a b = false -> Z.leb b a = true.
Proof. intros H; apply Z.leb_gt in H; apply Z.leb_le; lia. Qed.

(** The sorted distinct periods are strictly increasing. *)
Lemma sorted_unique_strict (l : list Z) :
  StronglySorted Z.lt (stable_sort Z.leb (unique_Z l)).
Proof.
  pose proof (stable_sort_sorted Z.leb Zleb_total (unique_Z l)) as Hs.
  pose proof (Permutation_NoDup (Permutation_sym (stable_sort_perm Z.leb (unique_Z l)))
                (unique_Z_NoDup l)) as Hnd.
  apply Sorted_StronglySorted in Hs;
    [|intros a b c Hab Hbc; apply Z.leb_le in Hab, Hbc; apply Z.leb_le; lia].
  revert Hnd; induction Hs as [|a t Hs IH Hall]; intros Hnd; constructor.
  - apply IH; inversion Hnd; auto.
  - inversion Hnd as [|? ? Hnotin Hnd']; subst.
    rewrite Forall_forall in *; intros y Hy.
    specialize (Hall y Hy); apply Z.leb_le in Hall.
    destruct (Z.eq_dec a y); [subst; contradiction|lia].
Qed.

(** ** The [chain] predicate and [zseq] *)

Lemma chain_cons {A : Type} (R : A -> A -> Prop) (x : A) (l : list A) :
  (forall y, hd_error l = Some y -> R x y) -> chain R l -> chain R (x :: l).
Proof. destruct l as [|y t]; simpl; auto. Qed.

Lemma chain_app {A : Type} (R : A -> A -> Prop) (l1 l2 : list A) :
  chain R l1 -> chain R l2 -> (forall x y, In x l1 -> In y l2 -> R x y) ->
  chain R (l1 ++ l2).
Proof.
  induction l1 as [|x t IH]; simpl; auto.
  intros H1 H2 Hx.
  apply chain_cons.
  - intros y Hy; destruct t as [|z t']; simpl in *.
    + apply Hx; auto. destruct l2; inversion Hy; simpl; auto.
    + inversion Hy; subst; apply H1.
  - apply IH; auto.
    + destruct t; simpl in *; tauto.
Qed.

Lemma chain_map {A B : Type} (R : A -> A -> Prop) (R' : B -> B -> Prop) (f : A -> B)
    (l : list A) :
  (forall x y, R x y -> R' (f x) (f y)) -> chain R l -> chain R' (map f l).
Proof.
  intros HR; induction l as [|x t IH]; simpl; auto.
  destruct t as [|y t']; simpl; auto.
  intros [Hxy Ht]; split; [apply HR, Hxy|apply IH, Ht].
Qed.

Lemma zseq_app (a : Z) (n m : nat) :
  zseq a n ++ zseq (a + Z.of_nat n) m = zseq a (n + m).
Proof.
  revert a; induction n as [|n IH]; intros a; simpl.
  - rewrite Z.add_0_r; reflexivity.
  - f_equal. rewrite <- IH. do 2 f_equal; lia.
Qed.

(** ** The per-period possession loop *)

Section PeriodLoop.
Variable period : Z.

Lemma period_possessions_ids (endings : list Ending) (pid s o d : Z) :
  map possession_id (period_possessions period endings pid s o d) =
  zseq pid (List.length endings).
Proof.
  revert pid s o d; induction endings as [|en t IH]; intros pid s o d; simpl; auto.
  f_equal; destruct (_ || _); apply IH.
Qed.

Lemma period_possessions_length (endings : list Ending) (pid s o d : Z) :
  List.length (period_possessions period endings pid s o d) = List.length endings.
Proof.
  rewrite <- (length_map possession_id), period_possessions_ids.
  clear; revert pid; induction endings; intros; simpl; auto.
Qed.

Lemma period_possessions_period (endings : list Ending) (pid s o d : Z) :
  Forall (fun x => po_period x = period) (period_possessions period endings pid s o d).
Proof.
  revert pid s o d; induction endings as [|en t IH]; intros pid s o d; simpl;
    constructor; auto.
  destruct (_ || _); apply IH.
Qed.

Lemma period_possessions_teams (endings : list Ending) (pid s o d : Z) :
  o <> d ->
  Forall (fun x => off_team x <> def_team x) (period_possessions period endings pid s o d).
Proof.
  revert pid s o d; induction endings as [|en t IH]; intros pid s o d Hod; simpl;
    constructor; auto.
  destruct (_ || _); apply IH; auto.
Qed.

Lemma period_possessions_head (endings : list Ending) (pid s o d : Z) (y : Possession) :
  hd_error (period_possessions period endings pid s o d) = Some y ->
  off_team y = o /\ def_team y = d /\ start_time_seconds y = s.
Proof.
  destruct endings; simpl; intros H; inversion H; subst; simpl; auto.
Qed.

Lemma period_possessions_flip (endings : list Ending) (pid s o d : Z) :
  chain next_possession_teams (period_possessions period endings pid s o d).
Proof.
  revert pid s o d; induction endings as [|en t IH]; intros pid s o d; simpl; auto.
  apply chain_cons.
  - intros y Hy _; unfold flips_offense; simpl.
    destruct (_ || _); apply period_possessions_head in Hy as (H1 & H2 & _); auto.
  - destruct (_ || _); apply IH.
Qed.

(** With the endings sorted by elapsed time, each elapsed time being
    [m - clock], and every clock at most the period's start clock [s], the
    start clocks never increase. *)
Lemma period_possessions_chrono (endings : list Ending) (pid s o d m : Z) :
  StronglySorted (fun a b => en_time_elapsed a <= en_time_elapsed b) endings ->
  (forall en, In en endings -> en_time_elapsed en = m - en_end_time_seconds en) ->
  (forall en, In en endings -> en_end_time_seconds en <= s) ->
  chain (fun x y => start_time_seconds y <= start_time_seconds x)
    (period_possessions period endings pid s o d).
Proof.
  revert pid s o d; induction endings as [|en t IH]; intros pid s o d Hs Hm Hle;
    cbn [period_possessions]; [exact I|].
  inversion Hs as [|? ? Hs' Hall]; subst.
  rewrite Forall_forall in Hall.
  assert (Hrest : forall o' d', chain (fun x y => start_time_seconds y <= start_time_seconds x)
            (period_possessions period t (pid + 1) (en_end_time_seconds en) o' d')).
  { intros o' d'; apply IH; auto.
    - intros; apply Hm; simpl; auto.
    - intros e He.
      specialize (Hall e He).
      rewrite (Hm e (or_intror He)), (Hm en (or_introl eq_refl)) in Hall; lia. }
  apply chain_cons.
  - intros y Hy; simpl.
    destruct (_ || _); apply period_possessions_head in Hy as (_ & _ & ->);
      apply Hle; simpl; auto.
  - destruct (_ || _); apply Hrest.
Qed.
End PeriodLoop.

(** ** Whole-period blocks and the loop over periods *)

Lemma chain_impl_in {A : Type} (R1 R2 : A -> A -> Prop) (l : list A) :
  (forall x y, In x l -> In y l -> R1 x y -> R2 x y) -> chain R1 l -> chain R2 l.
Proof.
  induction l as [|x t IH]; simpl; auto.
  destruct t as [|y t']; auto.
  intros H [H1 H2]; split.
  - apply H; simpl; auto.
  - apply IH; [|exact H2].
    intros a b Ha Hb; apply H; simpl in *; auto.
Qed.

Lemma Sorted_mono {A : Type} (R1 R2 : A -> A -> Prop) (l : list A) :
  (forall a b, R1 a b -> R2 a b) -> Sorted R1 l -> Sorted R2 l.
Proof.
  intros H; induction 1 as [|x t Hs IH Hhd]; constructor; auto.
  destruct Hhd; constructor; auto.
Qed.

Lemma period_max_clock_none (pbp_df : list Event) (p : Z) (e : Event) :
  period_max_clock pbp_df p = None -> In e pbp_df -> ev_period e = p -> False.
Proof.
  induction pbp_df as [|x t IH]; simpl; [tauto|].
  destruct (ev_period x =? p) eqn:Ex.
  - destruct (period_max_clock t p); discriminate.
  - intros Hn [<-|He] Hp; [subst; rewrite Z.eqb_refl in Ex; discriminate|].
    apply IH; auto.
Qed.

Lemma period_max_clock_ge (pbp_df : list Event) (p s : Z) (e : Event) :
  period_max_clock pbp_df p = Some s -> In e pbp_df -> ev_period e = p ->
  ev_game_clock_seconds e <= s.
Proof.
  revert s; induction pbp_df as [|x t IH]; intros s; simpl; [discriminate|].
  destruct (ev_period x =? p) eqn:Ex.
  - destruct (period_max_clock t p) as [m|] eqn:Em; intros Hs [<-|He] Hp;
      inversion Hs; subst.
    + lia.
    + specialize (IH m eq_refl He eq_refl); lia.
    + lia.
    + exfalso; apply (period_max_clock_none t (ev_period e) e Em He eq_refl).
  - intros Hs [<-|He] Hp.
    + subst; rewrite Z.eqb_refl in Ex; discriminate.
    + apply (IH s Hs He Hp).
Qed.

Lemma period_block_props (pbp_df : list Event) (endings_df : list Ending)
    (period pid : Z) (out : list Possession) :
  period_block pbp_df endings_df period pid = Some out ->
  map possession_id out = zseq pid (List.length out) /\
  Forall (fun x => po_period x = period) out /\
  Forall (fun x => off_team x <> def_team x) out /\
  chain next_possession_teams out /\
  ((exists m, forall en, In en endings_df -> en_period en = period ->
        en_time_elapsed en = m - en_end_time_seconds en) ->
   (forall en, In en endings_df -> en_period en = period ->
        exists e, In e pbp_df /\ ev_period e = period /\
                  ev_game_clock_seconds e = en_end_time_seconds en) ->
   chain next_possession_later out).
Proof.
  unfold period_block.
  set (pe := stable_sort (fun a b => en_time_elapsed a <=? en_time_elapsed b)
               (filter (fun en => en_period en =? period) endings_df)).
  destruct (period_max_clock pbp_df period) as [s|] eqn:Es; [|discriminate].
  destruct (find _ _) as [fe|]; [|discriminate].
  destruct (ev_offTeamId_clean fe) as [o|]; [|discriminate].
  set (vt := stable_sort Z.leb (unique_Z _)).
  assert (Hvt : NoDup vt).
  { apply (Permutation_NoDup (Permutation_sym (stable_sort_perm _ _))), unique_Z_NoDup. }
  destruct vt as [|v0 rest] eqn:Evt; [discriminate|].
  destruct (o =? v0) eqn:Eo; [destruct rest as [|v1 r']|]; [discriminate| |];
    intros Hout; injection Hout as <-.
  all: match goal with
       | |- context [period_possessions _ _ _ _ _ ?d] => assert (Hod : o <> d)
       end.
  1: { apply Z.eqb_eq in Eo; subst; inversion Hvt as [|? ? Hn _]; intros ->;
       apply Hn; simpl; auto. }
  2: { apply Z.eqb_neq, Eo. }
  all: split; [rewrite period_possessions_ids, period_possessions_length; reflexivity|].
  all: split; [apply period_possessions_period|].
  all: split; [apply period_possessions_teams, Hod|].
  all: split; [apply period_possessions_flip|].
  all: intros [m Hm] Hsrc.
  all: assert (Hpe : forall en, In en pe -> In en endings_df /\ en_period en = period)
         by (intros en Hen; unfold pe in Hen; rewrite In_stable_sort in Hen;
             apply filter_In in Hen as [Hen Hp]; apply Z.eqb_eq in Hp; auto).
  all: eapply chain_impl_in;
         [|apply (period_possessions_chrono period pe _ _ _ _ m)].
  all: try (intros x y Hx Hy Hxy; right; split; [|exact Hxy];
            pose proof (period_possessions_period period pe) as HP;
            setoid_rewrite Forall_forall in HP;
            rewrite (HP _ _ _ _ _ Hx), (HP _ _ _ _ _ Hy); reflexivity).
  all: try (intros en Hen; destruct (Hpe en Hen); apply Hm; assumption).
  all: try (intros en Hen; destruct (Hpe en Hen) as [H1 H2];
            destruct (Hsrc en H1 H2) as (e & He1 & He2 & He3);
            rewrite <- He3; apply (period_max_clock_ge pbp_df period s e Es He1 He2)).
  all: apply Sorted_StronglySorted;
         [intros a b c Hab Hbc; lia|].
  all: eapply Sorted_mono; [|apply stable_sort_sorted];
         [intros a b Hab; apply Z.leb_le; exact Hab|].
  all: intros a b Hab; apply Z.leb_gt in Hab; apply Z.leb_le; lia.
Qed.

Lemma periods_possessions_props (pbp_df : list Event) (endings_df : list Ending)
    (periods : list Z) (pid : Z) (out : list Possession) :
  StronglySorted Z.lt periods ->
  periods_possessions pbp_df endings_df periods pid = Some out ->
  map possession_id out = zseq pid (List.length out) /\
  Forall (fun x => In (po_period x) periods) out /\
  Forall (fun x => off_team x <> def_team x) out /\
  chain next_possession_teams out /\
  ((forall p, exists m, forall en, In en endings_df -> en_period en = p ->
        en_time_elapsed en = m - en_end_time_seconds en) ->
   (forall en, In en endings_df ->
        exists e, In e pbp_df /\ ev_period e = en_period en /\
                  ev_game_clock_seconds e = en_end_time_seconds en) ->
   chain next_possession_later out).
Proof.
  revert pid out; induction periods as [|p rest IH]; intros pid out Hss; simpl.
  - intros H; injection H as <-; simpl; repeat split; auto.
  - destruct (period_block pbp_df endings_df p pid) as [block|] eqn:Eb; [|discriminate].
    destruct (periods_possessions pbp_df endings_df rest _) as [tail|] eqn:Et;
      [|discriminate].
    intros H; injection H as <-.
    inversion Hss as [|? ? Hss' Hlt]; subst.
    rewrite Forall_forall in Hlt.
    destruct (period_block_props _ _ _ _ _ Eb) as (Bid & Bper & Bteam & Bflip & Bchr).
    destruct (IH _ _ Hss' Et) as (Tid & Tper & Tteam & Tflip & Tchr).
    rewrite Forall_forall in Bper, Tper.
    assert (Hcross : forall x y, In x block -> In y tail -> p < po_period y /\ po_period x = p).
    { intros x y Hx Hy; split; [apply Hlt, Tper, Hy|apply Bper, Hx]. }
    split; [|split; [|split; [|split]]].
    + rewrite map_app, Bid, Tid, length_app, zseq_app; reflexivity.
    + apply Forall_app; split; rewrite Forall_forall; intros x Hx.
      * rewrite (Bper x Hx); simpl; auto.
      * simpl; right; apply Tper, Hx.
    + apply Forall_app; auto.
    + apply chain_app; auto.
      intros x y Hx Hy Heq; destruct (Hcross x y Hx Hy); lia.
    + intros Hm Hsrc; apply chain_app.
      * apply Bchr.
        -- destruct (Hm p) as [m Hmp]; exists m; exact Hmp.
        -- intros en Hen Hp; destruct (Hsrc en Hen) as (e & H1 & H2 & H3).
           exists e; repeat split; auto; congruence.
      * apply Tchr; auto.
      * intros x y Hx Hy; left; destruct (Hcross x y Hx Hy); lia.
Qed.

Lemma build_possession_timeline_props (pbp_df : list Event) (endings_df : list Ending)
    (out : list Possession) :
  build_possession_timeline pbp_df endings_df = Some out ->
  map possession_id out = zseq 1 (List.length out) /\
  Forall (fun x => off_team x <> def_team x) out /\
  chain next_possession_teams out /\
  ((forall p, exists m, forall en, In en endings_df -> en_period en = p ->
        en_time_elapsed en = m - en_end_time_seconds en) ->
   (forall en, In en endings_df ->
        exists e, In e pbp_df /\ ev_period e = en_period en /\
                  ev_game_clock_seconds e = en_end_time_seconds en) ->
   chain next_possession_later out).
Proof.
  unfold build_possession_timeline.
  destruct endings_df as [|en0 ens] eqn:Ee.
  - intros H; injection H as <-; simpl; repeat split; auto.
  - rewrite <- Ee; intros H.
    destruct (periods_possessions_props _ _ _ _ _ (sorted_unique_strict _) H)
      as (H1 & _ & H3 & H4 & H5).
    repeat split; auto.
Qed.

(** Every ending record is built from an event of the stream. *)
Lemma identify_endings_from_src (pbp_df rows : list Event) (idx : nat) (en : Ending) :
  In en (identify_endings_from pbp_df rows idx) ->
  exists e, In e rows /\ en_period en = ev_period e /\
            en_end_time_seconds en = ev_game_clock_seconds e /\
            en_time_elapsed en = ev_time_elapsed e.
Proof.
  revert idx; induction rows as [|play t IH]; intros idx; simpl; [tauto|].
  intros Hin.
  assert (Hrest : In en (identify_endings_from pbp_df t (S idx)) ->
            exists e, (play = e \/ In e t) /\ en_period en = ev_period e /\
              en_end_time_seconds en = ev_game_clock_seconds e /\
              en_time_elapsed en = ev_time_elapsed e).
  { intros H; destruct (IH _ H) as (e & He & Hx); exists e; auto. }
  repeat match type of Hin with
         | In _ (if ?b then _ else _) => destruct b
         end;
    try (destruct Hin as [<-|Hin]; [exists play; simpl; auto|]); auto.
Qed.

Lemma prepare_pbp_data_elapsed (pbp : list PbpRow) (e : Event) :
  In e (prepare_pbp_data pbp) ->
  ev_time_elapsed e =
    match max_period_time pbp (ev_period e) with Some m => m | None => 0 end
    - ev_game_clock_seconds e.
Proof.
  unfold prepare_pbp_data; rewrite In_stable_sort, in_map_iff.
  intros (r & <- & _); reflexivity.
Qed.

Lemma extract_possessions_timeline (pbp_df : list PbpRow) (ps : list Possession) :
  extract_possessions pbp_df = Some ps ->
  exists ts,
    build_possession_timeline (prepare_pbp_data pbp_df)
      (identify_possession_endings (prepare_pbp_data pbp_df)) = Some ts /\
    ps = map (possession_metrics (prepare_pbp_data pbp_df)) ts.
Proof.
  unfold extract_possessions.
  destruct (build_possession_timeline _ _) as [ts|]; [|discriminate].
  intros H; injection H as <-; eauto.
Qed.

(** ** C7: offense and defense differ, and flip exactly after a turnover or
       a defensive rebound *)

(** C7.  For every play-by-play input on which [extract_possessions]
    returns possessions, each possession's offensive team differs from its
    defensive team, and for each possession and the next one in the same
    period the teams are swapped when the first ended in a turnover or a
    defensive rebound and are unchanged after every other end type. *)
Theorem extract_possessions_offense_defense (pbp_df : list PbpRow) (ps : list Possession) :
  extract_possessions pbp_df = Some ps ->
  Forall (fun x => off_team x <> def_team x) ps /\ chain next_possession_teams ps.
Proof.
  intros H; destruct (extract_possessions_timeline _ _ H) as (ts & Hts & ->).
  destruct (build_possession_timeline_props _ _ _ Hts) as (_ & Hteam & Hflip & _).
  split.
  - apply Forall_map; eapply Forall_impl; [|exact Hteam]; simpl; auto.
  - eapply chain_map; [|exact Hflip].
    unfold next_possession_teams; simpl; auto.
Qed.

(** ** C8: dense 1-based possession ids in chronological order *)

(** C8.  For every play-by-play input on which [extract_possessions]
    returns [N] possessions, their ids are exactly [1, 2, ..., N] in output
    order, and consecutive possessions are in chronological order: either
    the next one is in a later period, or it is in the same period and
    starts at a remaining game clock that is not larger (an elapsed time
    that is not smaller). *)
Theorem extract_possessions_ids_chronological (pbp_df : list PbpRow) (ps : list Possession) :
  extract_possessions pbp_df = Some ps ->
  map possession_id ps = zseq 1 (List.length ps) /\ chain next_possession_later ps.
Proof.
  intros H; destruct (extract_possessions_timeline _ _ H) as (ts & Hts & ->).
  destruct (build_possession_timeline_props _ _ _ Hts) as (Hid & _ & _ & Hchr).
  split.
  - rewrite map_map, length_map; simpl; exact Hid.
  - eapply chain_map; [|apply Hchr].
    + unfold next_possession_later; simpl; auto.
    + intros p.
      exists (match max_period_time pbp_df p with Some m => m | None => 0 end).
      intros en Hen Hp.
      destruct (identify_endings_from_src _ _ _ _ Hen) as (e & He & H1 & H2 & H3).
      rewrite H3, H2, (prepare_pbp_data_elapsed _ _ He), <- H1, Hp; reflexivity.
    + intros en Hen.
      destruct (identify_endings_from_src _ _ _ _ Hen) as (e & He & H1 & H2 & H3).
      exists e; auto.
Qed.

(** ** C6: each rim shot counts once for every player of the defending team *)

Lemma lookup_Z_update {A : Type} (k k' : Z) (v : A) (m : list (Z * A)) :
  lookup_Z k (update_Z k' v m) = if k =? k' then Some v else lookup_Z k m.
Proof.
  induction m as [|[k0 v0] t IH]; simpl.
  - reflexivity.
  - destruct (k' =? k0) eqn:E; simpl.
    + apply Z.eqb_eq in E; subst k'; destruct (k =? k0); reflexivity.
    + rewrite IH. destruct (k =? k0) eqn:E2; [|reflexivity].
      apply Z.eqb_eq in E2; subst k0.
      destruct (k =? k') eqn:E3; [|reflexivity].
      apply Z.eqb_eq in E3; subst k'; rewrite Z.eqb_refl in E; discriminate.
Qed.

Lemma In_keys_update {A : Type} (k k' : Z) (v : A) (m : list (Z * A)) :
  In k (map fst (update_Z k' v m)) <-> k = k' \/ In k (map fst m).
Proof.
  induction m as [|[k0 v0] t IH]; simpl.
  - intuition congruence.
  - destruct (k' =? k0) eqn:E; simpl.
    + apply Z.eqb_eq in E; subst k'; intuition congruence.
    + rewrite IH; intuition congruence.
Qed.

Lemma keys_update_NoDup {A : Type} (k : Z) (v : A) (m : list (Z * A)) :
  NoDup (map fst m) -> NoDup (map fst (update_Z k v m)).
Proof.
  induction m as [|[k0 v0] t IH]; simpl; intros Hnd.
  - constructor; [intros []|constructor].
  - inversion Hnd as [|? ? Hni Hnd']; subst.
    destruct (k =? k0) eqn:E; simpl.
    + apply Z.eqb_eq in E; subst k; constructor; assumption.
    + constructor; [|apply IH; assumption].
      rewrite In_keys_update; intros [H|H]; [|contradiction].
      subst k0; rewrite Z.eqb_refl in E; discriminate.
Qed.

Lemma lookup_Z_In {A : Type} (k : Z) (v : A) (m : list (Z * A)) :
  NoDup (map fst m) -> (In (k, v) m <-> lookup_Z k m = Some v).
Proof.
  induction m as [|[k0 v0] t IH]; simpl; intros Hnd.
  - split; [intros []|discriminate].
  - inversion Hnd as [|? ? Hni Hnd']; subst.
    destruct (k =? k0) eqn:E.
    + apply Z.eqb_eq in E; subst k0; split.
      * intros [H|H]; [injection H as ->; reflexivity|].
        exfalso; apply Hni; apply (in_map fst) in H; exact H.
      * intros H; injection H as ->; left; reflexivity.
    + rewrite <- IH by assumption; split; [|right; assumption].
      intros [H|H]; [|assumption].
      injection H as -> _; rewrite Z.eqb_refl in E; discriminate.
Qed.

Lemma get_player_team_mapping_NoDup (lineup_intervals : list PlayerInterval) :
  NoDup (map fst (get_player_team_mapping lineup_intervals)).
Proof.
  unfold get_player_team_mapping.
  assert (H : forall m, NoDup (map fst m) ->
            NoDup (map fst (fold_left (fun m iv => update_Z (pi_playerId iv) (pi_teamId iv) m)
                              lineup_intervals m))).
  { induction lineup_intervals as [|iv t IH]; simpl; intros m Hm; [exact Hm|].
    apply IH, keys_update_NoDup, Hm. }
  apply H; constructor.
Qed.

Lemma NoDup_map_filter {A B : Type} (f : A -> B) (P : A -> bool) (l : list A) :
  NoDup (map f l) -> NoDup (map f (filter P l)).
Proof.
  induction l as [|x t IH]; simpl; intros Hnd; [constructor|].
  inversion Hnd as [|? ? Hni Hnd']; subst.
  destruct (P x); simpl; [|apply IH; assumption].
  constructor; [|apply IH; assumption].
  intros Hin; apply Hni.
  apply in_map_iff in Hin as (y & Hy & Hyin); apply filter_In in Hyin as [Hyin _].
  rewrite <- Hy; apply in_map, Hyin.
Qed.

Lemma memZ_In (x : Z) (l : list Z) : memZ x l = true <-> In x l.
Proof.
  unfold memZ; rewrite existsb_exists; split.
  - intros (y & Hy & E); apply Z.eqb_eq in E; subst; exact Hy.
  - intros H; exists x; split; [exact H|apply Z.eqb_refl].
Qed.

Lemma In_team_players (pt : list (Z * Z)) (d p : Z) :
  NoDup (map fst pt) ->
  (In p (map fst (filter (fun x => snd x =? d) pt)) <-> lookup_Z p pt = Some d).
Proof.
  intros Hnd; rewrite <- lookup_Z_In by exact Hnd; split.
  - intros Hin; apply in_map_iff in Hin as ([p' t] & Hp & Hin).
    apply filter_In in Hin as [Hin Ht]; simpl in *; subst p'.
    apply Z.eqb_eq in Ht; subst; exact Hin.
  - intros Hin; apply in_map_iff; exists (p, d); split; [reflexivity|].
    apply filter_In; split; [exact Hin|apply Z.eqb_refl].
Qed.

Lemma fold_count_rim_shot_lookup (made : bool) (onf : Z -> bool) (d : Z) (L : list Z)
    (st : list (Z * RimCounters)) (q : Z) :
  NoDup L ->
  lookup_Z q (fold_left (fun st pid => count_rim_shot made (onf pid) d st pid) L st) =
  if memZ q L
  then Some (bump_counters made (onf q)
               (match lookup_Z q st with Some c => c | None => new_counters d end))
  else lookup_Z q st.
Proof.
  revert st; induction L as [|x L' IH]; intros st Hnd; simpl; [reflexivity|].
  inversion Hnd as [|? ? Hni Hnd']; subst.
  rewrite IH by exact Hnd'; unfold count_rim_shot; rewrite !lookup_Z_update.
  destruct (q =? x) eqn:E; simpl.
  - apply Z.eqb_eq in E; subst x.
    destruct (memZ q L') eqn:Em; [apply memZ_In in Em; contradiction|].
    reflexivity.
  - destruct (memZ q L'); reflexivity.
Qed.

Lemma shots_against_app (t : Z) (done : list RimShotRow) (s : RimShotRow) :
  shots_against t (done ++ [s]) = shots_against t done + (if rim_against t s then 1 else 0).
Proof.
  unfold shots_against; rewrite filter_app, length_app, Nat2Z.inj_add; simpl.
  destruct (rim_against t s); reflexivity.
Qed.

Lemma makes_against_app (t : Z) (done : list RimShotRow) (s : RimShotRow) :
  makes_against t (done ++ [s]) =
  makes_against t done + (if rim_against t s && (rs_msgType s =? 1) then 1 else 0).
Proof.
  unfold makes_against; rewrite filter_app, length_app, Nat2Z.inj_add; simpl.
  destruct (rim_against t s && (rs_msgType s =? 1)); reflexivity.
Qed.

Lemma shots_against_nonneg (t : Z) (done : list RimShotRow) : 0 <= shots_against t done.
Proof. unfold shots_against; lia. Qed.


Lemma makes_le_shots (t : Z) (l : list RimShotRow) : makes_against t l <= shots_against t l.
Proof.
  unfold makes_against, shots_against; apply Nat2Z.inj_le.
  induction l as [|s l IH]; simpl; [lia|].
  destruct (rim_against t s), (rs_msgType s =? 1); simpl; lia.
Qed.

Lemma bump_counters_props (m o : bool) (c : RimCounters) :
  rc_teamId (bump_counters m o c) = rc_teamId c /\
  on_attempts (bump_counters m o c) + off_attempts (bump_counters m o c)
    = on_attempts c + off_attempts c + 1 /\
  on_makes (bump_counters m o c) + off_makes (bump_counters m o c)
    = on_makes c + off_makes c + (if m then 1 else 0).
Proof. unfold bump_counters; destruct m, o; simpl; repeat split; lia. Qed.

Lemma rim_against_unknown (s : RimShotRow) (t : Z) :
  rs_offTeamId s = None \/ rs_defTeamId s = None -> rim_against t s = false.
Proof.
  unfold rim_against; intros [H|H]; rewrite H; [reflexivity|].
  destruct (rs_offTeamId s); reflexivity.
Qed.

Lemma fold_count_rim_shot_NoDup (made : bool) (onf : Z -> bool) (d : Z) (L : list Z)
    (st : list (Z * RimCounters)) :
  NoDup (map fst st) ->
  NoDup (map fst (fold_left (fun st pid => count_rim_shot made (onf pid) d st pid) L st)).
Proof.
  revert st; induction L as [|x L' IH]; intros st Hnd; simpl; [exact Hnd|].
  apply IH; unfold count_rim_shot; apply keys_update_NoDup, Hnd.
Qed.

Lemma rim_inv_unknown (pt : list (Z * Z)) (done : list RimShotRow)
    (st : list (Z * RimCounters)) (s : RimShotRow) :
  rs_offTeamId s = None \/ rs_defTeamId s = None ->
  rim_inv pt done st -> rim_inv pt (done ++ [s]) st.
Proof.
  intros Hu (Hnd & Hc & Hn).
  assert (Hs : forall t, shots_against t (done ++ [s]) = shots_against t done).
  { intros t; rewrite shots_against_app, (rim_against_unknown s t Hu); lia. }
  assert (Hm : forall t, makes_against t (done ++ [s]) = makes_against t done).
  { intros t; rewrite makes_against_app, (rim_against_unknown s t Hu); simpl; lia. }
  split; [exact Hnd|split].
  - intros p c Hl; rewrite Hs, Hm; apply (Hc p c Hl).
  - intros p t Hp; rewrite Hs; apply (Hn p t Hp).
Qed.

Lemma rim_shot_step_inv (lineup_intervals : list PlayerInterval) (pt : list (Z * Z))
    (done : list RimShotRow) (st : list (Z * RimCounters)) (s : RimShotRow) :
  NoDup (map fst pt) -> rim_inv pt done st ->
  rim_inv pt (done ++ [s]) (rim_shot_step lineup_intervals pt st s).
Proof.
  intros Hpt Hinv.
  unfold rim_shot_step.
  destruct (rs_offTeamId s) as [o|] eqn:Ho;
    [destruct (rs_defTeamId s) as [d|] eqn:Hd|];
    [| apply rim_inv_unknown; auto | apply rim_inv_unknown; auto].
  destruct Hinv as (Hnd & Hc & Hn).
  cbv zeta.
  set (L := map fst (filter (fun pt0 => snd pt0 =? d) pt)).
  set (defending := map pi_playerId (filter (fun iv => pi_teamId iv =? d)
         (filter (fun iv => (pi_period_start iv <=? rs_period s)
                            && (rs_period s <=? pi_period_end iv)
                            && (pi_wallClock_start iv <=? rs_wallClockInt s)
                            && (rs_wallClockInt s <=? pi_wallClock_end iv))
            lineup_intervals))).
  assert (HLnd : NoDup L) by (apply NoDup_map_filter, Hpt).
  assert (HL : forall q, In q L <-> lookup_Z q pt = Some d)
    by (intros q; apply In_team_players, Hpt).
  pose proof (fold_count_rim_shot_lookup (rs_msgType s =? 1)
                (fun pid => memZ pid defending) d L st) as HF.
  cbv beta in HF.
  assert (Hrd : forall t, rim_against t s = (d =? t))
    by (intros t; unfold rim_against; rewrite Ho, Hd; reflexivity).
  split; [|split].
  - apply fold_count_rim_shot_NoDup, Hnd.
  - intros p c Hl; rewrite (HF p HLnd) in Hl.
    destruct (memZ p L) eqn:Em.
    + apply memZ_In, HL in Em.
      injection Hl as <-.
      destruct (bump_counters_props (rs_msgType s =? 1) (memZ p defending)
                  (match lookup_Z p st with Some c => c | None => new_counters d end))
        as (Ht & Ha & Hm).
      rewrite shots_against_app, makes_against_app, Hrd, Ha, Hm, Ht.
      destruct (lookup_Z p st) as [c0|] eqn:Hl0.
      * destruct (Hc p c0 Hl0) as (H1 & H2 & H3).
        rewrite Em in H1; injection H1 as H1; rewrite <- H1 in H2, H3.
        rewrite <- H1, Z.eqb_refl, H2, H3; simpl.
        split; [exact Em|split; [reflexivity|]].
        destruct (rs_msgType s =? 1); reflexivity.
      * simpl; rewrite Z.eqb_refl.
        assert (H0 : shots_against d done = 0).
        { pose proof (shots_against_nonneg d done).
          destruct (Z.eq_dec (shots_against d done) 0) as [E|E]; [exact E|].
          exfalso; apply (Hn p d Em); [lia|exact Hl0]. }
        pose proof (makes_le_shots d done) as Hle.
        assert (H0' : makes_against d done = 0).
        { unfold makes_against in *; lia. }
        rewrite H0, H0'; simpl.
        split; [exact Em|split; [reflexivity|]].
        destruct (rs_msgType s =? 1); reflexivity.
    + destruct (Hc p c Hl) as (H1 & H2 & H3).
      assert (Hne : (d =? rc_teamId c) = false).
      { apply Z.eqb_neq; intros E; subst d.
        assert (In p L) by (apply HL, H1).
        apply memZ_In in H; congruence. }
      rewrite shots_against_app, makes_against_app, Hrd, Hne; simpl.
      rewrite !Z.add_0_r; auto.
  - intros p t Hp Hpos; rewrite (HF p HLnd).
    destruct (memZ p L) eqn:Em; [discriminate|].
    apply (Hn p t Hp).
    rewrite shots_against_app, Hrd in Hpos.
    destruct (d =? t) eqn:E; [|lia].
    apply Z.eqb_eq in E; subst t.
    apply HL, memZ_In in Hp; congruence.
Qed.

Lemma rim_fold_inv (lineup_intervals : list PlayerInterval) (pt : list (Z * Z))
    (shots done : list RimShotRow) (st : list (Z * RimCounters)) :
  NoDup (map fst pt) -> rim_inv pt done st ->
  rim_inv pt (done ++ shots) (fold_left (rim_shot_step lineup_intervals pt) shots st).
Proof.
  revert done st; induction shots as [|s rest IH]; intros done st Hpt Hinv; simpl.
  - rewrite app_nil_r; exact Hinv.
  - replace (done ++ s :: rest) with ((done ++ [s]) ++ rest)
      by (rewrite <- app_assoc; reflexivity).
    apply IH; [exact Hpt|].
    apply rim_shot_step_inv; assumption.
Qed.

(** C6.  For every output of [track_rim_defense]: each row's team is the
    player's team in the interval-derived roster mapping; its on-court and
    off-court attempts add up to the number of rim shots (with both teams
    known) taken against that team, and its on-court and off-court makes
    add up to the number of those shots that were made; and every rostered
    player whose team faced at least one such rim shot has a row. *)
Theorem track_rim_defense_buckets (enhanced_pbp_df : list RimShotRow)
    (lineup_intervals : list PlayerInterval) (rows : list RimRow) :
  track_rim_defense enhanced_pbp_df lineup_intervals = Some rows ->
  (forall r, In r rows ->
     lookup_Z (rr_playerId r) (get_player_team_mapping lineup_intervals) = Some (rr_teamId r) /\
     rim_fga_on r + rim_fga_off r
       = shots_against (rr_teamId r) (filter rs_is_rim_shot enhanced_pbp_df) /\
     rim_fgm_on r + rim_fgm_off r
       = makes_against (rr_teamId r) (filter rs_is_rim_shot enhanced_pbp_df)) /\
  (forall p t, lookup_Z p (get_player_team_mapping lineup_intervals) = Some t ->
     0 < shots_against t (filter rs_is_rim_shot enhanced_pbp_df) ->
     exists r, In r rows /\ rr_playerId r = p).
Proof.
  unfold track_rim_defense, calculate_rim_defense_stats.
  set (pt := get_player_team_mapping lineup_intervals).
  set (shots := filter rs_is_rim_shot enhanced_pbp_df).
  assert (Hpt : NoDup (map fst pt)) by apply get_player_team_mapping_NoDup.
  assert (Hinv0 : rim_inv pt [] []).
  { split; [constructor|split]; intros p; simpl; [discriminate|].
    intros t _ H; unfold shots_against in H; simpl in H; lia. }
  destruct (rim_fold_inv lineup_intervals pt shots [] [] Hpt Hinv0) as (Hnd & Hc & Hn).
  simpl in Hnd, Hc, Hn.
  destruct (fold_left (rim_shot_step lineup_intervals pt) shots []) as [|kv st] eqn:Hf;
    [discriminate|].
  intros Hrows; injection Hrows as <-.
  split.
  - intros r Hr; change (In r (map (fun '(pid, st) => rim_row pid st) (kv :: st))) in Hr.
    apply in_map_iff in Hr as ([pid c] & <- & Hin).
    apply (lookup_Z_In pid c _ Hnd) in Hin.
    destruct (Hc pid c Hin) as (H1 & H2 & H3).
    simpl; auto.
  - intros p t Hp Hpos.
    destruct (lookup_Z p (kv :: st)) as [c|] eqn:Hl; [|exfalso; apply (Hn p t Hp Hpos Hl)].
    apply (lookup_Z_In p c _ Hnd) in Hl.
    exists (rim_row p c); split; [|reflexivity].
    change (In (rim_row p c) (map (fun '(pid, st) => rim_row pid st) (kv :: st))).
    apply in_map_iff; exists (p, c); split; [reflexivity|exact Hl].
Qed.

(** ** C9: an invalid substitution is skipped *)

Lemma run_substitutions_app (team_ids : list (string * Z))
    (cur : list (string * list Z)) (l1 l2 : list Substitution) :
  run_substitutions team_ids cur (l1 ++ l2) =
  match run_substitutions team_ids cur l1 with
  | None => None
  | Some (cur1, rows1) =>
      match run_substitutions team_ids cur1 l2 with
      | None => None
      | Some (cur2, rows2) => Some (cur2, rows1 ++ rows2)
      end
  end.
Proof.
  revert cur; induction l1 as [|s l1 IH]; intros cur; simpl.
  - destruct (run_substitutions team_ids cur l2) as [[c r]|]; reflexivity.
  - destruct (apply_substitution team_ids cur s) as [[c1 r1]|]; [|reflexivity].
    rewrite IH.
    destruct (run_substitutions team_ids c1 l1) as [[c2 r2]|]; [|reflexivity].
    destruct (run_substitutions team_ids c2 l2) as [[c3 r3]|]; [|reflexivity].
    rewrite app_assoc; reflexivity.
Qed.

(** C9.  If, when the substitution [s] is reached in the loop over a
    period's substitutions, its team's on-court set does not hold the
    outgoing player or already holds the incoming one, then applying it
    succeeds, leaves every team's on-court set unchanged and emits no
    lineup row; and running the loop on the events with [s] gives the same
    result (final on-court sets, emitted rows, or error) as running it
    with [s] removed. *)
Theorem invalid_substitution_skipped (team_ids : list (string * Z))
    (cur : list (string * list Z)) (pre post : list Substitution) (s : Substitution)
    (cur1 : list (string * list Z)) (rows1 : list LineupState) (players : list Z) :
  run_substitutions team_ids cur pre = Some (cur1, rows1) ->
  lookup_str (su_team s) cur1 = Some players ->
  ~ In (su_player_out s) players \/ In (su_player_in s) players ->
  apply_substitution team_ids cur1 s = Some (cur1, []) /\
  run_substitutions team_ids cur (pre ++ s :: post) =
  run_substitutions team_ids cur (pre ++ post).
Proof.
  intros Hpre Hl Hinv.
  assert (Happ : apply_substitution team_ids cur1 s = Some (cur1, [])).
  { unfold apply_substitution; rewrite Hl.
    destruct (memZ (su_player_out s) players) eqn:Eo; simpl; [|reflexivity].
    destruct (memZ (su_player_in s) players) eqn:Ei; [reflexivity|].
    apply memZ_In in Eo.
    destruct Hinv as [H|H]; [contradiction|].
    apply memZ_In in H; congruence. }
  split; [exact Happ|].
  rewrite !run_substitutions_app, Hpre; simpl; rewrite Happ.
  destruct (run_substitutions team_ids cur1 post) as [[c2 r2]|]; reflexivity.
Qed.

(** ** C5: every observed unit appears once, with zero-filled sides *)

Lemma zlist_eqb_eq (a b : list Z) : zlist_eqb a b = true <-> a = b.
Proof.
  revert b; induction a as [|x a IH]; intros [|y b]; simpl;
    try (split; [discriminate|congruence]).
  - split; reflexivity.
  - rewrite andb_true_iff, Z.eqb_eq, IH; split; [intros [-> ->]; reflexivity|].
    intros H; injection H as -> ->; split; reflexivity.
Qed.

Lemma key_eqb_eq (a b : LineupKey) : key_eqb a b = true <-> a = b.
Proof.
  destruct a as [ta pa], b as [tb pb]; unfold key_eqb; simpl.
  rewrite andb_true_iff, String.eqb_eq, zlist_eqb_eq; split.
  - intros [-> ->]; reflexivity.
  - intros H; injection H as -> ->; split; reflexivity.
Qed.

Lemma unique_key_In (l : list LineupKey) (y : LineupKey) :
  In y (unique_key l) <-> In y l.
Proof.
  induction l as [|x t IH]; simpl; [tauto|].
  rewrite filter_In, <- IH, negb_true_iff.
  destruct (key_eqb y x) eqn:E.
  - apply key_eqb_eq in E; subst; split; [intros [H|[H _]]; auto|intros _; left; reflexivity].
  - split; [intros [H|[H _]]; auto|intros [H|H]; auto].
Qed.

Lemma unique_key_NoDup (l : list LineupKey) : NoDup (unique_key l).
Proof.
  induction l as [|x t IH]; simpl; constructor.
  - rewrite filter_In, negb_true_iff; intros [_ H].
    assert (key_eqb x x = true) by (apply key_eqb_eq; reflexivity); congruence.
  - apply NoDup_filter, IH.
Qed.

Lemma existsb_key_In (k : LineupKey) (l : list LineupKey) :
  existsb (key_eqb k) l = true <-> In k l.
Proof.
  rewrite existsb_exists; split.
  - intros (x & Hx & E); apply key_eqb_eq in E; subst; exact Hx.
  - intros H; exists k; split; [exact H|apply key_eqb_eq; reflexivity].
Qed.

Lemma lookup_key_map {A : Type} (g : LineupKey -> LineupKey * A) (ks : list LineupKey)
    (k : LineupKey) :
  (forall x, fst (g x) = x) ->
  lookup_key k (map g ks) = if existsb (key_eqb k) ks then Some (snd (g k)) else None.
Proof.
  intros Hg; induction ks as [|a ks IH]; simpl; [reflexivity|].
  destruct (g a) as [a' v] eqn:Ega.
  assert (a' = a) by (rewrite <- (Hg a), Ega; reflexivity); subst a'.
  destruct (key_eqb k a) eqn:E; simpl; [|exact IH].
  apply key_eqb_eq in E; subst a; rewrite Ega; reflexivity.
Qed.

Lemma filter_key_absent (keyf : LineupPossRow -> LineupKey) (rows : list LineupPossRow)
    (k : LineupKey) :
  ~ In k (map keyf rows) -> filter (fun r => key_eqb (keyf r) k) rows = [].
Proof.
  induction rows as [|r rows IH]; simpl; intros Hn; [reflexivity|].
  destruct (key_eqb (keyf r) k) eqn:E.
  - apply key_eqb_eq in E; exfalso; apply Hn; left; exact E.
  - apply IH; intros H; apply Hn; right; exact H.
Qed.

(** Looking a key up in a grouping, with the merge's zero fill, gives the
    count and points sum of the key's rows. *)
Lemma group_stats_default (keyf : LineupPossRow -> LineupKey) (rows : list LineupPossRow)
    (k : LineupKey) :
  match lookup_key k (group_stats keyf rows) with Some v => v | None => (0, 0) end =
  (side_count keyf rows k, side_points keyf rows k).
Proof.
  unfold group_stats; rewrite lookup_key_map by reflexivity.
  destruct (existsb (key_eqb k) (stable_sort key_leb (unique_key (map keyf rows)))) eqn:E;
    [reflexivity|].
  assert (Hn : ~ In k (map keyf rows)).
  { intros H; rewrite <- unique_key_In, <- (In_stable_sort key_leb), <- existsb_key_In in H.
    congruence. }
  unfold side_count, side_points; rewrite (filter_key_absent keyf rows k Hn); reflexivity.
Qed.

Lemma group_stats_keys (keyf : LineupPossRow -> LineupKey) (rows : list LineupPossRow) :
  map fst (group_stats keyf rows) = stable_sort key_leb (unique_key (map keyf rows)).
Proof. unfold group_stats; rewrite map_map; simpl; apply map_id. Qed.

Lemma Permutation_filter_length {A : Type} (P : A -> bool) (l l' : list A) :
  Permutation l l' -> List.length (filter P l) = List.length (filter P l').
Proof.
  induction 1; simpl.
  - reflexivity.
  - destruct (P x); simpl; congruence.
  - destruct (P x), (P y); reflexivity.
  - congruence.
Qed.

Lemma filter_key_eq_absent (ks : list LineupKey) (k : LineupKey) :
  ~ In k ks -> filter (fun x => key_eqb x k) ks = [].
Proof.
  induction ks as [|y ks IH]; simpl; intros Hn; [reflexivity|].
  destruct (key_eqb y k) eqn:E; [apply key_eqb_eq in E; subst; tauto|].
  apply IH; tauto.
Qed.

Lemma filter_key_NoDup_length (ks : list LineupKey) (k : LineupKey) :
  NoDup ks -> In k ks -> List.length (filter (fun x => key_eqb x k) ks) = 1%nat.
Proof.
  induction 1 as [|x ks Hni Hnd IH]; simpl; [intros []|].
  intros [<-|Hin].
  - rewrite (proj2 (key_eqb_eq x x) eq_refl), filter_key_eq_absent by exact Hni.
    reflexivity.
  - destruct (key_eqb x k) eqn:E; [apply key_eqb_eq in E; subst; contradiction|].
    apply IH, Hin.
Qed.


Lemma ratings_by_key (round1 : Q -> Q) (rows : list LineupPossRow) :
  map (calculate_final_ratings round1)
    (combine_offensive_defensive_stats (calculate_offensive_stats rows)
       (calculate_defensive_stats rows)) =
  map (fun k => calculate_final_ratings round1
                  {| cb_key := k; off_poss := side_count off_key rows k;
                     off_points := side_points off_key rows k;
                     def_poss := side_count def_key rows k;
                     def_points_allowed := side_points def_key rows k |})
    (stable_sort key_leb (unique_key (map fst (calculate_offensive_stats rows) ++
                                      map fst (calculate_defensive_stats rows)))).
Proof.
  unfold combine_offensive_defensive_stats; rewrite map_map; apply map_ext; intros k.
  unfold calculate_offensive_stats, calculate_defensive_stats.
  rewrite !group_stats_default; reflexivity.
Qed.

Lemma merged_keys_In (rows : list LineupPossRow) (k : LineupKey) :
  In k (stable_sort key_leb (unique_key (map fst (calculate_offensive_stats rows) ++
                                         map fst (calculate_defensive_stats rows))))
  <-> In k (observed_units rows).
Proof.
  unfold calculate_offensive_stats, calculate_defensive_stats, observed_units.
  rewrite In_stable_sort, unique_key_In, !in_app_iff, !group_stats_keys,
    !In_stable_sort, !unique_key_In; reflexivity.
Qed.

(** C5.  For every possession-lineup table and every rounding function
    [round1] standing for [round(1)]: each unit seen on offense or on
    defense has exactly one row in the output of
    [calculate_lineup_ratings], and every output row is such a unit; each
    row's possession counts are the unit's numbers of offensive and
    defensive rows (0 for a side where the unit never appears), and its
    ratings are [round1] of [points / poss * 100] (0 when [poss = 0]) on
    each side, and [round1] of the difference of the two unrounded
    ratings for the net rating. *)
Theorem calculate_lineup_ratings_units (round1 : Q -> Q) (rows : list LineupPossRow) :
  (forall k, In k (observed_units rows) ->
     List.length (filter (fun r => key_eqb (rating_key r) k)
                    (calculate_lineup_ratings round1 rows)) = 1%nat) /\
  (forall r, In r (calculate_lineup_ratings round1 rows) ->
     In (rating_key r) (observed_units rows) /\
     rt_off_poss r = side_count off_key rows (rating_key r) /\
     rt_def_poss r = side_count def_key rows (rating_key r) /\
     off_rating r = round1 (raw_rating (side_points off_key rows (rating_key r)) (rt_off_poss r)) /\
     def_rating r = round1 (raw_rating (side_points def_key rows (rating_key r)) (rt_def_poss r)) /\
     net_rating r = round1 (raw_rating (side_points off_key rows (rating_key r)) (rt_off_poss r)
                            - raw_rating (side_points def_key rows (rating_key r))
                                (rt_def_poss r))%Q).
Proof.
  set (keysC := stable_sort key_leb (unique_key (map fst (calculate_offensive_stats rows) ++
                                                 map fst (calculate_defensive_stats rows)))).
  set (G := fun k => calculate_final_ratings round1
                  {| cb_key := k; off_poss := side_count off_key rows k;
                     off_points := side_points off_key rows k;
                     def_poss := side_count def_key rows k;
                     def_points_allowed := side_points def_key rows k |}).
  assert (Hperm : Permutation (calculate_lineup_ratings round1 rows) (map G keysC)).
  { unfold calculate_lineup_ratings, G, keysC.
    destruct rows as [|r0 rs]; [simpl; constructor|].
    rewrite <- (ratings_by_key round1 (r0 :: rs)); apply stable_sort_perm. }
  assert (Hnd : NoDup keysC).
  { eapply Permutation_NoDup; [symmetry; apply stable_sort_perm|apply unique_key_NoDup]. }
  assert (HG : forall k, rating_key (G k) = k) by (intros [t ps]; reflexivity).
  split.
  - intros k Hk.
    assert (Hf : forall l, List.length (filter (fun r => key_eqb (rating_key r) k) (map G l))
                           = List.length (filter (fun x => key_eqb x k) l)).
    { induction l as [|x l IH]; simpl; [reflexivity|].
      rewrite HG; destruct (key_eqb x k); simpl; congruence. }
    rewrite (Permutation_filter_length _ _ _ Hperm), Hf.
    apply filter_key_NoDup_length; [exact Hnd|].
    apply merged_keys_In, Hk.
  - intros r Hr.
    apply (Permutation_in _ Hperm), in_map_iff in Hr as (k & <- & Hk).
    rewrite HG; split; [apply merged_keys_In, Hk|].
    repeat split; reflexivity.
Qed.

(** ** Theorems on concrete inputs *)

Lemma find_lineup_at_time_resolves_witness :
  (exists r, In r c2_lineups /\ ls_team_id r = 1 /\ ls_period r = 1) /\
  exists found, find_lineup_at_time c2_lineups 1 800 1 = Some found /\
                ls_game_clock_seconds found = 600.
Proof.
  assert (H : exists r, In r c2_lineups /\ ls_team_id r = 1 /\ ls_period r = 1).
  { eexists; split; [left; reflexivity | split; reflexivity]. }
  split; [exact H|].
  destruct (find_lineup_at_time_resolves c2_lineups 1 800 1 H) as (found & Hf & _).
  exists found; split; [exact Hf|].
  vm_compute in Hf; injection Hf as <-; reflexivity.
Defined.

Lemma extract_possessions_offense_defense_witness :
  exists ps, extract_possessions two_period_pbp = Some ps /\
    Forall (fun x => off_team x <> def_team x) ps /\ chain next_possession_teams ps.
Proof.
  exists (match extract_possessions two_period_pbp with Some ps => ps | None => [] end).
  assert (H : extract_possessions two_period_pbp =
              Some (match extract_possessions two_period_pbp with
                    | Some ps => ps | None => [] end)) by (vm_compute; reflexivity).
  split; [exact H|].
  exact (extract_possessions_offense_defense two_period_pbp _ H).
Defined.

Lemma extract_possessions_ids_chronological_witness :
  exists ps, extract_possessions two_period_pbp = Some ps /\ List.length ps = 6%nat /\
    map possession_id ps = zseq 1 (List.length ps) /\ chain next_possession_later ps.
Proof.
  exists (match extract_possessions two_period_pbp with Some ps => ps | None => [] end).
  assert (H : extract_possessions two_period_pbp =
              Some (match extract_possessions two_period_pbp with
                    | Some ps => ps | None => [] end)) by (vm_compute; reflexivity).
  split; [exact H|].
  split; [vm_compute; reflexivity|].
  exact (extract_possessions_ids_chronological two_period_pbp _ H).
Defined.

(** ** C1: the rim-defense differential when a bucket is empty *)

(** C1.  A defender with one made rim shot against the defender's team while on court
    and no rim shot while off court gets [rim_fga_off = 0] and a null
    off-court percentage, but the differential is not null: it is the
    on-court percentage 1 minus the substituted off-court quotient [0 / 1]. *)
Theorem rim_fg_pct_diff_not_null_at_zero_attempts :
  exists r, track_rim_defense rim_pbp rim_intervals = Some [r] /\
    rim_fga_on r = 1 /\ rim_fga_off r = 0 /\
    rim_fg_pct_on r = Some (1 # 1)%Q /\ rim_fg_pct_off r = None /\
    rim_fg_pct_diff r = Some (1 # 1)%Q.
Proof.
  eexists; split; [vm_compute; reflexivity|].
  repeat split; reflexivity.
Qed.

(** ** C3: the and-one look-ahead near the end of the stream *)

(** C3.  A made shot followed by a free throw of the same shooter at the
    same clock closes its own possession as [made_shot] when the free
    throw is the last event (the look-ahead is empty for the two last
    indices), so that the free throw closes a second possession; with one
    more event after the free throw, the made shot is deferred and only the
    free throw closes the possession. *)
Theorem and_one_deferral_depends_on_position :
  option_map (map end_type) (extract_possessions and_one_at_end_pbp)
    = Some [made_shot; free_throw] /\
  map en_end_type (identify_possession_endings (prepare_pbp_data and_one_mid_pbp))
    = [free_throw; period_end].
Proof. split; vm_compute; reflexivity. Qed.

(** ** C4: a starting unit of three players *)

(** C4.  With a box score in which [HOU] marks three starters, the
    lineups pipeline raises ([None]), while the players pipeline's
    [track_lineup_states] returns intervals, [HOU] having three players on
    court at the start of the game. *)
Theorem three_starters_not_rejected_by_court_time :
  extract_lineup_states box_three sub_pbp = None /\
  option_map (fun iv => on_court_at iv HOU_id 1000) (track_lineup_states box_three sub_pbp)
    = Some [101; 102; 103].
Proof. split; vm_compute; reflexivity. Qed.

(** ** C10: the two pipelines read a substitution's player fields apart *)

(** C10.  On the substitution [playerId1 = 106], [playerId2 = 105] of
    [HOU] (106 on the bench, 105 a starter), the lineups pipeline puts 106
    on court in place of 105, while the players pipeline keeps 105 on court
    and gives 106 no interval at all. *)
Theorem substitution_fields_disagree :
  option_map (fun '(cur, _) => lookup_str "HOU" cur) (extract_lineup_states box_five sub_pbp)
    = Some (Some [101; 102; 103; 104; 106]) /\
  option_map (fun iv => on_court_at iv HOU_id 1100) (track_lineup_states box_five sub_pbp)
    = Some [101; 102; 103; 104; 105] /\
  option_map (fun iv => existsb (fun i => pi_playerId i =? 106) iv)
    (track_lineup_states box_five sub_pbp) = Some false.
Proof. repeat split; vm_compute; reflexivity. Qed.

Lemma track_rim_defense_buckets_witness :
  exists rows, track_rim_defense rim_pbp rim_intervals_two = Some rows /\
    List.length rows = 2%nat /\
    forall r, In r rows ->
      rim_fga_on r + rim_fga_off r = shots_against (rr_teamId r) (filter rs_is_rim_shot rim_pbp).
Proof.
  exists (match track_rim_defense rim_pbp rim_intervals_two with
          | Some rows => rows | None => [] end).
  assert (H : track_rim_defense rim_pbp rim_intervals_two =
              Some (match track_rim_defense rim_pbp rim_intervals_two with
                    | Some rows => rows | None => [] end)) by (vm_compute; reflexivity).
  split; [exact H|split; [vm_compute; reflexivity|]].
  intros r Hr.
  exact (proj1 (proj2 (proj1 (track_rim_defense_buckets rim_pbp rim_intervals_two _ H) r Hr))).
Defined.

Lemma invalid_substitution_skipped_witness :
  apply_substitution [("HOU"%string, HOU_id)] [("HOU"%string, [101; 102; 103; 104; 105])]
    {| su_period := 1; su_game_clock_seconds := 600; su_team := "HOU";
       su_player_in := 106; su_player_out := 201 |}
    = Some ([("HOU"%string, [101; 102; 103; 104; 105])], []) /\
  run_substitutions [("HOU"%string, HOU_id)] [("HOU"%string, [101; 102; 103; 104; 105])]
    ([] ++ {| su_period := 1; su_game_clock_seconds := 600; su_team := "HOU";
              su_player_in := 106; su_player_out := 201 |}
        :: [{| su_period := 1; su_game_clock_seconds := 500; su_team := "HOU";
               su_player_in := 106; su_player_out := 105 |}])
  = run_substitutions [("HOU"%string, HOU_id)] [("HOU"%string, [101; 102; 103; 104; 105])]
      ([] ++ [{| su_period := 1; su_game_clock_seconds := 500; su_team := "HOU";
                 su_player_in := 106; su_player_out := 105 |}]).
Proof.
  apply (invalid_substitution_skipped _ _ [] _ _ _ [] [101; 102; 103; 104; 105]).
  - reflexivity.
  - reflexivity.
  - left; simpl; intros H; repeat destruct H as [H|H]; try discriminate H; exact H.
Defined.

(* ------------------------------------------------------------------ *)
(** ** The lineup timeline keeps five distinct players per team *)

Lemma lookup_str_update {A : Type} (k t : string) (v : A) (m : list (string * A)) :
  lookup_str k (update_str t v m) = if String.eqb k t then Some v else lookup_str k m.
Proof.
  induction m as [|[k' v'] m IH]; simpl.
  - destruct (String.eqb k t); reflexivity.
  - destruct (String.eqb t k') eqn:E1; simpl.
    + apply String.eqb_eq in E1; subst; destruct (String.eqb k k'); reflexivity.
    + destruct (String.eqb k k') eqn:E2; [|exact IH].
      apply String.eqb_eq in E2; subst; rewrite String.eqb_sym, E1; reflexivity.
Qed.

Lemma lookup_str_In {A : Type} (k : string) (v : A) (m : list (string * A)) :
  lookup_str k m = Some v -> In (k, v) m.
Proof.
  induction m as [|[k' v'] m IH]; simpl; [discriminate|].
  destruct (String.eqb k k') eqn:E; [|intros H; right; apply IH, H].
  apply String.eqb_eq in E; subst; intros H; injection H as ->; left; reflexivity.
Qed.

Lemma filter_neq_notin (x : Z) (l : list Z) :
  ~ In x l -> filter (fun y => negb (y =? x)) l = l.
Proof.
  induction l as [|y t IH]; simpl; intros Hn; [reflexivity|].
  destruct (Z.eqb_spec y x); [subst; exfalso; apply Hn; left; reflexivity|].
  simpl; rewrite IH; [reflexivity|intros H; apply Hn; right; exact H].
Qed.

Lemma unique_Z_NoDup_eq (l : list Z) : NoDup l -> unique_Z l = l.
Proof.
  induction l as [|x t IH]; simpl; intros Hnd; [reflexivity|].
  inversion Hnd as [|? ? Hni Hnd']; subst.
  rewrite IH, filter_neq_notin; auto.
Qed.

Lemma filter_remove_length (x : Z) (l : list Z) :
  NoDup l -> In x l ->
  S (List.length (filter (fun p => negb (p =? x)) l)) = List.length l.
Proof.
  induction l as [|y t IH]; simpl; intros Hnd Hin; [contradiction|].
  inversion Hnd as [|? ? Hni Hnd']; subst.
  destruct (Z.eqb_spec y x) as [E|E]; simpl.
  - subst; rewrite filter_neq_notin; auto.
  - destruct Hin as [Hin|Hin]; [congruence|].
    rewrite IH; auto.
Qed.

Lemma stable_sort_strict (l : list Z) :
  NoDup l -> StronglySorted Z.lt (stable_sort Z.leb l).
Proof.
  intros Hnd0.
  pose proof (stable_sort_sorted Z.leb Zleb_total l) as Hs.
  pose proof (Permutation_NoDup (Permutation_sym (stable_sort_perm Z.leb l)) Hnd0) as Hnd.
  apply Sorted_StronglySorted in Hs;
    [|intros a b c Hab Hbc; apply Z.leb_le in Hab, Hbc; apply Z.leb_le; lia].
  revert Hnd; induction Hs as [|a t Hs IH Hall]; intros Hnd; constructor.
  - apply IH; inversion Hnd; auto.
  - inversion Hnd as [|? ? Hnotin Hnd']; subst.
    rewrite Forall_forall in *; intros y Hy.
    specialize (Hall y Hy); apply Z.leb_le in Hall.
    destruct (Z.eq_dec a y); [subst; contradiction|lia].
Qed.

Lemma stable_sort_length {A : Type} (leb : A -> A -> bool) (l : list A) :
  List.length (stable_sort leb l) = List.length l.
Proof. apply Permutation_length, stable_sort_perm. Qed.

Lemma extract_starting_lineups_five (box_score_df : list BoxRow)
    (sl : list (string * (list Z * Z))) :
  NoDup (map b_nbaId box_score_df) ->
  extract_starting_lineups box_score_df = Some sl ->
  forall t ps tid, In (t, (ps, tid)) sl -> NoDup ps /\ List.length ps = 5%nat.
Proof.
  unfold extract_starting_lineups; intros Hnd.
  set (starters := filter _ box_score_df).
  assert (Hst : NoDup (map b_nbaId starters)) by (apply NoDup_map_filter, Hnd).
  generalize (unique_str (map b_team starters)); intros teams.
  revert sl; induction teams as [|team teams IH]; simpl; intros sl Hsl.
  - injection Hsl as <-; intros t ps tid [].
  - set (ts := filter (fun r => String.eqb (b_team r) team) starters) in Hsl.
    assert (Hts : NoDup (map b_nbaId ts)) by (apply NoDup_map_filter, Hst).
    destruct ts as [|first rest] eqn:Ets; [discriminate|].
    destruct (Nat.eqb (List.length (map b_nbaId (first :: rest))) 5) eqn:E5;
      simpl in Hsl; [|discriminate].
    destruct (fold_right _ (Some []) teams) as [l|] eqn:Efold; [|discriminate].
    injection Hsl as <-; intros t ps tid [Heq|Hin].
    + injection Heq as _ Hps _; subst ps.
      change (NoDup (unique_Z (map b_nbaId (first :: rest))) /\
              List.length (unique_Z (map b_nbaId (first :: rest))) = 5%nat).
      rewrite (unique_Z_NoDup_eq _ Hts).
      split; [exact Hts|apply Nat.eqb_eq, E5].
    + exact (IH l eq_refl t ps tid Hin).
Qed.

Lemma apply_substitution_five (team_ids : list (string * Z))
    (cur cur' : list (string * list Z)) (sub : Substitution) (rows : list LineupState) :
  (forall t ps, lookup_str t cur = Some ps -> NoDup ps /\ List.length ps = 5%nat) ->
  apply_substitution team_ids cur sub = Some (cur', rows) ->
  (forall t ps, lookup_str t cur' = Some ps -> NoDup ps /\ List.length ps = 5%nat) /\
  (forall r, In r rows ->
     StronglySorted Z.lt (ls_players r) /\ List.length (ls_players r) = 5%nat).
Proof.
  unfold apply_substitution; intros Hinv Happ.
  destruct (lookup_str (su_team sub) cur) as [players|] eqn:El; [|discriminate].
  destruct (memZ (su_player_out sub) players) eqn:Eo; simpl in Happ;
    [|injection Happ as <- <-; split; [exact Hinv|intros r []]].
  destruct (memZ (su_player_in sub) players) eqn:Ei;
    [injection Happ as <- <-; split; [exact Hinv|intros r []]|].
  destruct (lookup_str (su_team sub) team_ids) as [tid|]; [|discriminate].
  injection Happ as <- <-.
  apply memZ_In in Eo.
  assert (Ei' : ~ In (su_player_in sub) players)
    by (intros H; apply memZ_In in H; congruence).
  destruct (Hinv _ _ El) as [Hnd Hlen].
  set (players' := filter (fun p => negb (p =? su_player_out sub)) players
                   ++ [su_player_in sub]).
  assert (Hnd' : NoDup players').
  { apply (Permutation_NoDup (Permutation_cons_append _ _)).
    constructor; [|apply NoDup_filter, Hnd].
    intros H; apply filter_In in H as [H _]; contradiction. }
  assert (Hlen' : List.length players' = 5%nat).
  { unfold players'; rewrite length_app; simpl.
    pose proof (filter_remove_length _ _ Hnd Eo); lia. }
  split.
  - intros t ps; rewrite lookup_str_update.
    destruct (String.eqb t (su_team sub)); [intros H; injection H as <-; auto|apply Hinv].
  - intros r [<-|[]]; simpl.
    split; [apply stable_sort_strict, Hnd'|rewrite stable_sort_length; exact Hlen'].
Qed.

Lemma run_substitutions_five (team_ids : list (string * Z))
    (subs : list Substitution) :
  forall (cur cur' : list (string * list Z)) (rows : list LineupState),
  (forall t ps, lookup_str t cur = Some ps -> NoDup ps /\ List.length ps = 5%nat) ->
  run_substitutions team_ids cur subs = Some (cur', rows) ->
  (forall t ps, lookup_str t cur' = Some ps -> NoDup ps /\ List.length ps = 5%nat) /\
  (forall r, In r rows ->
     StronglySorted Z.lt (ls_players r) /\ List.length (ls_players r) = 5%nat).
Proof.
  induction subs as [|s subs IH]; simpl; intros cur cur' rows Hinv Hrun.
  - injection Hrun as <- <-; split; [exact Hinv|intros r []].
  - destruct (apply_substitution team_ids cur s) as [[c1 r1]|] eqn:Ea; [|discriminate].
    destruct (run_substitutions team_ids c1 subs) as [[c2 r2]|] eqn:Er; [|discriminate].
    injection Hrun as <- <-.
    destruct (apply_substitution_five _ _ _ _ _ Hinv Ea) as [H1 R1].
    destruct (IH _ _ _ H1 Er) as [H2 R2].
    split; [exact H2|intros r Hr; apply in_app_or in Hr as [Hr|Hr]; auto].
Qed.

Lemma build_lineup_timeline_five (sl : list (string * (list Z * Z)))
    (substitutions : list Substitution) (pbp_df : list PlayRow)
    (cur : list (string * list Z)) (rows : list LineupState) :
  (forall t ps tid, In (t, (ps, tid)) sl -> NoDup ps /\ List.length ps = 5%nat) ->
  build_lineup_timeline sl substitutions pbp_df = Some (cur, rows) ->
  forall r, In r rows ->
    StronglySorted Z.lt (ls_players r) /\ List.length (ls_players r) = 5%nat.
Proof.
  unfold build_lineup_timeline; intros Hsl.
  set (teams := map fst sl); set (team_ids := map _ sl).
  set (f := fun (acc : option (list (string * list Z) * list LineupState)) (period : Z) => _).
  assert (Hgen : forall periods acc,
    match acc with
    | None => True
    | Some (c, tl) =>
        (forall t ps, lookup_str t c = Some ps -> NoDup ps /\ List.length ps = 5%nat) /\
        (forall r, In r tl ->
           StronglySorted Z.lt (ls_players r) /\ List.length (ls_players r) = 5%nat)
    end ->
    match fold_left f periods acc with
    | None => True
    | Some (c, tl) =>
        (forall t ps, lookup_str t c = Some ps -> NoDup ps /\ List.length ps = 5%nat) /\
        (forall r, In r tl ->
           StronglySorted Z.lt (ls_players r) /\ List.length (ls_players r) = 5%nat)
    end).
  { induction periods as [|p periods IH]; simpl; intros acc Hacc; [exact Hacc|].
    apply IH; clear IH.
    destruct acc as [[c tl]|]; unfold f; [|exact I].
    destruct Hacc as [Hc Htl].
    destruct (run_substitutions team_ids c _) as [[c' rs]|] eqn:Er; [|exact I].
    destruct (run_substitutions_five _ _ _ _ _ Hc Er) as [Hc' Hrs].
    split; [exact Hc'|].
    intros r Hr; apply in_app_or in Hr as [Hr|Hr]; [auto|].
    apply in_app_or in Hr as [Hr|Hr]; [|auto].
    apply in_flat_map in Hr as (team & _ & Hr).
    destruct (lookup_str team c) as [players|] eqn:Ep; [|contradiction].
    destruct (lookup_str team team_ids); [|contradiction].
    destruct Hr as [<-|[]]; simpl.
    destruct (Hc _ _ Ep) as [Hnd Hlen].
    split; [apply stable_sort_strict, Hnd|rewrite stable_sort_length; exact Hlen]. }
  intros Hb.
  specialize (Hgen (stable_sort Z.leb (unique_Z (map p_period pbp_df)))
                   (Some (map (fun '(t, (ps, _)) => (t, ps)) sl, []))).
  rewrite Hb in Hgen.
  apply Hgen; split; [|intros r []].
  intros t ps Hl; apply lookup_str_In, in_map_iff in Hl as ([t' [ps' tid]] & Heq & Hin).
  injection Heq as -> ->; exact (Hsl _ _ _ Hin).
Qed.

(** The lineups pipeline always shows five distinct players per row: when
    the box score lists each player once, every row of the lineup timeline
    built by [extract_lineup_states] (the starting row of each team in each
    period and the row after each applied substitution) holds exactly five
    player ids, in strictly increasing order. *)
Theorem extract_lineup_states_rows_five (box_score_df : list BoxRow)
    (pbp_df : list PlayRow) (cur : list (string * list Z)) (rows : list LineupState) :
  NoDup (map b_nbaId box_score_df) ->
  extract_lineup_states box_score_df pbp_df = Some (cur, rows) ->
  forall r, In r rows ->
    StronglySorted Z.lt (ls_players r) /\ List.length (ls_players r) = 5%nat.
Proof.
  unfold extract_lineup_states; intros Hnd He.
  destruct (extract_starting_lineups box_score_df) as [sl|] eqn:Es; [|discriminate].
  exact (build_lineup_timeline_five _ _ _ _ _ (extract_starting_lineups_five _ _ Hnd Es) He).
Qed.

Lemma extract_lineup_states_rows_five_witness :
  match extract_lineup_states box_five sub_pbp with
  | Some (cur, rows) =>
      List.length rows = 3%nat /\
      forall r, In r rows ->
        StronglySorted Z.lt (ls_players r) /\ List.length (ls_players r) = 5%nat
  | None => False
  end.
Proof.
  destruct (extract_lineup_states box_five sub_pbp) as [[cur rows]|] eqn:E;
    [|vm_compute in E; discriminate].
  split; [vm_compute in E; injection E as _ <-; reflexivity|].
  apply (extract_lineup_states_rows_five box_five sub_pbp cur rows); [|exact E].
  vm_compute; repeat constructor; simpl; intros H; repeat destruct H as [H|H];
    try discriminate H; exact H.
Defined.

(* ------------------------------------------------------------------ *)
(** ** The attribution join: lookup and matching *)

Lemma StronglySorted_filter {A : Type} (R : A -> A -> Prop) (f : A -> bool) (l : list A) :
  StronglySorted R l -> StronglySorted R (filter f l).
Proof.
  induction 1 as [|a t Hs IH Hall]; simpl; [constructor|].
  destruct (f a); [|exact IH].
  constructor; [exact IH|].
  rewrite Forall_forall in *; intros y Hy; apply filter_In in Hy as [Hy _]; auto.
Qed.

Lemma find_lineup_at_time_row (lineups_df : list LineupState)
    (period time_seconds team_id : Z) (found : LineupState) :
  find_lineup_at_time lineups_df period time_seconds team_id = Some found ->
  In found lineups_df /\ ls_team_id found = team_id /\ ls_period found = period.
Proof.
  unfold find_lineup_at_time.
  set (sel := fun r => (ls_team_id r =? team_id) && (ls_period r =? period)).
  set (leb := fun a b : LineupState =>
                ls_game_clock_seconds b <=? ls_game_clock_seconds a).
  assert (Hsel : forall x, In x (stable_sort leb (filter sel lineups_df)) ->
            In x lineups_df /\ ls_team_id x = team_id /\ ls_period x = period).
  { intros x Hx; apply (In_stable_sort leb), filter_In in Hx as [Hx Hs]; unfold sel in Hs.
    apply andb_true_iff in Hs as [H1 H2]; apply Z.eqb_eq in H1, H2; auto. }
  destruct (filter sel lineups_df) as [|f0 frest] eqn:Ef; [discriminate|].
  rewrite <- Ef in *.
  destruct (filter (fun r => time_seconds <=? ls_game_clock_seconds r)
              (stable_sort leb (filter sel lineups_df))) as [|a0 arest] eqn:Ea;
    intros Hf; apply Hsel.
  - apply last_opt_In, Hf.
  - apply last_opt_In in Hf; rewrite <- Ea in Hf; apply filter_In in Hf as [Hf _]; exact Hf.
Qed.

Lemma find_lineup_at_time_some (lineups_df : list LineupState)
    (period time_seconds team_id : Z) :
  has_lineup lineups_df period team_id = true ->
  exists found, find_lineup_at_time lineups_df period time_seconds team_id = Some found.
Proof.
  intros Hh.
  assert (Hne : filter (fun r => (ls_team_id r =? team_id) && (ls_period r =? period))
                  lineups_df <> []).
  { unfold has_lineup in Hh; apply existsb_exists in Hh as (r & Hr & Hs).
    intros Hnil; assert (Hin : In r (filter (fun r => (ls_team_id r =? team_id) &&
                                                      (ls_period r =? period)) lineups_df))
      by (apply filter_In; auto).
    rewrite Hnil in Hin; destruct Hin. }
  unfold find_lineup_at_time.
  set (leb := fun a b : LineupState =>
                ls_game_clock_seconds b <=? ls_game_clock_seconds a).
  assert (Hs : stable_sort leb (filter (fun r => (ls_team_id r =? team_id) &&
                                                 (ls_period r =? period)) lineups_df) <> []).
  { intros H; apply Hne, (stable_sort_nil leb), H. }
  destruct (filter _ lineups_df) as [|f0 frest] eqn:Ef; [congruence|].
  rewrite <- Ef in Hs |- *.
  destruct (filter (fun r => time_seconds <=? ls_game_clock_seconds r) _) as [|a0 arest].
  - apply last_opt_some, Hs.
  - apply last_opt_some; discriminate.
Qed.

Lemma find_lineup_at_time_none (lineups_df : list LineupState)
    (period time_seconds team_id : Z) :
  has_lineup lineups_df period team_id = false ->
  find_lineup_at_time lineups_df period time_seconds team_id = None.
Proof.
  intros Hh.
  destruct (find_lineup_at_time lineups_df period time_seconds team_id) as [f|] eqn:Ef;
    [|reflexivity].
  apply find_lineup_at_time_row in Ef as (Hin & Ht & Hp).
  unfold has_lineup in Hh.
  assert (existsb (fun r => (ls_team_id r =? team_id) && (ls_period r =? period))
            lineups_df = true) as Htrue.
  { apply existsb_exists; exists f; split; [exact Hin|rewrite Ht, Hp, !Z.eqb_refl; reflexivity]. }
  congruence.
Qed.

(** When the team has a lineup row in the period whose remaining clock is
    at or above the probe time, [find_lineup_at_time] returns the row of
    that team and period with the smallest remaining clock among those at
    or above the probe time: the latest lineup change at or before the
    moment the possession starts. *)
Theorem find_lineup_at_time_active (lineups_df : list LineupState)
    (period time_seconds team_id : Z) (r0 : LineupState) :
  In r0 lineups_df -> ls_team_id r0 = team_id -> ls_period r0 = period ->
  time_seconds <= ls_game_clock_seconds r0 ->
  exists found,
    find_lineup_at_time lineups_df period time_seconds team_id = Some found /\
    In found lineups_df /\ ls_team_id found = team_id /\ ls_period found = period /\
    time_seconds <= ls_game_clock_seconds found /\
    (forall r, In r lineups_df -> ls_team_id r = team_id -> ls_period r = period ->
       time_seconds <= ls_game_clock_seconds r ->
       ls_game_clock_seconds found <= ls_game_clock_seconds r).
Proof.
  intros Hin0 Ht0 Hp0 Hge0.
  unfold find_lineup_at_time.
  set (sel := fun r => (ls_team_id r =? team_id) && (ls_period r =? period)).
  set (leb := fun a b : LineupState =>
                ls_game_clock_seconds b <=? ls_game_clock_seconds a).
  set (act := fun r => time_seconds <=? ls_game_clock_seconds r).
  assert (Hsel_in : forall r, In r lineups_df -> ls_team_id r = team_id ->
            ls_period r = period -> In r (stable_sort leb (filter sel lineups_df))).
  { intros r Hr Ht Hp; apply (In_stable_sort leb), filter_In; split; [exact Hr|].
    unfold sel; rewrite Ht, Hp, !Z.eqb_refl; reflexivity. }
  assert (Hsel : forall x, In x (stable_sort leb (filter sel lineups_df)) ->
            In x lineups_df /\ ls_team_id x = team_id /\ ls_period x = period).
  { intros x Hx; apply (In_stable_sort leb), filter_In in Hx as [Hx Hs]; unfold sel in Hs.
    apply andb_true_iff in Hs as [H1 H2]; apply Z.eqb_eq in H1, H2; auto. }
  assert (Hact0 : In r0 (filter act (stable_sort leb (filter sel lineups_df)))).
  { apply filter_In; split; [apply Hsel_in; assumption|unfold act; apply Z.leb_le, Hge0]. }
  assert (Hsorted : StronglySorted (fun a b => leb a b = true)
                      (filter act (stable_sort leb (filter sel lineups_df)))).
  { apply StronglySorted_filter, Sorted_StronglySorted.
    - unfold leb; intros a b c Hab Hbc; apply Z.leb_le in Hab, Hbc; apply Z.leb_le; lia.
    - apply stable_sort_sorted.
      unfold leb; intros a b Hab; apply Z.leb_gt in Hab; apply Z.leb_le; lia. }
  destruct (filter sel lineups_df) as [|f0 frest] eqn:Ef.
  { simpl in Hact0; destruct Hact0. }
  rewrite <- Ef in *.
  destruct (filter act (stable_sort leb (filter sel lineups_df))) as [|a0 arest] eqn:Ea;
    [destruct Hact0|].
  rewrite <- Ea in *.
  destruct (last_opt_some (filter act (stable_sort leb (filter sel lineups_df))))
    as [found Hfound]; [rewrite Ea; discriminate|].
  exists found; rewrite Hfound.
  pose proof (last_opt_In _ _ Hfound) as Hin.
  apply filter_In in Hin as [Hin Hge]; unfold act in Hge; apply Z.leb_le in Hge.
  destruct (Hsel _ Hin) as (H1 & H2 & H3).
  repeat split; auto.
  intros r Hr Hrt Hrp Hrge.
  assert (Hra : In r (filter act (stable_sort leb (filter sel lineups_df)))).
  { apply filter_In; split; [apply Hsel_in; assumption|unfold act; apply Z.leb_le, Hrge]. }
  apply Z.leb_le.
  refine (last_opt_sorted_max (fun a b => leb a b = true) _ found _ _ _ Hfound r Hra).
  - unfold leb; intros a b c Hab Hbc; apply Z.leb_le in Hab, Hbc; apply Z.leb_le; lia.
  - unfold leb; intros a; apply Z.leb_refl.
  - apply StronglySorted_Sorted, Hsorted.
Qed.

Lemma sumZ_perm (l l' : list Z) :
  Permutation l l' -> fold_right Z.add 0 l = fold_right Z.add 0 l'.
Proof. induction 1; simpl; lia. Qed.

Lemma match_lineups_to_possessions_perm (lineup_states_df : list LineupState)
    (possessions_df : list Possession) :
  Permutation (match_lineups_to_possessions lineup_states_df possessions_df)
    (flat_map (fun poss =>
        match find_lineup_at_time lineup_states_df (po_period poss)
                (start_time_seconds poss) (off_team poss),
              find_lineup_at_time lineup_states_df (po_period poss)
                (start_time_seconds poss) (def_team poss) with
        | Some off_lineup, Some def_lineup =>
            [create_possession_record poss off_lineup def_lineup]
        | _, _ => []
        end) possessions_df).
Proof.
  unfold match_lineups_to_possessions.
  destruct possessions_df as [|p0 ps]; [constructor|].
  destruct lineup_states_df as [|l0 ls].
  - simpl; clear p0; induction ps as [|p ps IH]; [constructor|exact IH].
  - destruct (flat_map _ (p0 :: ps)) as [|x xs] eqn:E; [constructor|].
    rewrite <- E; apply stable_sort_perm.
Qed.

Lemma match_lineups_to_possessions_sorted (lineup_states_df : list LineupState)
    (possessions_df : list Possession) :
  Sorted (fun a b => lpo_possession_id a <= lpo_possession_id b)
    (match_lineups_to_possessions lineup_states_df possessions_df).
Proof.
  unfold match_lineups_to_possessions.
  destruct possessions_df as [|p0 ps]; [constructor|].
  destruct lineup_states_df as [|l0 ls]; [constructor|].
  destruct (flat_map _ (p0 :: ps)) as [|x xs]; [constructor|].
  unfold clean_output_data.
  apply (Sorted_mono (fun a b => (lpo_possession_id a <=? lpo_possession_id b) = true));
    [intros a b H; apply Z.leb_le, H|].
  apply stable_sort_sorted.
  intros a b H; apply Z.leb_gt in H; apply Z.leb_le; lia.
Qed.

Lemma match_results_kept (lineup_states_df : list LineupState) (possessions_df : list Possession) :
  map (fun o => (lpo_possession_id o, lpo_points_scored o))
    (flat_map (fun poss =>
        match find_lineup_at_time lineup_states_df (po_period poss)
                (start_time_seconds poss) (off_team poss),
              find_lineup_at_time lineup_states_df (po_period poss)
                (start_time_seconds poss) (def_team poss) with
        | Some off_lineup, Some def_lineup =>
            [create_possession_record poss off_lineup def_lineup]
        | _, _ => []
        end) possessions_df) =
  map (fun p => (possession_id p, points_scored p))
    (filter (fun p => has_lineup lineup_states_df (po_period p) (off_team p) &&
                      has_lineup lineup_states_df (po_period p) (def_team p)) possessions_df).
Proof.
  induction possessions_df as [|p ps IH]; simpl; [reflexivity|].
  destruct (has_lineup lineup_states_df (po_period p) (off_team p)) eqn:Ho.
  - destruct (find_lineup_at_time_some _ _ (start_time_seconds p) _ Ho) as [lo Hlo].
    rewrite Hlo.
    destruct (has_lineup lineup_states_df (po_period p) (def_team p)) eqn:Hd; simpl.
    + destruct (find_lineup_at_time_some _ _ (start_time_seconds p) _ Hd) as [ld Hld].
      rewrite Hld; simpl; rewrite IH; reflexivity.
    + rewrite (find_lineup_at_time_none _ _ _ _ Hd); exact IH.
  - rewrite (find_lineup_at_time_none _ _ _ _ Ho); exact IH.
Qed.

(** Every row of the possession-lineup table is the record of one input
    possession joined with two rows of the lineup-states table: the row
    [find_lineup_at_time] picks for the offensive team and the one it picks
    for the defensive team, both of the possession's period; the row keeps
    the possession's id, period, times, points and team ids, and takes the
    team names and players from those two lineup rows. *)
Theorem match_lineups_to_possessions_rows (lineup_states_df : list LineupState)
    (possessions_df : list Possession) (o : LineupPossession) :
  In o (match_lineups_to_possessions lineup_states_df possessions_df) ->
  exists poss off_lineup def_lineup,
    In poss possessions_df /\
    o = create_possession_record poss off_lineup def_lineup /\
    find_lineup_at_time lineup_states_df (po_period poss) (start_time_seconds poss)
      (off_team poss) = Some off_lineup /\
    find_lineup_at_time lineup_states_df (po_period poss) (start_time_seconds poss)
      (def_team poss) = Some def_lineup /\
    In off_lineup lineup_states_df /\ ls_team_id off_lineup = off_team poss /\
    ls_period off_lineup = po_period poss /\
    In def_lineup lineup_states_df /\ ls_team_id def_lineup = def_team poss /\
    ls_period def_lineup = po_period poss.
Proof.
  intros Ho.
  apply (Permutation_in _ (match_lineups_to_possessions_perm _ _)), in_flat_map in Ho
    as (poss & Hp & Ho).
  destruct (find_lineup_at_time lineup_states_df (po_period poss) (start_time_seconds poss)
              (off_team poss)) as [lo|] eqn:Elo; [|destruct Ho].
  destruct (find_lineup_at_time lineup_states_df (po_period poss) (start_time_seconds poss)
              (def_team poss)) as [ld|] eqn:Eld; [|destruct Ho].
  destruct Ho as [<-|[]].
  destruct (find_lineup_at_time_row _ _ _ _ _ Elo) as (H1 & H2 & H3).
  destruct (find_lineup_at_time_row _ _ _ _ _ Eld) as (H4 & H5 & H6).
  exists poss, lo, ld; repeat split; auto.
Qed.

(** The possession-lineup table is sorted by possession id, and holds
    exactly one row for each input possession whose offensive and
    defensive teams both have a lineup row in the possession's period, with
    the possession's id and points; every other possession is dropped. *)
Theorem match_lineups_to_possessions_kept (lineup_states_df : list LineupState)
    (possessions_df : list Possession) :
  Sorted (fun a b => lpo_possession_id a <= lpo_possession_id b)
    (match_lineups_to_possessions lineup_states_df possessions_df) /\
  Permutation
    (map (fun o => (lpo_possession_id o, lpo_points_scored o))
       (match_lineups_to_possessions lineup_states_df possessions_df))
    (map (fun p => (possession_id p, points_scored p))
       (filter (fun p => has_lineup lineup_states_df (po_period p) (off_team p) &&
                         has_lineup lineup_states_df (po_period p) (def_team p))
          possessions_df)).
Proof.
  split; [apply match_lineups_to_possessions_sorted|].
  rewrite <- match_results_kept; apply Permutation_map, match_lineups_to_possessions_perm.
Qed.

Lemma filter_all_true {A : Type} (f : A -> bool) (l : list A) :
  forallb f l = true -> filter f l = l.
Proof.
  induction l as [|x l IH]; simpl; [reflexivity|].
  intros H; apply andb_true_iff in H as [H1 H2]; rewrite H1, IH by exact H2; reflexivity.
Qed.

(** When every possession's offensive and defensive teams have a lineup
    row in its period, the join loses nothing: the table has one row per
    possession and the same total of points. *)
Theorem match_lineups_to_possessions_total (lineup_states_df : list LineupState)
    (possessions_df : list Possession) :
  forallb (fun p => has_lineup lineup_states_df (po_period p) (off_team p) &&
                    has_lineup lineup_states_df (po_period p) (def_team p)) possessions_df = true ->
  List.length (match_lineups_to_possessions lineup_states_df possessions_df) =
    List.length possessions_df /\
  fold_right Z.add 0 (map lpo_points_scored
                        (match_lineups_to_possessions lineup_states_df possessions_df)) =
    fold_right Z.add 0 (map points_scored possessions_df).
Proof.
  intros Hall.
  pose proof (Permutation_map (fun o => (lpo_possession_id o, lpo_points_scored o))
                (match_lineups_to_possessions_perm lineup_states_df possessions_df)) as Hp.
  rewrite match_results_kept, filter_all_true in Hp by exact Hall.
  split.
  - apply Permutation_length in Hp; rewrite !length_map in Hp; exact Hp.
  - apply (Permutation_map snd) in Hp; rewrite !map_map in Hp; simpl in Hp.
    apply sumZ_perm, Hp.
Qed.

Lemma find_lineup_at_time_active_witness :
  exists found, find_lineup_at_time join_lineups 1 690 10 = Some found /\
    ls_game_clock_seconds found = 690 /\ ls_players found = [101; 102; 103; 104; 106].
Proof.
  destruct (find_lineup_at_time_active join_lineups 1 690 10
              (ls_row 1 720 "HOU" 10 [101; 102; 103; 104; 105])
              (or_introl eq_refl) eq_refl eq_refl ltac:(simpl; lia))
    as (found & Hf & _).
  exists found; split; [exact Hf|].
  vm_compute in Hf; injection Hf as <-; split; reflexivity.
Defined.

Lemma match_lineups_to_possessions_rows_witness :
  List.length (match_lineups_to_possessions join_lineups join_possessions) = 6%nat /\
  exists o poss off_lineup def_lineup,
    In o (match_lineups_to_possessions join_lineups join_possessions) /\
    In poss join_possessions /\ o = create_possession_record poss off_lineup def_lineup /\
    ls_team_id off_lineup = off_team poss /\ ls_team_id def_lineup = def_team poss.
Proof.
  split; [vm_compute; reflexivity|].
  destruct (match_lineups_to_possessions join_lineups join_possessions) as [|o os] eqn:E;
    [vm_compute in E; discriminate|].
  assert (Ho : In o (match_lineups_to_possessions join_lineups join_possessions))
    by (rewrite E; left; reflexivity).
  destruct (match_lineups_to_possessions_rows join_lineups join_possessions o Ho)
    as (poss & lo & ld & Hp & Heq & _ & _ & _ & Hlo & _ & _ & Hld & _).
  exists o, poss, lo, ld; repeat split; auto.
  left; reflexivity.
Defined.

Lemma match_lineups_to_possessions_total_witness :
  forallb (fun p => has_lineup join_lineups (po_period p) (off_team p) &&
                    has_lineup join_lineups (po_period p) (def_team p)) join_possessions = true /\
  List.length join_possessions = 6%nat /\
  List.length (match_lineups_to_possessions join_lineups join_possessions) =
    List.length join_possessions /\
  fold_right Z.add 0 (map lpo_points_scored
                        (match_lineups_to_possessions join_lineups join_possessions)) =
    fold_right Z.add 0 (map points_scored join_possessions).
Proof.
  assert (H : forallb (fun p => has_lineup join_lineups (po_period p) (off_team p) &&
                                has_lineup join_lineups (po_period p) (def_team p))
                join_possessions = true) by (vm_compute; reflexivity).
  split; [exact H|split; [vm_compute; reflexivity|]].
  exact (match_lineups_to_possessions_total join_lineups join_possessions H).
Defined.

(* ------------------------------------------------------------------ *)
(** ** Possession counts through the ratings table *)

Lemma calculate_lineup_ratings_perm (round1 : Q -> Q) (rows : list LineupPossRow) :
  Permutation (calculate_lineup_ratings round1 rows)
    (map (fun k => calculate_final_ratings round1
                     {| cb_key := k; off_poss := side_count off_key rows k;
                        off_points := side_points off_key rows k;
                        def_poss := side_count def_key rows k;
                        def_points_allowed := side_points def_key rows k |})
       (stable_sort key_leb (unique_key (map fst (calculate_offensive_stats rows) ++
                                         map fst (calculate_defensive_stats rows))))).
Proof.
  unfold calculate_lineup_ratings.
  destruct rows as [|r0 rs]; [simpl; constructor|].
  rewrite <- (ratings_by_key round1 (r0 :: rs)); apply stable_sort_perm.
Qed.

Lemma merged_keys_NoDup (rows : list LineupPossRow) :
  NoDup (stable_sort key_leb (unique_key (map fst (calculate_offensive_stats rows) ++
                                          map fst (calculate_defensive_stats rows)))).
Proof.
  eapply Permutation_NoDup; [symmetry; apply stable_sort_perm|apply unique_key_NoDup].
Qed.

Lemma side_count_cons (keyf : LineupPossRow -> LineupKey) (r : LineupPossRow)
    (rows : list LineupPossRow) (k : LineupKey) :
  side_count keyf (r :: rows) k = (if key_eqb (keyf r) k then 1 else 0) + side_count keyf rows k.
Proof.
  unfold side_count; simpl filter.
  destruct (key_eqb (keyf r) k); [simpl List.length; rewrite Nat2Z.inj_succ|]; lia.
Qed.

Lemma sumZ_map_add {A : Type} (f g : A -> Z) (l : list A) :
  fold_right Z.add 0 (map (fun x => f x + g x) l) =
  fold_right Z.add 0 (map f l) + fold_right Z.add 0 (map g l).
Proof. induction l as [|x l IH]; simpl; lia. Qed.

Lemma sum_indicator_absent (ks : list LineupKey) (x : LineupKey) :
  ~ In x ks -> fold_right Z.add 0 (map (fun k => if key_eqb x k then 1 else 0) ks) = 0.
Proof.
  induction ks as [|k ks IH]; simpl; intros Hn; [reflexivity|].
  destruct (key_eqb x k) eqn:E; [apply key_eqb_eq in E; subst; tauto|].
  rewrite IH; [reflexivity|tauto].
Qed.

Lemma sum_indicator_NoDup (ks : list LineupKey) (x : LineupKey) :
  NoDup ks -> In x ks ->
  fold_right Z.add 0 (map (fun k => if key_eqb x k then 1 else 0) ks) = 1.
Proof.
  induction 1 as [|k ks Hni Hnd IH]; simpl; [intros []|].
  intros [Heq|Hin].
  - subst k; rewrite (proj2 (key_eqb_eq x x) eq_refl), sum_indicator_absent by exact Hni.
    reflexivity.
  - destruct (key_eqb x k) eqn:E; [apply key_eqb_eq in E; subst; contradiction|].
    rewrite IH by exact Hin; reflexivity.
Qed.

Lemma sum_side_count (keyf : LineupPossRow -> LineupKey) (ks : list LineupKey)
    (rows : list LineupPossRow) :
  NoDup ks -> (forall r, In r rows -> In (keyf r) ks) ->
  fold_right Z.add 0 (map (side_count keyf rows) ks) = Z.of_nat (List.length rows).
Proof.
  intros Hnd; induction rows as [|r rows IH]; intros Hin.
  - clear Hin Hnd; unfold side_count; simpl.
    induction ks as [|k ks IHk]; simpl; [reflexivity|exact IHk].
  - rewrite (map_ext _ _ (side_count_cons keyf r rows)), sumZ_map_add.
    rewrite sum_indicator_NoDup by (auto; apply Hin; left; reflexivity).
    rewrite IH by (intros r' Hr'; apply Hin; right; exact Hr').
    simpl List.length; lia.
Qed.

Lemma ratings_poss_total (round1 : Q -> Q) (rows : list LineupPossRow) :
  fold_right Z.add 0 (map rt_off_poss (calculate_lineup_ratings round1 rows)) =
    Z.of_nat (List.length rows) /\
  fold_right Z.add 0 (map rt_def_poss (calculate_lineup_ratings round1 rows)) =
    Z.of_nat (List.length rows).
Proof.
  pose proof (calculate_lineup_ratings_perm round1 rows) as Hp.
  pose proof (merged_keys_NoDup rows) as Hnd.
  split.
  - rewrite (sumZ_perm _ _ (Permutation_map rt_off_poss Hp)), map_map; simpl.
    apply sum_side_count; [exact Hnd|].
    intros r Hr; apply merged_keys_In; unfold observed_units.
    apply in_or_app; left; apply in_map, Hr.
  - rewrite (sumZ_perm _ _ (Permutation_map rt_def_poss Hp)), map_map; simpl.
    apply sum_side_count; [exact Hnd|].
    intros r Hr; apply merged_keys_In; unfold observed_units.
    apply in_or_app; right; apply in_map, Hr.
Qed.

Lemma side_count_pos (keyf : LineupPossRow -> LineupKey) (rows : list LineupPossRow)
    (r : LineupPossRow) :
  In r rows -> 1 <= side_count keyf rows (keyf r).
Proof.
  intros Hr; unfold side_count.
  assert (Hf : In r (filter (fun x => key_eqb (keyf x) (keyf r)) rows)).
  { apply filter_In; split; [exact Hr|apply key_eqb_eq; reflexivity]. }
  destruct (filter _ rows); [destruct Hf|simpl; lia].
Qed.

Lemma ratings_row_poss_pos (round1 : Q -> Q) (rows : list LineupPossRow) (x : RatingRow) :
  In x (calculate_lineup_ratings round1 rows) -> 1 <= rt_off_poss x \/ 1 <= rt_def_poss x.
Proof.
  intros Hx.
  apply (Permutation_in _ (calculate_lineup_ratings_perm round1 rows)), in_map_iff in Hx
    as (k & <- & Hk); simpl.
  apply merged_keys_In in Hk; unfold observed_units in Hk.
  apply in_app_or in Hk as [Hk|Hk]; apply in_map_iff in Hk as (r & <- & Hr).
  - left; apply side_count_pos, Hr.
  - right; apply side_count_pos, Hr.
Qed.

(** Every possession row is counted once on offense and once on defense:
    over the rows of [calculate_lineup_ratings], the [off_poss] values and
    the [def_poss] values each add up to the number of rows of the
    possession-lineup table (for any rounding function). *)
Theorem calculate_lineup_ratings_poss_total (round1 : Q -> Q) (rows : list LineupPossRow) :
  fold_right Z.add 0 (map rt_off_poss (calculate_lineup_ratings round1 rows)) =
    Z.of_nat (List.length rows) /\
  fold_right Z.add 0 (map rt_def_poss (calculate_lineup_ratings round1 rows)) =
    Z.of_nat (List.length rows).
Proof. apply ratings_poss_total. Qed.

(** [get_lineup_summary] of the ratings table reports as [total_possessions]
    the number of rows of the possession-lineup table, and is the empty
    dict exactly when that table is empty. *)
Theorem get_lineup_summary_total_possessions (round1 : Q -> Q) (rows : list LineupPossRow) :
  option_map total_possessions (get_lineup_summary (calculate_lineup_ratings round1 rows)) =
  match rows with
  | [] => None
  | _ => Some (Z.of_nat (List.length rows))
  end.
Proof.
  destruct rows as [|r0 rs]; [reflexivity|].
  destruct (calculate_lineup_ratings round1 (r0 :: rs)) as [|x xs] eqn:E.
  - exfalso.
    pose proof (Permutation_length (calculate_lineup_ratings_perm round1 (r0 :: rs))) as Hl.
    rewrite E, length_map in Hl.
    assert (Hin : In (off_key r0)
                    (stable_sort key_leb
                       (unique_key (map fst (calculate_offensive_stats (r0 :: rs)) ++
                                    map fst (calculate_defensive_stats (r0 :: rs)))))).
    { apply merged_keys_In; unfold observed_units; left; reflexivity. }
    destruct (stable_sort key_leb _); [destruct Hin|discriminate].
  - change (Some (fold_right Z.add 0 (map rt_off_poss (x :: xs))) =
            Some (Z.of_nat (List.length (r0 :: rs)))).
    rewrite <- E; f_equal; apply ratings_poss_total.
Qed.

(** Every unit of the ratings table has at least one possession on offense
    or on defense, so [filter_lineups] with a threshold of at most 1 keeps
    the whole table. *)
Theorem filter_lineups_keeps_all (round1 : Q -> Q) (rows : list LineupPossRow)
    (min_possessions : Z) :
  min_possessions <= 1 ->
  filter_lineups (calculate_lineup_ratings round1 rows) min_possessions =
  calculate_lineup_ratings round1 rows.
Proof.
  intros Hmin; unfold filter_lineups.
  destruct (calculate_lineup_ratings round1 rows) as [|x xs] eqn:E; [reflexivity|].
  rewrite <- E; apply filter_all_true, forallb_forall; intros r Hr.
  destruct (ratings_row_poss_pos _ _ _ Hr) as [H|H]; apply orb_true_iff;
    [left|right]; apply Z.leb_le; lia.
Qed.

(** The lineups pipeline end to end from the join ([process_game_data],
    steps 4 and 5): the [off_poss] values of the ratings table built from
    the possession-lineup table add up to the number of possessions whose
    two teams have a lineup row in the possession's period, and so do the
    [def_poss] values. *)
Theorem lineup_pipeline_poss_total (round1 : Q -> Q) (lineup_states_df : list LineupState)
    (possessions_df : list Possession) :
  let ratings := calculate_lineup_ratings round1
                   (map ratings_columns
                      (match_lineups_to_possessions lineup_states_df possessions_df)) in
  let kept := filter (fun p => has_lineup lineup_states_df (po_period p) (off_team p) &&
                               has_lineup lineup_states_df (po_period p) (def_team p))
                possessions_df in
  fold_right Z.add 0 (map rt_off_poss ratings) = Z.of_nat (List.length kept) /\
  fold_right Z.add 0 (map rt_def_poss ratings) = Z.of_nat (List.length kept).
Proof.
  intros ratings kept.
  assert (Hl : List.length (map ratings_columns
                 (match_lineups_to_possessions lineup_states_df possessions_df)) =
               List.length kept).
  { pose proof (Permutation_length (Permutation_map
                  (fun o => (lpo_possession_id o, lpo_points_scored o))
                  (match_lineups_to_possessions_perm lineup_states_df possessions_df))) as H.
    rewrite match_results_kept, !length_map in H; rewrite length_map; exact H. }
  destruct (ratings_poss_total round1 (map ratings_columns
              (match_lineups_to_possessions lineup_states_df possessions_df))) as [H1 H2].
  unfold ratings; rewrite H1, H2, Hl; split; reflexivity.
Qed.

Lemma filter_lineups_keeps_all_witness :
  1 <= 1 /\
  List.length (calculate_lineup_ratings (fun q => q) join_rows) = 3%nat /\
  filter_lineups (calculate_lineup_ratings (fun q => q) join_rows) 1 =
  calculate_lineup_ratings (fun q => q) join_rows.
Proof.
  split; [lia|split; [vm_compute; reflexivity|]].
  apply (filter_lineups_keeps_all (fun q => q) join_rows 1); lia.
Defined.

(* ------------------------------------------------------------------ *)
(** ** Rim defense: makes never exceed attempts *)

Lemma In_update_Z {A : Type} (k : Z) (v : A) (m : list (Z * A)) (k' : Z) (v' : A) :
  In (k', v') (update_Z k v m) -> (k', v') = (k, v) \/ In (k', v') m.
Proof.
  induction m as [|[k0 v0] m IH]; simpl.
  - intros [H|[]]; left; symmetry; exact H.
  - destruct (k =? k0).
    + intros [H|H]; [left; symmetry; exact H|right; right; exact H].
    + intros [H|H]; [right; left; exact H|].
      destruct (IH H) as [H'|H']; [left; exact H'|right; right; exact H'].
Qed.

Lemma lookup_Z_some_In {A : Type} (k : Z) (v : A) (m : list (Z * A)) :
  lookup_Z k m = Some v -> In (k, v) m.
Proof.
  induction m as [|[k0 v0] m IH]; simpl; [discriminate|].
  destruct (Z.eqb_spec k k0); [subst; intros H; injection H as ->; left; reflexivity|].
  intros H; right; apply IH, H.
Qed.

Lemma count_rim_shot_fold_ok (made : bool) (onf : Z -> bool) (d : Z) (L : list Z) :
  forall st : list (Z * RimCounters),
  (forall k c, In (k, c) st ->
     0 <= on_makes c <= on_attempts c /\ 0 <= off_makes c <= off_attempts c) ->
  forall k c, In (k, c) (fold_left (fun st pid => count_rim_shot made (onf pid) d st pid) L st) ->
     0 <= on_makes c <= on_attempts c /\ 0 <= off_makes c <= off_attempts c.
Proof.
  induction L as [|pid L IH]; simpl; intros st Hst; [exact Hst|].
  apply IH; intros k c Hin.
  unfold count_rim_shot in Hin; apply In_update_Z in Hin as [Heq|Hin]; [|apply (Hst k c Hin)].
  injection Heq as _ Hceq; subst c.
  assert (Hc : forall c0 : RimCounters,
             0 <= on_makes c0 <= on_attempts c0 /\ 0 <= off_makes c0 <= off_attempts c0 ->
             0 <= on_makes (bump_counters made (onf pid) c0) <=
                  on_attempts (bump_counters made (onf pid) c0) /\
             0 <= off_makes (bump_counters made (onf pid) c0) <=
                  off_attempts (bump_counters made (onf pid) c0)).
  { intros c0 H; unfold bump_counters; destruct (onf pid), made; simpl; lia. }
  apply Hc.
  destruct (lookup_Z pid st) as [c0|] eqn:El.
  - exact (Hst _ _ (lookup_Z_some_In _ _ _ El)).
  - simpl; lia.
Qed.

Lemma rim_fold_ok (lineup_intervals : list PlayerInterval) (pt : list (Z * Z))
    (shots : list RimShotRow) :
  forall st : list (Z * RimCounters),
  (forall k c, In (k, c) st ->
     0 <= on_makes c <= on_attempts c /\ 0 <= off_makes c <= off_attempts c) ->
  forall k c, In (k, c) (fold_left (rim_shot_step lineup_intervals pt) shots st) ->
     0 <= on_makes c <= on_attempts c /\ 0 <= off_makes c <= off_attempts c.
Proof.
  induction shots as [|s shots IH]; simpl; intros st Hst; [exact Hst|].
  apply IH; unfold rim_shot_step.
  destruct (rs_offTeamId s), (rs_defTeamId s); try exact Hst.
  apply count_rim_shot_fold_ok, Hst.
Qed.

Lemma raw_pct_bounds (makes attempts : Z) :
  0 <= makes <= attempts -> (0 <= raw_pct makes attempts <= 1)%Q.
Proof.
  intros Hm; unfold raw_pct.
  destruct (Z.eqb_spec attempts 0) as [E|E].
  - replace makes with 0 by lia; split; unfold Qle; simpl; lia.
  - split.
    + apply Qle_shift_div_l; [unfold Qlt; simpl; lia|].
      rewrite Qmult_0_l; unfold Qle; simpl; lia.
    + apply Qle_shift_div_r; [unfold Qlt; simpl; lia|].
      rewrite Qmult_1_l; unfold Qle; simpl; lia.
Qed.

(** In every row of [track_rim_defense], each bucket has no more makes
    than attempts and no negative count; so every reported percentage lies
    in [[0, 1]] and the on/off differential in [[-1, 1]]. *)
Theorem track_rim_defense_pct_bounds (enhanced_pbp_df : list RimShotRow)
    (lineup_intervals : list PlayerInterval) (rows : list RimRow) :
  track_rim_defense enhanced_pbp_df lineup_intervals = Some rows ->
  forall r, In r rows ->
    0 <= rim_fgm_on r <= rim_fga_on r /\ 0 <= rim_fgm_off r <= rim_fga_off r /\
    (forall q, rim_fg_pct_on r = Some q -> 0 <= q <= 1)%Q /\
    (forall q, rim_fg_pct_off r = Some q -> 0 <= q <= 1)%Q /\
    (forall q, rim_fg_pct_diff r = Some q -> -1 <= q <= 1)%Q.
Proof.
  unfold track_rim_defense, calculate_rim_defense_stats.
  pose proof (rim_fold_ok lineup_intervals (get_player_team_mapping lineup_intervals)
                (filter rs_is_rim_shot enhanced_pbp_df) []
                ltac:(intros k c [])) as Hok.
  destruct (fold_left _ _ []) as [|kv st]; [discriminate|].
  intros Hrows; injection Hrows as <-; intros r Hr.
  change (In r (map (fun '(pid, st) => rim_row pid st) (kv :: st))) in Hr.
  apply in_map_iff in Hr as ([pid c] & <- & Hin).
  destruct (Hok _ _ Hin) as [Hon Hoff].
  pose proof (raw_pct_bounds _ _ Hon) as [Q1 Q2].
  pose proof (raw_pct_bounds _ _ Hoff) as [Q3 Q4].
  unfold rim_row; simpl.
  split; [lia|split; [lia|]].
  split; [|split; [|intros q H; injection H as <-; split; lra]].
  - destruct (0 <? on_attempts c); [intros q H; injection H as <-; split; assumption|discriminate].
  - destruct (0 <? off_attempts c); [intros q H; injection H as <-; split; assumption|discriminate].
Qed.

Lemma track_rim_defense_pct_bounds_witness :
  exists rows, track_rim_defense rim_pbp rim_intervals_two = Some rows /\
    List.length rows = 2%nat /\
    forall r, In r rows -> (forall q, rim_fg_pct_diff r = Some q -> -1 <= q <= 1)%Q.
Proof.
  exists (match track_rim_defense rim_pbp rim_intervals_two with
          | Some rows => rows | None => [] end).
  assert (H : track_rim_defense rim_pbp rim_intervals_two =
              Some (match track_rim_defense rim_pbp rim_intervals_two with
                    | Some rows => rows | None => [] end)) by (vm_compute; reflexivity).
  split; [exact H|split; [vm_compute; reflexivity|]].
  intros r Hr.
  exact (proj2 (proj2 (proj2 (proj2
           (track_rim_defense_pct_bounds rim_pbp rim_intervals_two _ H r Hr))))).
Defined.

(* ------------------------------------------------------------------ *)
(** ** Court time: an interval never ends in an earlier period *)

Lemma status_leb_iff (a b : StatusChange) :
  status_leb a b = true <->
  sc_period a < sc_period b \/
  (sc_period a = sc_period b /\
   (sc_wallClockInt a < sc_wallClockInt b \/
    (sc_wallClockInt a = sc_wallClockInt b /\
     action_rank (sc_action a) <= action_rank (sc_action b)))).
Proof.
  unfold status_leb.
  rewrite !orb_true_iff, !andb_true_iff, !orb_true_iff, !andb_true_iff,
    !Z.ltb_lt, !Z.eqb_eq, Z.leb_le.
  reflexivity.
Qed.

Lemma status_leb_total (a b : StatusChange) : status_leb a b = false -> status_leb b a = true.
Proof.
  intros H; apply status_leb_iff.
  assert (Hn : ~ (status_leb a b = true)) by congruence.
  rewrite status_leb_iff in Hn; lia.
Qed.

Lemma status_leb_trans (a b c : StatusChange) :
  status_leb a b = true -> status_leb b c = true -> status_leb a c = true.
Proof. rewrite !status_leb_iff; lia. Qed.

Lemma max_opt_ge (l : list Z) (x : Z) :
  In x l -> match max_opt l with Some m => x <= m | None => False end.
Proof.
  induction l as [|y l IH]; simpl; [tauto|].
  intros [<-|H].
  - destruct (max_opt l); lia.
  - specialize (IH H); destruct (max_opt l); [lia|contradiction].
Qed.

Lemma build_intervals_period_order (status_df : list StatusChange) (mp gw : Z) :
  StronglySorted (fun a b => status_leb a b = true) status_df ->
  (forall c, In c status_df -> sc_period c <= mp) ->
  forall iv, In iv (build_intervals_from_status_changes status_df mp gw) ->
    pi_period_start iv <= pi_period_end iv.
Proof.
  intros Hs HM; unfold build_intervals_from_status_changes.
  match goal with |- context [fold_left ?F _ _] => set (G := F) end.
  assert (Hgen : forall l entries intervals,
    StronglySorted (fun a b => status_leb a b = true) l ->
    (forall c, In c l -> sc_period c <= mp) ->
    (forall pid ep ew tid, In (pid, (ep, ew, tid)) entries ->
       ep <= mp /\ forall c, In c l -> ep <= sc_period c) ->
    (forall iv, In iv intervals -> pi_period_start iv <= pi_period_end iv) ->
    forall e' i', fold_left G l (entries, intervals) = (e', i') ->
    (forall pid ep ew tid, In (pid, (ep, ew, tid)) e' -> ep <= mp) /\
    (forall iv, In iv i' -> pi_period_start iv <= pi_period_end iv)).
  { induction l as [|c l IH]; intros entries intervals Hs' HM' He Hi e' i' Hf;
      [simpl in Hf|change (fold_left G l (G (entries, intervals) c) = (e', i')) in Hf].
    - injection Hf as <- <-; split; [|exact Hi].
      intros pid ep ew tid H; apply (He _ _ _ _ H).
    - inversion Hs' as [|? ? Hs'' Hall]; subst.
      rewrite Forall_forall in Hall.
      destruct (G (entries, intervals) c) as [e1 i1] eqn:Eg.
      apply (IH e1 i1 Hs'' (fun c' H => HM' c' (or_intror H))); [| |exact Hf].
      + intros pid ep ew tid Hin.
        unfold G in Eg; destruct (sc_action c).
        2: destruct (lookup_Z (sc_playerId c) entries) as [[[p0 w0] t0]|].
        all: injection Eg as <- <-.
        1, 4: apply In_update_Z in Hin as [Heq|Hin];
          [injection Heq as _ Hep _ _; subst ep;
           split; [apply HM'; left; reflexivity|];
           intros c' Hc'; pose proof (proj1 (status_leb_iff c c') (Hall c' Hc')); lia|].
        all: try (unfold delete_Z in Hin; apply filter_In in Hin as [Hin _]).
        all: destruct (He _ _ _ _ Hin) as [H1 H2]; split; [exact H1|].
        all: intros c' Hc'; apply H2; right; exact Hc'.
      + intros iv Hiv.
        unfold G in Eg; destruct (sc_action c).
        2: destruct (lookup_Z (sc_playerId c) entries) as [[[p0 w0] t0]|] eqn:El.
        all: injection Eg as <- <-; try (apply Hi, Hiv).
        apply in_app_or in Hiv as [Hiv|[<-|[]]]; [apply Hi, Hiv|simpl].
        apply lookup_Z_some_In in El.
        destruct (He _ _ _ _ El) as [_ H2]; apply H2; left; reflexivity. }
  destruct (fold_left G status_df ([], [])) as [entries intervals] eqn:Ef.
  destruct (Hgen status_df [] [] Hs HM ltac:(intros ? ? ? ? []) ltac:(intros ? [])
              entries intervals Ef) as [He Hi].
  intros iv Hiv; apply in_app_or in Hiv as [Hiv|Hiv]; [apply Hi, Hiv|].
  apply in_map_iff in Hiv as ([pid [[ep ew] tid]] & <- & Hin); simpl.
  apply (He _ _ _ _ Hin).
Qed.

(** No interval of the players pipeline's court-time tracker ends in a
    period before the one it starts in: every interval returned by
    [track_lineup_states] has [period_start <= period_end]. *)
Theorem track_lineup_states_period_order (box_score_df : list BoxRow)
    (pbp_df : list PlayRow) (intervals : list PlayerInterval) :
  track_lineup_states box_score_df pbp_df = Some intervals ->
  forall iv, In iv intervals -> pi_period_start iv <= pi_period_end iv.
Proof.
  unfold track_lineup_states.
  destruct (get_player_activities pbp_df) as [|a0 acts]; [discriminate|].
  destruct (substitution_changes _ _) as [sub_changes|]; [|discriminate].
  destruct (infer_reentries_from_activity _ _ _) as [inferred|]; [|discriminate].
  intros H; injection H as <-.
  apply build_intervals_period_order.
  - apply Sorted_StronglySorted; [exact status_leb_trans|].
    apply stable_sort_sorted, status_leb_total.
  - intros c Hc.
    pose proof (max_opt_ge _ _ (in_map sc_period _ _ Hc)) as Hm.
    destruct (max_opt _); [exact Hm|contradiction].
Qed.

Lemma track_lineup_states_period_order_witness :
  exists intervals, track_lineup_states box_five sub_pbp = Some intervals /\
    List.length intervals = 10%nat /\
    forall iv, In iv intervals -> pi_period_start iv <= pi_period_end iv.
Proof.
  exists (match track_lineup_states box_five sub_pbp with Some iv => iv | None => [] end).
  assert (H : track_lineup_states box_five sub_pbp =
              Some (match track_lineup_states box_five sub_pbp with
                    | Some iv => iv | None => [] end)) by (vm_compute; reflexivity).
  split; [exact H|split; [vm_compute; reflexivity|]].
  exact (track_lineup_states_period_order box_five sub_pbp _ H).
Defined.

(* ------------------------------------------------------------------ *)
(** ** Possessions: one possession per detected ending *)

Lemma period_possessions_end_keys (period : Z) (endings : list Ending) (pid s o d : Z) :
  map possession_end_key (period_possessions period endings pid s o d) =
  map ending_key endings.
Proof.
  revert pid s o d; induction endings as [|en t IH]; intros pid s o d; simpl;
    [reflexivity|].
  f_equal; destruct (_ || _); apply IH.
Qed.

Lemma period_block_end_keys (pbp_df : list Event) (endings_df : list Ending)
    (period pid : Z) (out : list Possession) :
  period_block pbp_df endings_df period pid = Some out ->
  Permutation (map possession_end_key out)
    (map ending_key (filter (fun en => en_period en =? period) endings_df)).
Proof.
  unfold period_block.
  destruct (period_max_clock pbp_df period) as [s|]; [|discriminate].
  destruct (find _ _) as [fe|]; [|discriminate].
  destruct (ev_offTeamId_clean fe) as [o|]; [|discriminate].
  destruct (stable_sort Z.leb _) as [|v0 rest]; [discriminate|].
  destruct (o =? v0); [destruct rest as [|v1 r']|]; [discriminate| |];
    intros Hout; injection Hout as <-;
    rewrite period_possessions_end_keys; apply Permutation_map, stable_sort_perm.
Qed.

Lemma filter_orb_disjoint {A : Type} (a b : A -> bool) (l : list A) :
  (forall x, In x l -> a x = true -> b x = true -> False) ->
  Permutation (filter (fun x => a x || b x) l) (filter a l ++ filter b l).
Proof.
  induction l as [|x t IH]; simpl; intros Hd; [constructor|].
  assert (IH' := IH (fun y Hy => Hd y (or_intror Hy))).
  destruct (a x) eqn:Ea, (b x) eqn:Eb; simpl.
  - exfalso; apply (Hd x (or_introl eq_refl) Ea Eb).
  - constructor; exact IH'.
  - eapply Permutation_trans; [apply perm_skip, IH'|apply Permutation_middle].
  - exact IH'.
Qed.

Lemma filter_periods_perm (endings : list Ending) (periods : list Z) :
  NoDup periods ->
  Permutation (flat_map (fun p => filter (fun en => en_period en =? p) endings) periods)
    (filter (fun en => existsb (Z.eqb (en_period en)) periods) endings).
Proof.
  induction periods as [|p rest IH]; intros Hnd; simpl.
  - induction endings as [|en t IHe]; simpl; [constructor|exact IHe].
  - inversion Hnd as [|? ? Hnin Hnd']; subst.
    eapply Permutation_trans; [apply Permutation_app_head, IH, Hnd'|].
    apply Permutation_sym, filter_orb_disjoint.
    intros en _ H1 H2; apply Z.eqb_eq in H1; apply existsb_exists in H2
      as (q & Hq & Heq); apply Z.eqb_eq in Heq; subst; apply Hnin; congruence.
Qed.

Lemma periods_possessions_end_keys (pbp_df : list Event) (endings_df : list Ending)
    (periods : list Z) (pid : Z) (out : list Possession) :
  periods_possessions pbp_df endings_df periods pid = Some out ->
  Permutation (map possession_end_key out)
    (map ending_key (flat_map (fun p => filter (fun en => en_period en =? p) endings_df)
                       periods)).
Proof.
  revert pid out; induction periods as [|p rest IH]; intros pid out; simpl.
  - intros H; injection H as <-; constructor.
  - destruct (period_block pbp_df endings_df p pid) as [block|] eqn:Eb; [|discriminate].
    destruct (periods_possessions pbp_df endings_df rest _) as [tail|] eqn:Et;
      [|discriminate].
    intros H; injection H as <-.
    rewrite !map_app; apply Permutation_app.
    + apply (period_block_end_keys _ _ _ _ _ Eb).
    + apply (IH _ _ Et).
Qed.

Lemma build_possession_timeline_end_keys (pbp_df : list Event) (endings_df : list Ending)
    (out : list Possession) :
  build_possession_timeline pbp_df endings_df = Some out ->
  Permutation (map possession_end_key out) (map ending_key endings_df).
Proof.
  unfold build_possession_timeline.
  destruct endings_df as [|en0 ens] eqn:Ee.
  - intros H; injection H as <-; constructor.
  - rewrite <- Ee; intros H.
    eapply Permutation_trans; [apply (periods_possessions_end_keys _ _ _ _ _ H)|].
    apply Permutation_map.
    set (periods := stable_sort Z.leb (unique_Z (map en_period endings_df))).
    assert (Hnd : NoDup periods).
    { apply (Permutation_NoDup (Permutation_sym (stable_sort_perm Z.leb _))),
        unique_Z_NoDup. }
    eapply Permutation_trans; [apply (filter_periods_perm _ _ Hnd)|].
    rewrite filter_all_true; [apply Permutation_refl|].
      apply forallb_forall; intros en Hen; apply existsb_exists.
      exists (en_period en); split; [|apply Z.eqb_refl].
      unfold periods; rewrite In_stable_sort, unique_Z_In; apply in_map, Hen.
Qed.

(** Each ending found by [_identify_possession_endings] becomes exactly one
    possession of [extract_possessions], which keeps its end type, its end
    clock and its play-by-play index: the two lists agree on these fields as
    multisets (nothing is dropped or duplicated). *)
Theorem extract_possessions_one_per_ending (pbp_df : list PbpRow) (ps : list Possession) :
  extract_possessions pbp_df = Some ps ->
  Permutation (map possession_end_key ps)
    (map ending_key (identify_possession_endings (prepare_pbp_data pbp_df))).
Proof.
  intros H; destruct (extract_possessions_timeline _ _ H) as (ts & Hts & ->).
  rewrite map_map.
  change (map (fun x => possession_end_key (possession_metrics (prepare_pbp_data pbp_df) x)) ts)
    with (map possession_end_key ts).
  apply (build_possession_timeline_end_keys _ _ _ Hts).
Qed.

Lemma extract_possessions_one_per_ending_witness :
  exists ps, extract_possessions two_period_pbp = Some ps /\
    List.length ps = 6%nat /\
    Permutation (map possession_end_key ps)
      (map ending_key (identify_possession_endings (prepare_pbp_data two_period_pbp))).
Proof.
  exists (match extract_possessions two_period_pbp with Some ps => ps | None => [] end).
  assert (H : extract_possessions two_period_pbp =
              Some (match extract_possessions two_period_pbp with
                    | Some ps => ps | None => [] end)) by (vm_compute; reflexivity).
  split; [exact H|split; [vm_compute; reflexivity|]].
  exact (extract_possessions_one_per_ending two_period_pbp _ H).
Defined.

(* ------------------------------------------------------------------ *)
(** ** Possessions: rebounds, turnovers and period ends always close *)

Lemma is_defensive_rebound_true (play : Event) (pbp_df : list Event) (idx : nat) :
  is_defensive_rebound play pbp_df idx = true.
Proof.
  unfold is_defensive_rebound.
  generalize (rev (firstn (idx - (idx - 5)) (skipn (idx - 5) pbp_df))) as l.
  induction l as [|prev t IH]; simpl; [reflexivity|].
  destruct (ev_msgType prev =? 2); [|exact IH].
  destruct (ev_offTeamId_clean play), (ev_offTeamId_clean prev); try reflexivity.
  destruct (negb _); reflexivity.
Qed.

Lemma identify_endings_from_closing (pbp_df rows : list Event) (idx k : nat) (e : Event) :
  nth_error rows k = Some e ->
  (ev_msgType e = 4 ->
     In (create_possession_ending e defensive_rebound (idx + k))
        (identify_endings_from pbp_df rows idx)) /\
  (ev_msgType e = 5 ->
     In (create_possession_ending e turnover (idx + k))
        (identify_endings_from pbp_df rows idx)) /\
  (ev_msgType e = 12 \/ ev_msgType e = 13 ->
     In (create_possession_ending e period_end (idx + k))
        (identify_endings_from pbp_df rows idx)).
Proof.
  revert idx k; induction rows as [|play t IH]; intros idx k Hk;
    [destruct k; discriminate|].
  destruct k as [|k].
  - simpl in Hk; injection Hk as <-.
    rewrite Nat.add_0_r; cbn [identify_endings_from].
    rewrite is_defensive_rebound_true.
    split; [|split]; intros Hm; [rewrite Hm; simpl; left; reflexivity|
                                 rewrite Hm; simpl; left; reflexivity|].
    destruct Hm as [Hm|Hm]; rewrite Hm; simpl; left; reflexivity.
  - simpl in Hk; destruct (IH (S idx) k Hk) as (H4 & H5 & H12).
    rewrite Nat.add_succ_comm in H4, H5, H12.
    assert (Hsub : forall x, In x (identify_endings_from pbp_df t (S idx)) ->
                     In x (identify_endings_from pbp_df (play :: t) idx)).
    { intros x Hx; cbn [identify_endings_from].
      repeat match goal with
             | |- In _ (if ?b then _ else _) => destruct b
             | |- In _ (_ :: _) => right
             end; exact Hx. }
    split; [|split]; intros Hm; apply Hsub; auto.
Qed.

(** [_is_defensive_rebound] answers [True] on every path, so every rebound
    event (msgType 4) closes a possession as a defensive rebound, whoever
    grabbed it; every turnover (msgType 5) and every period or game end
    (msgType 12 or 13) closes one as well, with the event's index as
    [pbp_idx]. *)
Theorem identify_possession_endings_always_close (pbp_df : list Event) (n : nat) (e : Event) :
  nth_error pbp_df n = Some e ->
  (ev_msgType e = 4 ->
     In (create_possession_ending e defensive_rebound n)
        (identify_possession_endings pbp_df)) /\
  (ev_msgType e = 5 ->
     In (create_possession_ending e turnover n) (identify_possession_endings pbp_df)) /\
  (ev_msgType e = 12 \/ ev_msgType e = 13 ->
     In (create_possession_ending e period_end n) (identify_possession_endings pbp_df)).
Proof.
  intros Hn; exact (identify_endings_from_closing pbp_df pbp_df 0 n e Hn).
Qed.

Lemma identify_possession_endings_always_close_witness :
  exists e, nth_error (prepare_pbp_data two_period_pbp) 4 = Some e /\
    ev_msgType e = 4 /\
    In (create_possession_ending e defensive_rebound 4)
       (identify_possession_endings (prepare_pbp_data two_period_pbp)).
Proof.
  exists (match nth_error (prepare_pbp_data two_period_pbp) 4 with
          | Some e => e | None => pbp_event_default end).
  assert (H : nth_error (prepare_pbp_data two_period_pbp) 4 =
              Some (match nth_error (prepare_pbp_data two_period_pbp) 4 with
                    | Some e => e | None => pbp_event_default end))
    by (vm_compute; reflexivity).
  split; [exact H|].
  assert (Hm : ev_msgType (match nth_error (prepare_pbp_data two_period_pbp) 4 with
                           | Some e => e | None => pbp_event_default end) = 4)
    by (vm_compute; reflexivity).
  split; [exact Hm|].
  exact (proj1 (identify_possession_endings_always_close _ 4 _ H) Hm).
Defined.

(* ------------------------------------------------------------------ *)
(** ** Players pipeline: the possessions split the sorted event stream *)

Lemma last_opt_app_single {A : Type} (l : list A) (x : A) :
  last_opt (l ++ [x]) = Some x.
Proof.
  induction l as [|a t IH]; [reflexivity|].
  simpl; destruct (t ++ [x]) eqn:E; [destruct t; discriminate|exact IH].
Qed.

Lemma last_opt_app_r {A : Type} (l m : list A) :
  m <> [] -> last_opt (l ++ m) = last_opt m.
Proof.
  intros Hm; induction l as [|a t IH]; [reflexivity|].
  simpl; destruct (t ++ m) eqn:E; [destruct t, m; try discriminate; contradiction|exact IH].
Qed.

Lemma Forall_removelast {A : Type} (P : A -> Prop) (l : list A) :
  Forall P l -> Forall P (removelast l).
Proof.
  induction 1 as [|a t Ha Ht IH]; [constructor|].
  destruct t; simpl; [constructor|constructor; assumption].
Qed.

Lemma possession_end_reason_not_game_end (e : PossEvent) (n : option PossEvent) (r : string) :
  possession_end_reason e n = Some r -> r <> "game_end"%string.
Proof.
  unfold possession_end_reason.
  repeat match goal with
         | |- context [if ?b then _ else _] => destruct b
         | |- context [match ?o with Some _ => _ | None => _ end] => destruct o
         end; intros H; try discriminate; injection H as <-; discriminate.
Qed.

Lemma identify_possessions_from_inv (rows : list PossEvent)
    (possessions : list PlayerPossession) (current : option OpenPossession)
    (ps' : list PlayerPossession) (cur' : option OpenPossession) :
  identify_possessions_from rows possessions current = (ps', cur') ->
  map pp_possession_id possessions = zseq 1 (List.length possessions) ->
  Forall closed_possession_ok possessions ->
  Forall (fun p => pp_end_reason p <> "game_end"%string) possessions ->
  (forall c, current = Some c ->
     op_possession_id c = Z.of_nat (List.length possessions) + 1 /\
     exists first, hd_error (op_events c) = Some first /\
       op_start_period c = pe_period first /\ op_start_wallClock c = pe_wallClockInt first /\
       op_offensive_team c = pe_offTeamId first /\ op_defensive_team c = pe_defTeamId first) ->
  flat_map pp_events ps' ++ match cur' with Some c => op_events c | None => [] end =
    flat_map pp_events possessions ++
    match current with Some c => op_events c | None => [] end ++ rows /\
  map pp_possession_id ps' = zseq 1 (List.length ps') /\
  Forall closed_possession_ok ps' /\
  Forall (fun p => pp_end_reason p <> "game_end"%string) ps' /\
  (forall c, cur' = Some c ->
     op_possession_id c = Z.of_nat (List.length ps') + 1 /\
     exists first, hd_error (op_events c) = Some first /\
       op_start_period c = pe_period first /\ op_start_wallClock c = pe_wallClockInt first /\
       op_offensive_team c = pe_offTeamId first /\ op_defensive_team c = pe_defTeamId first).
Proof.
  revert possessions current; induction rows as [|event t IH];
    intros possessions current Hrun Hid Hok Hreason Hcur.
  - simpl in Hrun; injection Hrun as <- <-.
    rewrite app_nil_r; auto.
  - cbn [identify_possessions_from] in Hrun.
    set (cur0 := match current with
                 | Some c => c
                 | None => open_possession (Z.of_nat (List.length possessions) + 1) event
                 end) in Hrun.
    assert (Hev0 : op_events cur0 = match current with Some c => op_events c | None => [] end)
      by (unfold cur0; destruct current; reflexivity).
    assert (Hc0 : op_possession_id cur0 = Z.of_nat (List.length possessions) + 1 /\
      exists first, hd_error (op_events cur0 ++ [event]) = Some first /\
        op_start_period cur0 = pe_period first /\ op_start_wallClock cur0 = pe_wallClockInt first /\
        op_offensive_team cur0 = pe_offTeamId first /\ op_defensive_team cur0 = pe_defTeamId first).
    { unfold cur0; destruct current as [c|].
      - destruct (Hcur c eq_refl) as [Hi (first & Hf & H1 & H2 & H3 & H4)].
        split; [exact Hi|exists first; split; [|auto]].
        destruct (op_events c); [discriminate|exact Hf].
      - split; [reflexivity|exists event; simpl; auto]. }
    destruct Hc0 as [Hi0 (first & Hf0 & Hs1 & Hs2 & Hs3 & Hs4)].
    clearbody cur0.
    destruct (possession_end_reason event (hd_error t)) as [r|] eqn:Er.
    + destruct (IH _ _ Hrun) as (Hflat & Hid' & Hok' & Hreason' & Hcur').
      * rewrite length_app, map_app, Hid, <- zseq_app; f_equal.
        cbn [map zseq List.length close_possession add_event pp_possession_id op_possession_id].
        rewrite Hi0; f_equal; lia.
      * apply Forall_app; split; [exact Hok|constructor; [|constructor]].
        split; [reflexivity|].
        exists first, event; simpl.
        split; [exact Hf0|split; [apply last_opt_app_single|auto 10]].
      * apply Forall_app; split; [exact Hreason|constructor; [|constructor]].
        apply (possession_end_reason_not_game_end _ _ _ Er).
      * intros c Hc; discriminate.
      * split; [|auto].
        rewrite Hflat, flat_map_app; simpl.
        rewrite Hev0, !app_nil_r, <- !app_assoc; reflexivity.
    + destruct (IH _ _ Hrun) as (Hflat & Hid' & Hok' & Hreason' & Hcur').
      * exact Hid.
      * exact Hok.
      * exact Hreason.
      * intros c Hc; injection Hc as <-; simpl.
        split; [exact Hi0|exists first; auto].
      * split; [|auto].
        rewrite Hflat; simpl; rewrite Hev0, <- app_assoc; reflexivity.
Qed.

Lemma identify_possessions_props (pbp_df : list PossEvent) :
  flat_map pp_events (identify_possessions pbp_df) = sort_by_period_wallClock pbp_df /\
  map pp_possession_id (identify_possessions pbp_df) =
    zseq 1 (List.length (identify_possessions pbp_df)) /\
  Forall closed_possession_ok (identify_possessions pbp_df) /\
  Forall (fun p => pp_end_reason p <> "game_end"%string)
    (removelast (identify_possessions pbp_df)).
Proof.
  unfold identify_possessions.
  set (sorted := sort_by_period_wallClock pbp_df).
  destruct (identify_possessions_from sorted [] None) as [ps cur] eqn:Erun.
  destruct (identify_possessions_from_inv _ _ _ _ _ Erun eq_refl (Forall_nil _)
              (Forall_nil _) ltac:(intros c Hc; discriminate))
    as (Hflat & Hid & Hok & Hreason & Hcur).
  simpl in Hflat.
  destruct cur as [c|].
  - destruct (Hcur c eq_refl) as [Hi (first & Hf & H1 & H2 & H3 & H4)].
    assert (Hne : op_events c <> []) by (destruct (op_events c); discriminate).
    assert (Hlast : last_opt sorted = last_opt (op_events c))
      by (rewrite <- Hflat; apply last_opt_app_r, Hne).
    destruct (last_opt_some _ Hne) as [final Hfinal].
    rewrite Hlast, Hfinal.
    split; [|split; [|split]].
    + rewrite flat_map_app; simpl; rewrite app_nil_r; exact Hflat.
    + rewrite map_app, length_app, Hid, <- zseq_app; f_equal.
      cbn [map zseq List.length close_possession pp_possession_id].
      rewrite Hi; f_equal; lia.
    + apply Forall_app; split; [exact Hok|constructor; [|constructor]].
      split; [reflexivity|exists first, final; simpl; auto 10].
    + rewrite removelast_last; exact Hreason.
  - rewrite app_nil_r in Hflat.
    split; [exact Hflat|split; [exact Hid|split; [exact Hok|]]].
    apply Forall_removelast, Hreason.
Qed.

(** [_identify_possessions] splits the play-by-play, sorted by period and
    wall clock, into consecutive possessions: concatenating their event
    lists gives back the sorted stream (so every event is in exactly one
    possession), the ids run 1, 2, 3, ... and each [event_count] is the
    number of events of its possession. *)
Theorem identify_possessions_partition (pbp_df : list PossEvent) :
  flat_map pp_events (identify_possessions pbp_df) = sort_by_period_wallClock pbp_df /\
  Permutation (flat_map pp_events (identify_possessions pbp_df)) pbp_df /\
  map pp_possession_id (identify_possessions pbp_df) =
    zseq 1 (List.length (identify_possessions pbp_df)) /\
  Forall (fun p => pp_event_count p = Z.of_nat (List.length (pp_events p)))
    (identify_possessions pbp_df).
Proof.
  destruct (identify_possessions_props pbp_df) as (Hflat & Hid & Hok & _).
  split; [exact Hflat|split; [|split; [exact Hid|]]].
  - rewrite Hflat; apply stable_sort_perm.
  - eapply Forall_impl; [|exact Hok]; intros p [Hc _]; exact Hc.
Qed.

(** Each possession of [_identify_possessions] starts at its first event
    (period, wall clock and both team ids taken from it) and ends at its
    last event; only the final possession can have the end reason
    [game_end]. *)
Theorem identify_possessions_bounds (pbp_df : list PossEvent) :
  Forall closed_possession_ok (identify_possessions pbp_df) /\
  Forall (fun p => pp_end_reason p <> "game_end"%string)
    (removelast (identify_possessions pbp_df)).
Proof.
  destruct (identify_possessions_props pbp_df) as (_ & _ & Hok & Hreason).
  split; [exact Hok|exact Hreason].
Qed.

(* ------------------------------------------------------------------ *)
(** ** Players pipeline: what the per-player possession counts count *)

Section CountPossessions.

Let off_hit (pid : Z) (x : Z * Z * PlayerInterval) : bool :=
  let '(o, d, iv) := x in (pi_playerId iv =? pid) && (pi_teamId iv =? o).

Let def_hit (pid : Z) (x : Z * Z * PlayerInterval) : bool :=
  let '(o, d, iv) := x in
  (pi_playerId iv =? pid) && negb (pi_teamId iv =? o) && (pi_teamId iv =? d).

Let seen (pid : Z) (x : Z * Z * PlayerInterval) : bool :=
  let '(o, d, iv) := x in pi_playerId iv =? pid.

Let step (m : list (Z * (Z * Z))) (x : Z * Z * PlayerInterval) : list (Z * (Z * Z)) :=
  let '(o, d, iv) := x in count_interval o d m iv.

Let cnt (f : Z -> Z * Z * PlayerInterval -> bool) (pid : Z) (P : list (Z * Z * PlayerInterval))
  : Z := Z.of_nat (List.length (filter (f pid) P)).

Lemma count_interval_spec (o d : Z) (m : list (Z * (Z * Z))) (iv : PlayerInterval) (k : Z) :
  lookup_Z k (count_interval o d m iv) =
  if k =? pi_playerId iv then
    let '(a, b) := match lookup_Z k m with Some c => c | None => (0, 0) end in
    Some (a + (if pi_teamId iv =? o then 1 else 0),
          b + (if negb (pi_teamId iv =? o) && (pi_teamId iv =? d) then 1 else 0))
  else lookup_Z k m.
Proof.
  unfold count_interval.
  destruct (Z.eqb_spec k (pi_playerId iv)) as [->|Hne].
  - destruct (lookup_Z (pi_playerId iv) m) as [[a b]|] eqn:El.
    + rewrite El.
      destruct (pi_teamId iv =? o); [|destruct (pi_teamId iv =? d)];
        rewrite ?lookup_Z_update, ?Z.eqb_refl; simpl;
        first [rewrite El; f_equal; f_equal; lia | f_equal; f_equal; lia].
    + rewrite lookup_Z_update, Z.eqb_refl.
      destruct (pi_teamId iv =? o); [|destruct (pi_teamId iv =? d)];
        rewrite ?lookup_Z_update, ?Z.eqb_refl; simpl; reflexivity.
  - apply Z.eqb_neq in Hne.
    destruct (lookup_Z (pi_playerId iv) m) as [[a b]|] eqn:El;
      [rewrite El|rewrite (lookup_Z_update (pi_playerId iv) (pi_playerId iv)), Z.eqb_refl];
      cbv beta iota zeta;
      (destruct (pi_teamId iv =? o); [|destruct (pi_teamId iv =? d)]);
      rewrite ?lookup_Z_update, ?Hne; reflexivity.
Qed.

Lemma count_interval_NoDup (o d : Z) (m : list (Z * (Z * Z))) (iv : PlayerInterval) :
  NoDup (map fst m) -> NoDup (map fst (count_interval o d m iv)).
Proof.
  intros Hnd; unfold count_interval.
  assert (Hc : NoDup (map fst (match lookup_Z (pi_playerId iv) m with
                               | Some _ => m
                               | None => update_Z (pi_playerId iv) (0, 0) m end)))
    by (destruct (lookup_Z _ m); [exact Hnd|apply keys_update_NoDup, Hnd]).
  destruct (match lookup_Z (pi_playerId iv) _ with Some c => c | None => (0, 0) end)
    as [a b].
  destruct (pi_teamId iv =? o); [|destruct (pi_teamId iv =? d)];
    try apply keys_update_NoDup; exact Hc.
Qed.

Lemma fold_count_possession (L : list PlayerInterval) (ps : list PlayerPossession)
    (m : list (Z * (Z * Z))) :
  fold_left (count_possession L) ps m = fold_left step (on_court_pairs ps L) m.
Proof.
  revert m; induction ps as [|p ps IH]; intros m; [reflexivity|].
  unfold on_court_pairs; cbn [flat_map]; rewrite fold_left_app.
  fold (on_court_pairs ps L); rewrite <- IH; cbn [fold_left]; f_equal.
  unfold count_possession.
  destruct (pp_offensive_team p) as [o|], (pp_defensive_team p) as [d|]; try reflexivity.
  generalize m; induction (players_on_court p L) as [|iv ivs IHi]; intros m0;
    [reflexivity|exact (IHi _)].
Qed.

Lemma hits_absent (k : Z) (P : list (Z * Z * PlayerInterval)) :
  existsb (seen k) P = false -> filter (off_hit k) P = [] /\ filter (def_hit k) P = [].
Proof.
  induction P as [|[[o d] iv] P IH]; simpl; [auto|].
  intros H; apply orb_false_iff in H as [H1 H2]; rewrite H1; simpl; apply IH, H2.
Qed.

Lemma fold_step_spec (P : list (Z * Z * PlayerInterval)) (m : list (Z * (Z * Z))) (k : Z) :
  NoDup (map fst m) ->
  NoDup (map fst (fold_left step P m)) /\
  lookup_Z k (fold_left step P m) =
  if existsb (seen k) P then
    let '(a, b) := match lookup_Z k m with Some c => c | None => (0, 0) end in
    Some (a + cnt off_hit k P, b + cnt def_hit k P)
  else lookup_Z k m.
Proof.
  revert m; induction P as [|[[o d] iv] P IH]; intros m Hnd.
  - split; [exact Hnd|reflexivity].
  - cbn [fold_left].
    assert (Hnd' : NoDup (map fst (step m (o, d, iv))))
      by (apply count_interval_NoDup, Hnd).
    destruct (IH _ Hnd') as [HndF HF]; split; [exact HndF|rewrite HF].
    change (lookup_Z k (step m (o, d, iv))) with (lookup_Z k (count_interval o d m iv)).
    rewrite count_interval_spec.
    unfold cnt; cbn [existsb filter seen off_hit def_hit].
    destruct (Z.eqb_spec (pi_playerId iv) k) as [<-|Hne].
    + rewrite Z.eqb_refl; simpl.
      destruct (match lookup_Z (pi_playerId iv) m with Some c => c | None => (0, 0) end)
        as [a b].
      destruct (existsb _ P) eqn:Ex;
        [|destruct (hits_absent _ _ Ex) as [E1 E2]; rewrite E1, E2];
        destruct (pi_teamId iv =? o), (pi_teamId iv =? d);
        cbn [negb andb List.length]; rewrite ?Nat2Z.inj_succ; f_equal; f_equal; lia.
    + assert (Hne' : (k =? pi_playerId iv) = false) by (apply Z.eqb_neq; congruence).
      rewrite Hne'; simpl; reflexivity.
Qed.

(** Each row of [_count_player_possessions] is one player who was on court
    (by the midpoint test) during some possession with both team ids known;
    no player has two rows.  Its offensive count is the number of such
    (possession, interval) pairs where the interval's team is the offense,
    its defensive count the number where it is the defense (an interval of
    a third team adds nothing, but its player still gets a row), and the
    total is their sum.  The team mapping is not read. *)
Theorem count_player_possessions_counts (possessions_df : list PlayerPossession)
    (lineup_intervals : list PlayerInterval) (team_mapping : list (Z * Z)) :
  let rows := count_player_possessions possessions_df lineup_intervals team_mapping in
  let pairs := on_court_pairs possessions_df lineup_intervals in
  NoDup (map pc_playerId rows) /\
  (forall pid, In pid (map pc_playerId rows) <->
               In pid (map (fun x => pi_playerId (snd x)) pairs)) /\
  (forall r, In r rows ->
     pc_offensive_possessions r =
       Z.of_nat (List.length (filter (fun x => let '(o, d, iv) := x in
                   (pi_playerId iv =? pc_playerId r) && (pi_teamId iv =? o)) pairs)) /\
     pc_defensive_possessions r =
       Z.of_nat (List.length (filter (fun x => let '(o, d, iv) := x in
                   (pi_playerId iv =? pc_playerId r) && negb (pi_teamId iv =? o) &&
                   (pi_teamId iv =? d)) pairs)) /\
     pc_total_possessions r = pc_offensive_possessions r + pc_defensive_possessions r).
Proof.
  intros rows pairs.
  unfold rows, count_player_possessions; rewrite fold_count_possession.
  fold pairs.
  set (m := fold_left step pairs []).
  assert (Hspec : forall k, NoDup (map fst m) /\
             lookup_Z k m = if existsb (seen k) pairs
                            then Some (cnt off_hit k pairs, cnt def_hit k pairs) else None).
  { intros k; destruct (fold_step_spec pairs [] k (NoDup_nil _)) as [H1 H2].
    split; [exact H1|]; unfold m; rewrite H2; simpl.
    destruct (existsb _ _); reflexivity. }
  assert (Hnd : NoDup (map fst m)) by apply (proj1 (Hspec 0)).
  assert (Hkeys : map pc_playerId
            (map (fun '(player_id, (o, d)) =>
                    {| pc_playerId := player_id; pc_offensive_possessions := o;
                       pc_defensive_possessions := d; pc_total_possessions := o + d |}) m)
          = map fst m).
  { clear; induction m as [|[k [o d]] t IH]; simpl; [reflexivity|f_equal; exact IH]. }
  split; [|split].
  - rewrite Hkeys; exact Hnd.
  - intros pid; rewrite Hkeys; split.
    + intros Hin; apply in_map_iff in Hin as ([k [o d]] & Hk & Hin); simpl in Hk; subst k.
      apply (lookup_Z_In _ _ _ Hnd) in Hin.
      rewrite (proj2 (Hspec pid)) in Hin.
      destruct (existsb (seen pid) pairs) eqn:Ex; [|discriminate].
      apply existsb_exists in Ex as ([[o' d'] iv] & Hx & Heq).
      apply Z.eqb_eq in Heq; subst pid.
      apply in_map_iff; exists (o', d', iv); auto.
    + intros Hin; apply in_map_iff in Hin as ([[o' d'] iv] & Hk & Hx); simpl in Hk; subst pid.
      assert (Ex : existsb (seen (pi_playerId iv)) pairs = true)
        by (apply existsb_exists; exists (o', d', iv); split; [exact Hx|apply Z.eqb_refl]).
      pose proof (proj2 (Hspec (pi_playerId iv))) as Hl; rewrite Ex in Hl.
      apply (lookup_Z_In _ _ _ Hnd) in Hl.
      apply in_map_iff; exists (pi_playerId iv, (cnt off_hit (pi_playerId iv) pairs,
                                                  cnt def_hit (pi_playerId iv) pairs)).
      split; [reflexivity|exact Hl].
  - intros r Hr; apply in_map_iff in Hr as ([k [o d]] & <- & Hin); simpl.
    apply (lookup_Z_In _ _ _ Hnd) in Hin.
    rewrite (proj2 (Hspec k)) in Hin.
    destruct (existsb (seen k) pairs); [|discriminate].
    injection Hin as <- <-; split; [reflexivity|split; reflexivity].
Qed.

End CountPossessions.

(* ------------------------------------------------------------------ *)
(** ** Lineup summary: extremes, teams and counts *)

Lemma unique_str_In (l : list string) (y : string) : In y (unique_str l) <-> In y l.
Proof.
  induction l as [|x t IH]; simpl; [tauto|].
  rewrite filter_In, IH, negb_true_iff, String.eqb_neq.
  split; [intros [->|[H _]]; auto|].
  intros [->|H]; [left; reflexivity|].
  destruct (String.eqb_spec y x) as [->|Hne]; [left; reflexivity|right; auto].
Qed.

Lemma unique_str_NoDup (l : list string) : NoDup (unique_str l).
Proof.
  induction l as [|x t IH]; simpl; constructor.
  - rewrite filter_In, negb_true_iff, String.eqb_neq; intros [_ H]; apply H; reflexivity.
  - apply NoDup_filter, IH.
Qed.

Lemma fold_Qmax_bool (l : list Q) (q0 : Q) :
  In (fold_left Qmax_bool l q0) (q0 :: l) /\
  forall q, In q (q0 :: l) -> (q <= fold_left Qmax_bool l q0)%Q.
Proof.
  revert q0; induction l as [|x l IH]; intros q0; simpl.
  - split; [left; reflexivity|intros q [<-|[]]; apply Qle_refl].
  - destruct (IH (Qmax_bool q0 x)) as [Hin Hge].
    assert (Hmax : (q0 <= Qmax_bool q0 x)%Q /\ (x <= Qmax_bool q0 x)%Q /\
                   (Qmax_bool q0 x = q0 \/ Qmax_bool q0 x = x)).
    { unfold Qmax_bool; destruct (Qle_bool q0 x) eqn:E.
      - apply Qle_bool_iff in E; split; [exact E|split; [apply Qle_refl|right; reflexivity]].
      - assert (H : ~ (q0 <= x)%Q) by (rewrite <- Qle_bool_iff; congruence).
        apply Qnot_le_lt in H.
        split; [apply Qle_refl|split; [apply Qlt_le_weak, H|left; reflexivity]]. }
    destruct Hmax as (H1 & H2 & H3).
    split.
    + destruct Hin as [Heq|Hin]; [|right; right; exact Hin].
      rewrite <- Heq; destruct H3 as [-> | ->]; [left|right; left]; reflexivity.
    + intros q [<-|[<-|Hq]].
      * eapply Qle_trans; [exact H1|apply Hge; left; reflexivity].
      * eapply Qle_trans; [exact H2|apply Hge; left; reflexivity].
      * apply Hge; right; exact Hq.
Qed.

Lemma fold_Qmin_bool (l : list Q) (q0 : Q) :
  In (fold_left Qmin_bool l q0) (q0 :: l) /\
  forall q, In q (q0 :: l) -> (fold_left Qmin_bool l q0 <= q)%Q.
Proof.
  revert q0; induction l as [|x l IH]; intros q0; simpl.
  - split; [left; reflexivity|intros q [<-|[]]; apply Qle_refl].
  - destruct (IH (Qmin_bool q0 x)) as [Hin Hle].
    assert (Hmin : (Qmin_bool q0 x <= q0)%Q /\ (Qmin_bool q0 x <= x)%Q /\
                   (Qmin_bool q0 x = q0 \/ Qmin_bool q0 x = x)).
    { unfold Qmin_bool; destruct (Qle_bool q0 x) eqn:E.
      - apply Qle_bool_iff in E; split; [apply Qle_refl|split; [exact E|left; reflexivity]].
      - assert (H : ~ (q0 <= x)%Q) by (rewrite <- Qle_bool_iff; congruence).
        apply Qnot_le_lt in H.
        split; [apply Qlt_le_weak, H|split; [apply Qle_refl|right; reflexivity]]. }
    destruct Hmin as (H1 & H2 & H3).
    split.
    + destruct Hin as [Heq|Hin]; [|right; right; exact Hin].
      rewrite <- Heq; destruct H3 as [-> | ->]; [left|right; left]; reflexivity.
    + intros q [<-|[<-|Hq]].
      * eapply Qle_trans; [apply Hle; left; reflexivity|exact H1].
      * eapply Qle_trans; [apply Hle; left; reflexivity|exact H2].
      * apply Hle; right; exact Hq.
Qed.

(** For a non-empty ratings table, [get_lineup_summary] reports as best
    and worst net rating the net rating of some unit of the table, with
    every unit's net rating between the two; its team list holds each team
    of the table exactly once; and the number of units with possessions on
    both sides is at most the number of units. *)
Theorem get_lineup_summary_extremes (ratings_df : list RatingRow) (s : LineupSummary) :
  get_lineup_summary ratings_df = Some s ->
  In (best_net_rating s) (map net_rating ratings_df) /\
  In (worst_net_rating s) (map net_rating ratings_df) /\
  (forall r, In r ratings_df ->
     (worst_net_rating s <= net_rating r)%Q /\ (net_rating r <= best_net_rating s)%Q) /\
  NoDup (summary_teams s) /\
  (forall t, In t (summary_teams s) <-> In t (map rt_team ratings_df)) /\
  0 <= lineups_with_both_stats s <= total_lineups s.
Proof.
  destruct ratings_df as [|r0 rest]; [discriminate|].
  intros H; injection H as <-; cbn [best_net_rating worst_net_rating summary_teams
    lineups_with_both_stats total_lineups].
  destruct (fold_Qmax_bool (map net_rating rest) (net_rating r0)) as [Hmx Hge].
  destruct (fold_Qmin_bool (map net_rating rest) (net_rating r0)) as [Hmn Hle].
  split; [exact Hmx|split; [exact Hmn|split; [|split; [|split]]]].
  - intros r Hr; split; [apply Hle|apply Hge]; apply (in_map net_rating _ _ Hr).
  - apply (Permutation_NoDup (Permutation_sym (stable_sort_perm _ _))).
    exact (unique_str_NoDup (map rt_team (r0 :: rest))).
  - intros t; rewrite In_stable_sort.
    exact (unique_str_In (map rt_team (r0 :: rest)) t).
  - split; [lia|].
    assert (Hf := filter_length_le
      (fun r : RatingRow => (0 <? rt_off_poss r) && (0 <? rt_def_poss r)) (r0 :: rest)).
    apply Nat2Z.inj_le in Hf; exact Hf.
Qed.

Lemma get_lineup_summary_extremes_witness :
  exists s, get_lineup_summary (calculate_lineup_ratings (fun q => q) join_rows) = Some s /\
    total_lineups s = 3 /\
    (forall r, In r (calculate_lineup_ratings (fun q => q) join_rows) ->
       (worst_net_rating s <= net_rating r)%Q /\ (net_rating r <= best_net_rating s)%Q).
Proof.
  set (rs := calculate_lineup_ratings (fun q => q) join_rows).
  destruct (get_lineup_summary rs) as [s|] eqn:E.
  - exists s; split; [reflexivity|split].
    + assert (Ht : option_map total_lineups (get_lineup_summary rs) = Some 3)
        by (unfold rs; vm_compute; reflexivity).
      rewrite E in Ht; injection Ht as Ht; exact Ht.
    + exact (proj1 (proj2 (proj2 (get_lineup_summary_extremes rs s E)))).
  - exfalso; unfold rs in E; vm_compute in E; discriminate.
Defined.

(* ------------------------------------------------------------------ *)
(** ** Court time: where inferred re-entries come from *)

Lemma team_of_some (team_mapping : list (Z * Z)) (p t : Z) :
  team_of team_mapping p = Some t -> lookup_Z p team_mapping = Some t /\ t <> 0.
Proof.
  unfold team_of; destruct (lookup_Z p team_mapping) as [t'|]; [|discriminate].
  destruct (Z.eqb_spec t' 0); [discriminate|intros H; injection H as <-; auto].
Qed.

Lemma sub_events_src (substitutions : list PlayRow) (sub_events : list HybridEvent) :
  fold_right (fun sub acc =>
      match sub_players sub, acc with
      | Some (po, pi), Some l =>
          Some (EvSubstitution (p_period sub) (p_wallClockInt sub) po pi :: l)
      | _, _ => None
      end) (Some []) substitutions = Some sub_events ->
  forall p w po pi, In (EvSubstitution p w po pi) sub_events ->
    exists sub, In sub substitutions /\ p_playerId1 sub = Some po.
Proof.
  revert sub_events; induction substitutions as [|sub t IH]; intros sub_events; simpl.
  - intros H; injection H as <-; intros ? ? ? ? [].
  - destruct (sub_players sub) as [[po0 pi0]|] eqn:Es; [|discriminate].
    destruct (fold_right _ (Some []) t) as [l|] eqn:El; [|discriminate].
    intros H; injection H as <-; intros p w po pi [Heq|Hin].
    + injection Heq as _ _ <- _; exists sub; split; [left; reflexivity|].
      unfold sub_players in Es.
      destruct (p_playerId1 sub), (p_playerId2 sub); try discriminate.
      injection Es as -> _; reflexivity.
    + destruct (IH l eq_refl p w po pi Hin) as (s & Hs & Hp); exists s; auto.
Qed.

(** Each status change inferred by [_infer_reentries_from_activity] is an
    [IN] of a player who leaves the court in some substitution
    ([playerId1]), at the period and wall clock of one of that player's
    activities, with the player's non-zero team id from the mapping; a
    player never substituted out is never inferred to re-enter. *)
Theorem infer_reentries_from_activity_sources (activities : list Activity)
    (substitutions : list PlayRow) (team_mapping : list (Z * Z))
    (inferred : list StatusChange) :
  infer_reentries_from_activity activities substitutions team_mapping = Some inferred ->
  forall c, In c inferred ->
    sc_action c = IN /\
    lookup_Z (sc_playerId c) team_mapping = Some (sc_teamId c) /\ sc_teamId c <> 0 /\
    (exists sub, In sub substitutions /\ p_playerId1 sub = Some (sc_playerId c)) /\
    (exists a, In a activities /\ ac_playerId a = sc_playerId c /\
               ac_period a = sc_period c /\ ac_wallClockInt a = sc_wallClockInt c).
Proof.
  unfold infer_reentries_from_activity.
  destruct (fold_right _ (Some []) substitutions) as [sub_events|] eqn:Esub;
    [|discriminate].
  pose proof (sub_events_src _ _ Esub) as Hsrc.
  match goal with
  | |- Some (snd (fold_left ?F (stable_sort ?LEB ?L) _)) = _ -> _ =>
      set (G := F); set (evs := stable_sort LEB L)
  end.
  assert (Hevs : forall ev, In ev evs -> In ev (sub_events ++
            map (fun a => EvActivity (ac_period a) (ac_wallClockInt a) (ac_playerId a))
              activities))
    by (intros ev; unfold evs; rewrite In_stable_sort; auto).
  set (Good := fun c : StatusChange =>
    sc_action c = IN /\
    lookup_Z (sc_playerId c) team_mapping = Some (sc_teamId c) /\ sc_teamId c <> 0 /\
    (exists sub, In sub substitutions /\ p_playerId1 sub = Some (sc_playerId c)) /\
    (exists a, In a activities /\ ac_playerId a = sc_playerId c /\
               ac_period a = sc_period c /\ ac_wallClockInt a = sc_wallClockInt c)).
  assert (Hgen : forall l status inf,
    (forall ev, In ev l -> In ev evs) ->
    (forall pid, lookup_Z pid status = Some StOUT ->
       exists sub, In sub substitutions /\ p_playerId1 sub = Some pid) ->
    (forall c, In c inf -> Good c) ->
    forall c, In c (snd (fold_left G l (status, inf))) -> Good c).
  { induction l as [|ev l IH]; intros status inf Hl Hst Hinf;
      [exact Hinf|].
    change (fold_left G l (G (status, inf) ev)) with (fold_left G (ev :: l) (status, inf)).
    cbn [fold_left].
    destruct (G (status, inf) ev) as [status' inf'] eqn:Eg.
    apply (IH status' inf' (fun e He => Hl e (or_intror He))).
    - intros pid Hp.
      unfold G in Eg; destruct ev as [p w po pi|p w pid0].
      + injection Eg as <- <-.
        rewrite !lookup_Z_update in Hp.
        destruct (pid =? pi); [discriminate|].
        destruct (Z.eqb_spec pid po) as [Hpo|]; [subst po|exact (Hst _ Hp)].
        assert (Hin := Hevs _ (Hl _ (or_introl eq_refl))).
        apply in_app_or in Hin as [Hin|Hin];
          [exact (Hsrc _ _ _ _ Hin)|].
        apply in_map_iff in Hin as (a & Ha & _); discriminate.
      + destruct (lookup_Z pid0 status) as [[|]|] eqn:El;
          [injection Eg as <- <-; exact (Hst _ Hp)| |injection Eg as <- <-; exact (Hst _ Hp)].
        destruct (team_of team_mapping pid0) as [tid|];
          injection Eg as <- <-; [|exact (Hst _ Hp)].
        rewrite lookup_Z_update in Hp; destruct (pid =? pid0); [discriminate|exact (Hst _ Hp)].
    - intros c Hc.
      unfold G in Eg; destruct ev as [p w po pi|p w pid0].
      + injection Eg as <- <-; exact (Hinf _ Hc).
      + destruct (lookup_Z pid0 status) as [[|]|] eqn:El;
          [injection Eg as <- <-; exact (Hinf _ Hc)| |injection Eg as <- <-; exact (Hinf _ Hc)].
        destruct (team_of team_mapping pid0) as [tid|] eqn:Et;
          injection Eg as <- <-; [|exact (Hinf _ Hc)].
        apply in_app_or in Hc as [Hc|[<-|[]]]; [exact (Hinf _ Hc)|].
        destruct (team_of_some _ _ _ Et) as [Hl1 Hl2].
        split; [reflexivity|split; [exact Hl1|split; [exact Hl2|split]]].
        * exact (Hst _ El).
        * assert (Hin := Hevs _ (Hl _ (or_introl eq_refl))).
          apply in_app_or in Hin as [Hin|Hin].
          -- exfalso; clear -Hin Esub.
             revert sub_events Esub Hin; induction substitutions as [|s t IHs];
               intros sub_events Esub Hin; simpl in Esub.
             ++ injection Esub as <-; exact Hin.
             ++ destruct (sub_players s) as [[a b]|]; [|discriminate].
                destruct (fold_right _ (Some []) t) as [l'|] eqn:El'; [|discriminate].
                injection Esub as <-; destruct Hin as [Heq|Hin]; [discriminate|].
                exact (IHs l' eq_refl Hin).
          -- apply in_map_iff in Hin as (a & Ha & Hain).
             injection Ha as Hp Hw Hid.
             exists a; simpl; auto. }
  intros H; injection H as <-.
  apply (Hgen evs [] []); auto.
  - intros pid Hp; discriminate.
  - intros c [].
Qed.

Lemma infer_reentries_from_activity_sources_witness :
  exists inferred,
    infer_reentries_from_activity (get_player_activities reentry_pbp)
      (get_substitution_events reentry_pbp) (get_team_mapping box_five) = Some inferred /\
    map (fun c => (sc_playerId c, sc_wallClockInt c)) inferred = [(106, 1300)] /\
    forall c, In c inferred ->
      sc_action c = IN /\
      exists sub, In sub (get_substitution_events reentry_pbp) /\
                  p_playerId1 sub = Some (sc_playerId c).
Proof.
  destruct (infer_reentries_from_activity (get_player_activities reentry_pbp)
              (get_substitution_events reentry_pbp) (get_team_mapping box_five))
    as [inferred|] eqn:E.
  - exists inferred; split; [reflexivity|split].
    + assert (H : option_map (map (fun c => (sc_playerId c, sc_wallClockInt c)))
                    (infer_reentries_from_activity (get_player_activities reentry_pbp)
                       (get_substitution_events reentry_pbp) (get_team_mapping box_five))
                  = Some [(106, 1300)]) by (vm_compute; reflexivity).
      rewrite E in H; injection H as H; exact H.
    + intros c Hc.
      destruct (infer_reentries_from_activity_sources _ _ _ _ E c Hc)
        as (H1 & _ & _ & H4 & _).
      split; [exact H1|exact H4].
  - exfalso; vm_compute in E; discriminate.
Defined.
